(** * Arrival prediction of the Ebus tracking server

    A shallow embedding of [server/models/Prediction.js],
    [server/routes/prediction.js] and the fare of [server/models/Route.js],
    and the properties of the arrival predictor proved on it.

    Conventions of the embedding.
    - A JavaScript number is an exact rational ([Q]); the decimal literals
      [1.5], [0.8], [1.3] and [1.2] are the fractions they denote.  Equality
      of numbers is [Qeq] ([==]).  The rounding of IEEE doubles is not
      modelled: a product or a quotient of the code can differ from the
      rational one in its last bit, and a stored date by one millisecond
      where the sum in [new Date(now + ...)] is no integer.
    - A [Date] is its time value, an integer number of milliseconds ([Z]).
      [new Date(x)] clips [x] to an integer by truncation and is invalid
      outside of +-8.64e15 ms.
    - A field of a JSON body has the type that the validators and the
      schema expect of it, and [None] is an absent key (for a validated
      field: a value that its validator refuses).  A value of another type
      in a field that no validator checks, such as a string for
      [currentSpeed], which JavaScript would coerce, is outside the
      embedding.
    - An id of a request body is an ObjectId, as [isMongoId()] checks.  The
      id in the path of the update route is checked by no validator and
      may be malformed ([IdParam]).
    - The wall clock is a parameter of every operation that reads it.
    - A MongoDB collection is a finite map from document ids to documents. *)

From Stdlib Require Import ZArith QArith Qround Qabs Qminmax Lia Lqa.
From stdpp Require Import gmap strings list sorting relations.

Local Open Scope Z_scope.

(** ** JavaScript numbers and dates *)

Module Js.

(** [Math.max(a, b)] *)
Definition Math_max (a b : Q) : Q := if Qlt_le_dec a b then b else a.

(** [Math.round(x)]: the nearest integer, a tie going up. *)
Definition Math_round (x : Q) : Z := Qfloor (x + (1 # 2)).

(** [a / b]; [None] stands for the non-finite quotient of a division by
    zero ([Infinity] or [NaN]). *)
Definition div (a b : Q) : option Q :=
  if Qeq_bool b 0 then None else Some (a / b)%Q.

(** [ToIntegerOrInfinity]: truncation towards zero. *)
Definition truncate (x : Q) : Z := Z.quot (Qnum x) (Zpos (Qden x)).

(** The largest time value of a [Date]. *)
Definition maxTime : Z := 8640000000000000.

(** [new Date(x)]: [TimeClip] of the number [x]; [None] is [Invalid Date]. *)
Definition newDate (x : Q) : option Z :=
  if Qle_bool (Qabs x) (inject_Z maxTime) then Some (truncate x) else None.

(** [o === s] for a possibly undefined string [o]. *)
Definition strictEq (o : option string) (s : string) : bool :=
  match o with
  | Some x => String.eqb x s
  | None => false
  end.

(** [o > 0] for a possibly undefined number [o]
    ([undefined > 0] is [false]). *)
Definition gt0 (o : option Q) : bool :=
  match o with
  | Some x => if Qlt_le_dec 0 x then true else false
  | None => false
  end.

End Js.

(** ** The prediction document ([predictionSchema]) *)

Definition ObjectId := N.

Inductive Status := pending | in_transit | arrived | cancelled.

#[global] Instance Status_eq_dec : EqDecision Status.
Proof. solve_decision. Defined.

(** Equality of the representations of two numbers. *)
#[global] Instance Q_eq_dec : EqDecision Q.
Proof. solve_decision. Defined.

(** A [factors] object as it arrives in a request body or as the argument
    of [updatePrediction]: every key may be missing. *)
Record FactorsInput := {
  in_trafficConditions : option string;
  in_weatherConditions : option string;
  in_timeOfDay : option string;
  in_dayOfWeek : option string;
  in_currentSpeed : option Q;
  in_distanceToStop : option Q;
  in_numberOfStops : option Q;
  in_passengerLoad : option Q;
  in_fuelLevel : option Q;
  in_temperature : option Q
}.

(** The [factors] sub-document of a stored prediction. *)
Record Factors := {
  trafficConditions : string;
  weatherConditions : string;
  timeOfDay : string;
  dayOfWeek : string;
  currentSpeed : Q;
  distanceToStop : Q;
  numberOfStops : Q;
  passengerLoad : Q;
  fuelLevel : Q;
  temperature : Q
}.

#[global] Instance Factors_eq_dec : EqDecision Factors.
Proof. solve_decision. Defined.

(** A stored prediction.  Of [historicalData] only [averageTravelTime] is
    read by the code; [algorithm] and [modelVersion] are constants that no
    operation reads, and are left out. *)
Record Prediction := {
  busId : ObjectId;
  routeId : ObjectId;
  driverId : ObjectId;
  stopId : Z;
  coordinates : list Q;
  predictedArrivalTime : Z;
  actualArrivalTime : option Z;
  predictionAccuracy : option Z;
  factors : Factors;
  averageTravelTime : Q;
  status : Status;
  createdAt : Z;
  updatedAt : Z
}.

#[global] Instance Prediction_eq_dec : EqDecision Prediction.
Proof. solve_decision. Defined.

(** ** The travel-time computation *)

Definition defaultBaseTime : Q := 30.

(** [if (tc === 'high') baseTime *= 1.5; else if (tc === 'low') baseTime *= 0.8;] *)
Definition adjustTraffic (tc : option string) (baseTime : Q) : Q :=
  if Js.strictEq tc "high" then (baseTime * 1.5)%Q
  else if Js.strictEq tc "low" then (baseTime * 0.8)%Q
  else baseTime.

(** [if (wc === 'rainy' || wc === 'snowy') baseTime *= 1.3;] *)
Definition adjustWeather (wc : option string) (baseTime : Q) : Q :=
  if Js.strictEq wc "rainy" || Js.strictEq wc "snowy" then (baseTime * 1.3)%Q
  else baseTime.

(** [if (tod === 'morning' || tod === 'evening') baseTime *= 1.2;] *)
Definition adjustTimeOfDay (tod : option string) (baseTime : Q) : Q :=
  if Js.strictEq tod "morning" || Js.strictEq tod "evening" then (baseTime * 1.2)%Q
  else baseTime.

(** [if (speed > 0) { const speedFactor = 30 / speed; baseTime *= speedFactor; }] *)
Definition adjustSpeed (speed : option Q) (baseTime : Q) : option Q :=
  if Js.gt0 speed then
    speedFactor ← Js.div 30 (default 0%Q speed);
    Some (baseTime * speedFactor)%Q
  else Some baseTime.

(** The arithmetic of the [POST /generate] handler (lines 40-53): the base
    time is the literal 30, and there is no time-of-day step. *)
Definition generateTravelTime (f : FactorsInput) : option Q :=
  let baseTime := defaultBaseTime in
  let baseTime := adjustTraffic (in_trafficConditions f) baseTime in
  let baseTime := adjustWeather (in_weatherConditions f) baseTime in
  adjustSpeed (in_currentSpeed f) baseTime.

(** [this.historicalData.averageTravelTime || 30]: zero is falsy. *)
Definition baseTimeOf (averageTravelTime : Q) : Q :=
  if Qeq_bool averageTravelTime 0 then defaultBaseTime else averageTravelTime.

(** The arithmetic of [updatePrediction] (lines 173-193) on the merged
    factors of the document. *)
Definition updateTravelTime (averageTravelTime : Q) (f : Factors) : option Q :=
  let baseTime := baseTimeOf averageTravelTime in
  let baseTime := adjustTraffic (Some (trafficConditions f)) baseTime in
  let baseTime := adjustWeather (Some (weatherConditions f)) baseTime in
  let baseTime := adjustTimeOfDay (Some (timeOfDay f)) baseTime in
  adjustSpeed (Some (currentSpeed f)) baseTime.

(** [new Date(now.getTime() + (baseTime * 60 * 1000))] *)
Definition arrivalDate (now : Z) (baseTime : Q) : option Z :=
  Js.newDate (inject_Z now + baseTime * 60 * 1000)%Q.

(** ** Schema validation ([mongoose] validators of [predictionSchema]) *)

Definition trafficEnum : list string := ["low"; "medium"; "high"].
Definition weatherEnum : list string := ["clear"; "rainy"; "snowy"; "foggy"].
Definition timeOfDayEnum : list string := ["morning"; "afternoon"; "evening"; "night"].
Definition dayOfWeekEnum : list string :=
  ["monday"; "tuesday"; "wednesday"; "thursday"; "friday"; "saturday"; "sunday"].

(** [enum: [...]] *)
Definition inEnum (enum : list string) (s : string) : bool :=
  existsb (String.eqb s) enum.

(** [min: lo, max: hi] *)
Definition inRange (lo hi x : Q) : bool := Qle_bool lo x && Qle_bool x hi.

Definition factorsValid (f : Factors) : bool :=
  inEnum trafficEnum (trafficConditions f)
  && inEnum weatherEnum (weatherConditions f)
  && inEnum timeOfDayEnum (timeOfDay f)
  && inEnum dayOfWeekEnum (dayOfWeek f)
  && inRange 0 120 (currentSpeed f)
  && Qle_bool 0 (distanceToStop f)
  && Qle_bool 0 (numberOfStops f)
  && inRange 0 100 (passengerLoad f)
  && inRange 0 100 (fuelLevel f).

Definition accuracyValid (a : option Z) : bool :=
  match a with
  | Some n => (0 <=? n) && (n <=? 100)
  | None => true
  end.

(** The validators that run when a document is created or saved. *)
Definition schemaValid (p : Prediction) : bool :=
  factorsValid (factors p) && accuracyValid (predictionAccuracy p).

(** ** Field updates of a document *)

Definition set_factors (f : Factors) (p : Prediction) : Prediction :=
  {| busId := busId p; routeId := routeId p; driverId := driverId p;
     stopId := stopId p; coordinates := coordinates p;
     predictedArrivalTime := predictedArrivalTime p;
     actualArrivalTime := actualArrivalTime p;
     predictionAccuracy := predictionAccuracy p;
     factors := f;
     averageTravelTime := averageTravelTime p; status := status p;
     createdAt := createdAt p; updatedAt := updatedAt p |}.

Definition set_predictedArrivalTime (t : Z) (p : Prediction) : Prediction :=
  {| busId := busId p; routeId := routeId p; driverId := driverId p;
     stopId := stopId p; coordinates := coordinates p;
     predictedArrivalTime := t;
     actualArrivalTime := actualArrivalTime p;
     predictionAccuracy := predictionAccuracy p;
     factors := factors p;
     averageTravelTime := averageTravelTime p; status := status p;
     createdAt := createdAt p; updatedAt := updatedAt p |}.

Definition set_actualArrivalTime (t : Z) (p : Prediction) : Prediction :=
  {| busId := busId p; routeId := routeId p; driverId := driverId p;
     stopId := stopId p; coordinates := coordinates p;
     predictedArrivalTime := predictedArrivalTime p;
     actualArrivalTime := Some t;
     predictionAccuracy := predictionAccuracy p;
     factors := factors p;
     averageTravelTime := averageTravelTime p; status := status p;
     createdAt := createdAt p; updatedAt := updatedAt p |}.

Definition set_predictionAccuracy (a : Z) (p : Prediction) : Prediction :=
  {| busId := busId p; routeId := routeId p; driverId := driverId p;
     stopId := stopId p; coordinates := coordinates p;
     predictedArrivalTime := predictedArrivalTime p;
     actualArrivalTime := actualArrivalTime p;
     predictionAccuracy := Some a;
     factors := factors p;
     averageTravelTime := averageTravelTime p; status := status p;
     createdAt := createdAt p; updatedAt := updatedAt p |}.

Definition set_status (s : Status) (p : Prediction) : Prediction :=
  {| busId := busId p; routeId := routeId p; driverId := driverId p;
     stopId := stopId p; coordinates := coordinates p;
     predictedArrivalTime := predictedArrivalTime p;
     actualArrivalTime := actualArrivalTime p;
     predictionAccuracy := predictionAccuracy p;
     factors := factors p;
     averageTravelTime := averageTravelTime p; status := s;
     createdAt := createdAt p; updatedAt := updatedAt p |}.

Definition set_updatedAt (t : Z) (p : Prediction) : Prediction :=
  {| busId := busId p; routeId := routeId p; driverId := driverId p;
     stopId := stopId p; coordinates := coordinates p;
     predictedArrivalTime := predictedArrivalTime p;
     actualArrivalTime := actualArrivalTime p;
     predictionAccuracy := predictionAccuracy p;
     factors := factors p;
     averageTravelTime := averageTravelTime p; status := status p;
     createdAt := createdAt p; updatedAt := t |}.

(** ** Methods of the model *)

(** [predictionSchema.methods.calculateAccuracy]: the document after the
    call, and the value returned ([None] is [null]). *)
Definition calculateAccuracy (this : Prediction) : Prediction * option Z :=
  match actualArrivalTime this with
  | None => (this, None)
  | Some actual =>
    let predicted := predictedArrivalTime this in
    let difference := (inject_Z (Z.abs (predicted - actual)) / (1000 * 60))%Q in
    let accuracy := Js.Math_max 0 (100 - (difference * 2)) in
    let this := set_predictionAccuracy (Js.Math_round accuracy) this in
    (this, predictionAccuracy this)
  end.

(** [{ ...this.factors, ...newFactors }] *)
Definition mergeFactors (f : Factors) (n : FactorsInput) : Factors :=
  {| trafficConditions := default (trafficConditions f) (in_trafficConditions n);
     weatherConditions := default (weatherConditions f) (in_weatherConditions n);
     timeOfDay := default (timeOfDay f) (in_timeOfDay n);
     dayOfWeek := default (dayOfWeek f) (in_dayOfWeek n);
     currentSpeed := default (currentSpeed f) (in_currentSpeed n);
     distanceToStop := default (distanceToStop f) (in_distanceToStop n);
     numberOfStops := default (numberOfStops f) (in_numberOfStops n);
     passengerLoad := default (passengerLoad f) (in_passengerLoad n);
     fuelLevel := default (fuelLevel f) (in_fuelLevel n);
     temperature := default (temperature f) (in_temperature n) |}.

(** [this.isModified()] for a document that was loaded as [stored]:
    assigning to a path the value it already has does not mark it. *)
Definition isModified (stored this : Prediction) : bool :=
  negb (bool_decide (this = stored)).

(** [this.save()] of a document that was loaded as [stored]: the validators
    run, and the pre-save hook of the [timestamps] option sets [updatedAt]
    when a path was modified; an unmodified document is left as it is.
    [None] is a rejected save. *)
Definition save (now : Z) (stored this : Prediction) : option Prediction :=
  if schemaValid this then
    Some (if isModified stored this then set_updatedAt now this else this)
  else None.

(** The new arrival time of [updatePrediction] (lines 173-197). *)
Definition updateArrivalTime (now : Z) (averageTravelTime : Q) (f : Factors) : option Z :=
  baseTime ← updateTravelTime averageTravelTime f;
  arrivalDate now baseTime.

(** [predictionSchema.methods.updatePrediction]: the document that is
    saved; [None] when the new arrival time is not a valid date or the save
    is rejected. *)
Definition updatePrediction (now : Z) (newFactors : FactorsInput)
    (this : Prediction) : option Prediction :=
  let stored := this in
  let this := set_factors (mergeFactors (factors this) newFactors) this in
  let this := set_updatedAt now this in
  newArrivalTime ← updateArrivalTime now (averageTravelTime this) (factors this);
  let this := set_predictedArrivalTime newArrivalTime this in
  save now stored this.

(** ** The collections *)

(** Of a bus document the handlers read [currentDriver] only. *)
Record Bus := { currentDriver : option ObjectId }.

Record Db := {
  buses : gmap ObjectId Bus;
  routes : gset ObjectId;
  predictions : gmap ObjectId Prediction
}.

Definition set_predictions (ps : gmap ObjectId Prediction) (db : Db) : Db :=
  {| buses := buses db; routes := routes db; predictions := ps |}.

(** The object literal handed to [Prediction.create]. *)
Record PredictionInput := {
  new_busId : option ObjectId;
  new_routeId : option ObjectId;
  new_driverId : option ObjectId;
  new_stopId : option Z;
  new_coordinates : option (list Q);
  new_predictedArrivalTime : option Z;
  new_factors : FactorsInput
}.

(** The document built from the literal: a [required] path that is missing
    (or an invalid date) rejects it, a missing path with a [default] takes
    the default. *)
Definition newDocument (now : Z) (d : PredictionInput) : option Prediction :=
  bus ← new_busId d;
  route ← new_routeId d;
  driver ← new_driverId d;
  stop ← new_stopId d;
  predicted ← new_predictedArrivalTime d;
  distance ← in_distanceToStop (new_factors d);
  let f := new_factors d in
  Some {| busId := bus; routeId := route; driverId := driver; stopId := stop;
          coordinates := default [] (new_coordinates d);
          predictedArrivalTime := predicted;
          actualArrivalTime := None;
          predictionAccuracy := None;
          factors :=
            {| trafficConditions := default "medium" (in_trafficConditions f);
               weatherConditions := default "clear" (in_weatherConditions f);
               timeOfDay := default "morning" (in_timeOfDay f);
               dayOfWeek := default "monday" (in_dayOfWeek f);
               currentSpeed := default 0%Q (in_currentSpeed f);
               distanceToStop := distance;
               numberOfStops := default 0%Q (in_numberOfStops f);
               passengerLoad := default 0%Q (in_passengerLoad f);
               fuelLevel := default 100%Q (in_fuelLevel f);
               temperature := default 25%Q (in_temperature f) |};
          averageTravelTime := 0;
          status := pending;
          createdAt := now; updatedAt := now |}.

(** [Prediction.create(d)]: the new id, the stored document and the
    collection after the insert; [None] when validation throws. *)
Definition create (now : Z) (ps : gmap ObjectId Prediction) (d : PredictionInput)
    : option (ObjectId * Prediction * gmap ObjectId Prediction) :=
  p ← newDocument now d;
  if schemaValid p then
    let id := fresh (dom ps) in Some (id, p, <[id := p]> ps)
  else None.

(** ** The request handlers of [routes/prediction.js] *)

Inductive Response :=
  | Created (id : ObjectId) (p : Prediction)
  | Updated (id : ObjectId) (p : Prediction)
  | BadRequest (errors : list string)
  | NotFound (message : string)
  | ServerError.

(** The readings of the wall clock: [new Date()] as milliseconds, its local
    [getHours()] and [getDay()]. *)
Record Clock := { clock_now : Z; clock_hours : Z; clock_day : nat }.

Definition getTimeOfDay (clk : Clock) : string :=
  let hour := clock_hours clk in
  if (5 <=? hour) && (hour <? 12) then "morning"
  else if (12 <=? hour) && (hour <? 17) then "afternoon"
  else if (17 <=? hour) && (hour <? 21) then "evening"
  else "night".

Definition getDayOfWeek (clk : Clock) : option string :=
  let days := ["sunday"; "monday"; "tuesday"; "wednesday"; "thursday";
               "friday"; "saturday"] in
  days !! clock_day clk.

(** The body of [POST /api/prediction/generate]. *)
Record GenerateRequest := {
  req_busId : option ObjectId;
  req_routeId : option ObjectId;
  req_stopId : option Z;
  req_coordinates : option (list Q);
  req_factors : FactorsInput
}.

(** One validator of a chain: the message of [withMessage] when the check
    fails. *)
Definition check (ok : bool) (message : string) : list string :=
  if ok then [] else [message].

(** [isIn(values)] on a possibly missing string. *)
Definition isIn (values : list string) (o : option string) : bool :=
  match o with
  | Some s => inEnum values s
  | None => false
  end.

(** The validation chain of the generate route (lines 14-20), as the list
    of [validationResult(req)]. *)
Definition generateErrors (req : GenerateRequest) : list string :=
  check (bool_decide (is_Some (req_busId req))) "Valid bus ID required"
  ++ check (bool_decide (is_Some (req_routeId req))) "Valid route ID required"
  ++ check (from_option (Z.leb 1) false (req_stopId req)) "Valid stop ID required"
  ++ check (from_option (λ c, bool_decide (length c = 2%nat)) false (req_coordinates req))
       "Valid coordinates required"
  ++ check (isIn ["low"; "medium"; "high"] (in_trafficConditions (req_factors req)))
       "Valid traffic condition required"
  ++ check (isIn ["clear"; "rainy"; "snowy"; "foggy"] (in_weatherConditions (req_factors req)))
       "Valid weather condition required"
  ++ check (from_option (Qle_bool 0) false (in_distanceToStop (req_factors req)))
       "Valid distance required".

(** [{ ...factors, timeOfDay: getTimeOfDay(), dayOfWeek: getDayOfWeek() }] *)
Definition stampFactors (clk : Clock) (f : FactorsInput) : FactorsInput :=
  {| in_trafficConditions := in_trafficConditions f;
     in_weatherConditions := in_weatherConditions f;
     in_timeOfDay := Some (getTimeOfDay clk);
     in_dayOfWeek := getDayOfWeek clk;
     in_currentSpeed := in_currentSpeed f;
     in_distanceToStop := in_distanceToStop f;
     in_numberOfStops := in_numberOfStops f;
     in_passengerLoad := in_passengerLoad f;
     in_fuelLevel := in_fuelLevel f;
     in_temperature := in_temperature f |}.

(** The predicted arrival time of the generate handler (lines 39-55). *)
Definition generateArrivalTime (now : Z) (f : FactorsInput) : option Z :=
  baseTime ← generateTravelTime f;
  arrivalDate now baseTime.

(** [POST /api/prediction/generate] (lines 21-86) for an authenticated
    caller: the response and the database after the request. *)
Definition generate (clk : Clock) (db : Db) (req : GenerateRequest) : Response * Db :=
  match generateErrors req with
  | (_ :: _) as errors => (BadRequest errors, db)
  | [] =>
    let factors := req_factors req in
    let bus := req_busId req ≫= (buses db !!.) in
    let route := req_routeId req ≫= (λ id, if decide (id ∈ routes db) then Some id else None) in
    match bus, route with
    | Some bus, Some _ =>
      let now := clock_now clk in
      let predictedArrivalTime := generateArrivalTime now factors in
      match
        create now (predictions db)
          {| new_busId := req_busId req;
             new_routeId := req_routeId req;
             new_driverId := currentDriver bus;
             new_stopId := req_stopId req;
             new_coordinates := req_coordinates req;
             new_predictedArrivalTime := predictedArrivalTime;
             new_factors := stampFactors clk factors |}
      with
      | Some (id, prediction, ps) => (Created id prediction, set_predictions ps db)
      | None => (ServerError, db)
      end
    | _, _ => (NotFound "Bus or route not found", db)
    end
  end.

(** The [:id] segment of the path as [findById] receives it.  No validator
    of the update route looks at it: a string that mongoose casts to an
    ObjectId is that id, and for any other string (['abc']) [findById]
    throws a [CastError]. *)
Inductive IdParam :=
  | WellFormed (id : ObjectId)
  | Malformed.

(** [actualArrivalTime] of the body as the update handler uses it: whether
    [isISO8601()] accepts it and, if it does, the time value of
    [new Date(actualArrivalTime)], where [None] is [Invalid Date] (the week
    date ['2023-W46-3'] is accepted by the validator and is no date for
    [Date]). *)
Inductive ArrivalParam :=
  | NotISO8601
  | ISO8601 (date : option Z).

(** [Prediction.findById(id)]: [None] is the thrown [CastError],
    [Some None] is [null]. *)
Definition findById (ps : gmap ObjectId Prediction) (id : IdParam)
    : option (option (ObjectId * Prediction)) :=
  match id with
  | WellFormed id => Some ((λ p, (id, p)) <$> ps !! id)
  | Malformed => None
  end.

(** [PUT /api/prediction/:id/update] (lines 118-151).  The handler's
    [catch] answers 500 when [findById] throws and when [save] rejects;
    assigning [Invalid Date] to [actualArrivalTime] fails the cast of the
    path, which makes [save] reject whatever else was set. *)
Definition reportActual (now : Z) (db : Db) (id : IdParam)
    (actualArrivalTime : ArrivalParam) : Response * Db :=
  match actualArrivalTime with
  | NotISO8601 => (BadRequest ["Valid arrival time required"], db)
  | ISO8601 date =>
    match findById (predictions db) id with
    | None => (ServerError, db)
    | Some None => (NotFound "Prediction not found", db)
    | Some (Some (id, stored)) =>
      match date with
      | None => (ServerError, db)
      | Some actual =>
        let prediction := set_actualArrivalTime actual stored in
        let prediction := set_status arrived prediction in
        let prediction := (calculateAccuracy prediction).1 in
        match save now stored prediction with
        | Some saved =>
          (Updated id saved, set_predictions (<[id := saved]> (predictions db)) db)
        | None => (ServerError, db)
        end
      end
    end
  end.

(** [updatePrediction] called on the stored document [id]. *)
Definition updatePredictionOf (now : Z) (db : Db) (id : ObjectId)
    (newFactors : FactorsInput) : Db :=
  match predictions db !! id ≫= updatePrediction now newFactors with
  | Some saved => set_predictions (<[id := saved]> (predictions db)) db
  | None => db
  end.

(** The order of [.sort({ predictedArrivalTime: 1 })]. *)
Definition byArrival : relation (ObjectId * Prediction) :=
  λ a b, predictedArrivalTime a.2 ≤ predictedArrivalTime b.2.

#[global] Instance byArrival_dec a b : Decision (byArrival a b).
Proof. unfold byArrival. apply _. Defined.

(** The filter of [getPredictionsForStop] (lines 205-210). *)
Definition stopQuery (now : Z) (stop : Z) (route : ObjectId) (p : Prediction) : Prop :=
  stopId p = stop ∧ routeId p = route
  ∧ status p ∈ [pending; in_transit]
  ∧ now ≤ predictedArrivalTime p.

#[global] Instance stopQuery_dec now stop route p : Decision (stopQuery now stop route p).
Proof. unfold stopQuery. apply _. Defined.

(** [predictionSchema.statics.getPredictionsForStop]: find, sort, limit.
    [populate] only expands references and is left out. *)
Definition getPredictionsForStop (now : Z) (ps : gmap ObjectId Prediction)
    (stop : Z) (route : ObjectId) : list (ObjectId * Prediction) :=
  take 10
    (merge_sort byArrival
       (filter (λ d, stopQuery now stop route d.2) (map_to_list ps))).

(** ** Requests that differ in one factor *)

(** The factors [f] with [currentSpeed] replaced ([None]: key removed). *)
Definition with_currentSpeed (speed : option Q) (f : FactorsInput) : FactorsInput :=
  {| in_trafficConditions := in_trafficConditions f;
     in_weatherConditions := in_weatherConditions f;
     in_timeOfDay := in_timeOfDay f;
     in_dayOfWeek := in_dayOfWeek f;
     in_currentSpeed := speed;
     in_distanceToStop := in_distanceToStop f;
     in_numberOfStops := in_numberOfStops f;
     in_passengerLoad := in_passengerLoad f;
     in_fuelLevel := in_fuelLevel f;
     in_temperature := in_temperature f |}.

(** The factors [f] with [trafficConditions] replaced. *)
Definition with_trafficConditions (tc : string) (f : FactorsInput) : FactorsInput :=
  {| in_trafficConditions := Some tc;
     in_weatherConditions := in_weatherConditions f;
     in_timeOfDay := in_timeOfDay f;
     in_dayOfWeek := in_dayOfWeek f;
     in_currentSpeed := in_currentSpeed f;
     in_distanceToStop := in_distanceToStop f;
     in_numberOfStops := in_numberOfStops f;
     in_passengerLoad := in_passengerLoad f;
     in_fuelLevel := in_fuelLevel f;
     in_temperature := in_temperature f |}.

(** Stored factors with [trafficConditions] replaced. *)
Definition set_trafficConditions (tc : string) (f : Factors) : Factors :=
  {| trafficConditions := tc;
     weatherConditions := weatherConditions f;
     timeOfDay := timeOfDay f;
     dayOfWeek := dayOfWeek f;
     currentSpeed := currentSpeed f;
     distanceToStop := distanceToStop f;
     numberOfStops := numberOfStops f;
     passengerLoad := passengerLoad f;
     fuelLevel := fuelLevel f;
     temperature := temperature f |}.

(** The optional numeric factors of a request that the route does not
    validate are absent or within the schema's ranges. *)
Definition optionalFactorsValid (f : FactorsInput) : bool :=
  from_option (Qle_bool 0) true (in_numberOfStops f)
  && from_option (inRange 0 100) true (in_passengerLoad f)
  && from_option (inRange 0 100) true (in_fuelLevel f).

(** The request [req] with its [factors] replaced. *)
Definition with_factors (f : FactorsInput) (req : GenerateRequest) : GenerateRequest :=
  {| req_busId := req_busId req; req_routeId := req_routeId req;
     req_stopId := req_stopId req; req_coordinates := req_coordinates req;
     req_factors := f |}.

(** ** The operations as transitions of the prediction collection *)

(** One operation of the prediction component on the database. *)
Inductive step : Db → Db → Prop :=
  | step_generate clk db req :
      step db (generate clk db req).2
  | step_reportActual now db id actualArrivalTime :
      step db (reportActual now db id actualArrivalTime).2
  | step_updatePrediction now db id newFactors :
      step db (updatePredictionOf now db id newFactors).

(** ** The accuracy rule as the specification words it *)

(** [difference_minutes = abs(predicted - actual) / 60000];
    [accuracy = max(0, 100 - 2 * difference_minutes)]. *)
Definition reconcile_score (predicted actual : Z) : Q :=
  let difference_minutes := (Qabs (inject_Z predicted - inject_Z actual) / 60000)%Q in
  Qmax 0 (100 - 2 * difference_minutes)%Q.

(** [n] is [x] rounded to the nearest integer (a tie goes up). *)
Definition rounds_to (x : Q) (n : Z) : Prop :=
  (inject_Z n - (1 # 2) <= x ∧ x < inject_Z n + (1 # 2))%Q.

(** ** A scenario: high traffic, rain, 15 km/h, requested at 8 o'clock *)

Module Scenario.

Definition input : FactorsInput :=
  {| in_trafficConditions := Some "high";
     in_weatherConditions := Some "rainy";
     in_timeOfDay := None;
     in_dayOfWeek := None;
     in_currentSpeed := Some 15%Q;
     in_distanceToStop := Some 2%Q;
     in_numberOfStops := None;
     in_passengerLoad := None;
     in_fuelLevel := None;
     in_temperature := None |}.

Definition noFactors : FactorsInput :=
  {| in_trafficConditions := None; in_weatherConditions := None;
     in_timeOfDay := None; in_dayOfWeek := None; in_currentSpeed := None;
     in_distanceToStop := None; in_numberOfStops := None;
     in_passengerLoad := None; in_fuelLevel := None; in_temperature := None |}.

Definition request : GenerateRequest :=
  {| req_busId := Some 1%N; req_routeId := Some 2%N; req_stopId := Some 4;
     req_coordinates := Some [77.2%Q; 28.6%Q]; req_factors := input |}.

Definition db : Db :=
  {| buses := {[ 1%N := {| currentDriver := Some 7%N |} ]};
     routes := {[ 2%N ]};
     predictions := ∅ |}.

(** 2023-11-14T22:13:20Z, which is 08:13 on a Wednesday at UTC+10. *)
Definition clock : Clock :=
  {| clock_now := 1700000000000; clock_hours := 8; clock_day := 3 |}.

(** The document that [generate] stores for the request. *)
Definition stored : Prediction :=
  {| busId := 1%N; routeId := 2%N; driverId := 7%N; stopId := 4;
     coordinates := [77.2%Q; 28.6%Q];
     predictedArrivalTime := 1700000000000 + 7020000;
     actualArrivalTime := None; predictionAccuracy := None;
     factors :=
       {| trafficConditions := "high"; weatherConditions := "rainy";
          timeOfDay := "morning"; dayOfWeek := "wednesday";
          currentSpeed := 15; distanceToStop := 2; numberOfStops := 0;
          passengerLoad := 0; fuelLevel := 100; temperature := 25 |};
     averageTravelTime := 0; status := pending;
     createdAt := 1700000000000; updatedAt := 1700000000000 |}.

End Scenario.

(** ** Notions used to state the properties *)

(** What the query yields before the limit: the matching documents in the
    order of their predicted arrival. *)
Definition stopMatches (now : Z) (ps : gmap ObjectId Prediction)
    (stop : Z) (route : ObjectId) : list (ObjectId * Prediction) :=
  merge_sort byArrival (filter (λ d, stopQuery now stop route d.2) (map_to_list ps)).

(** Every stored prediction is pending or has arrived. *)
Definition pendingOrArrived (db : Db) : Prop :=
  ∀ id p, predictions db !! id = Some p → status p = pending ∨ status p = arrived.

(** The status of a document after an operation: it is stored anew as
    pending, or it keeps its status, or it becomes arrived. *)
Definition statusAfter (db db' : Db) (id : ObjectId) (p' : Prediction) : Prop :=
  (predictions db !! id = None ∧ status p' = pending)
  ∨ (∃ p, predictions db !! id = Some p
          ∧ (status p' = status p ∨ status p' = arrived)).

(** Every stored prediction passes the validators of the schema. *)
Definition allValid (db : Db) : Prop :=
  ∀ id p, predictions db !! id = Some p → schemaValid p = true.

(** ** The listing of a bus's predictions *)

(** The names of the statuses, as the schema's [enum] spells them. *)
Definition statusName (s : Status) : string :=
  match s with
  | pending => "pending"
  | in_transit => "in_transit"
  | arrived => "arrived"
  | cancelled => "cancelled"
  end.

(** [if (param)] for a query parameter: absent and empty are falsy. *)
Definition givenParam (param : option string) : option string :=
  match param with
  | Some s => if String.eqb s "" then None else Some s
  | None => None
  end.

(** The filter of [GET /api/prediction/bus/:busId] (lines 231-232):
    [{ busId }], and [status] when the query string gives one. *)
Definition busQuery (bus : ObjectId) (statusParam : option string)
    (p : Prediction) : Prop :=
  busId p = bus
  ∧ from_option (λ s, statusName (status p) = s) True (givenParam statusParam).

#[global] Instance busQuery_dec bus statusParam p : Decision (busQuery bus statusParam p).
Proof. unfold busQuery. destruct (givenParam statusParam); simpl; apply _. Defined.

(** All predictions of the bus in the order of the sort, before the
    limit. *)
Definition busMatches (ps : gmap ObjectId Prediction) (bus : ObjectId)
    (statusParam : option string) : list (ObjectId * Prediction) :=
  merge_sort byArrival (filter (λ d, busQuery bus statusParam d.2) (map_to_list ps)).

(** The [predictions] of [GET /api/prediction/bus/:busId] (lines 234-238):
    find, sort by predicted arrival, limit 20. *)
Definition busPredictions (ps : gmap ObjectId Prediction) (bus : ObjectId)
    (statusParam : option string) : list (ObjectId * Prediction) :=
  take 20 (busMatches ps bus statusParam).

(** ** The analytics of reported predictions *)

(** The fields of the [$group] stage (lines 188-204); [None] is [null]. *)
Record Analytics := {
  averageAccuracy : option Q;
  totalPredictions : nat;
  accuratePredictions : nat;
  averageDelay : option Q
}.

(** The object sent when the aggregation yields no group (lines 210-215). *)
Definition noAnalytics : Analytics :=
  {| averageAccuracy := Some 0%Q; totalPredictions := 0;
     accuratePredictions := 0; averageDelay := Some 0%Q |}.

(** The [switch] on [period] (lines 160-173), as the length of the window
    in milliseconds; a missing period is ['7d']. *)
Definition periodLength (period : option string) : Z :=
  let period := default "7d"%string period in
  if String.eqb period "24h" then 24 * 60 * 60 * 1000
  else if String.eqb period "7d" then 7 * 24 * 60 * 60 * 1000
  else if String.eqb period "30d" then 30 * 24 * 60 * 60 * 1000
  else 7 * 24 * 60 * 60 * 1000.

(** [$avg]: the mean of the values that are numbers, [null] without any. *)
Definition average (values : list Z) : option Q :=
  match values with
  | [] => None
  | _ =>
    let total := foldr Z.add 0 values in
    let count := Z.of_nat (length values) in
    Some (inject_Z total / inject_Z count)%Q
  end.

(** [{ $abs: { $subtract: ['$predictedArrivalTime', '$actualArrivalTime'] } }] *)
Definition delayOf (p : Prediction) : option Z :=
  actual ← actualArrivalTime p;
  Some (Z.abs (predictedArrivalTime p - actual)).

(** [{ $gte: ['$predictionAccuracy', 80] }]; a missing accuracy is below
    every number. *)
Definition isAccurate (p : Prediction) : bool :=
  from_option (Z.leb 80) false (predictionAccuracy p).

(** The [$group] stage with [_id: null]: one group for a non-empty input,
    none for an empty one. *)
Definition group (docs : list Prediction) : option Analytics :=
  match docs with
  | [] => None
  | _ =>
    Some {| averageAccuracy := average (omap predictionAccuracy docs);
            totalPredictions := length docs;
            accuratePredictions := length (List.filter isAccurate docs);
            averageDelay := average (omap delayOf docs) |}
  end.

Section Analytics.

(** How the [$match] stage compares the [busId] or [routeId] of the query
    string with the id that a document stores. *)
Variable sameId : string → ObjectId → bool.

(** [if (busId) matchQuery.busId = busId] and its effect on a document. *)
Definition idFilter (param : option string) (id : ObjectId) : bool :=
  from_option (λ s, sameId s id) true (givenParam param).

(** The [$match] stage (lines 175-181). *)
Definition analyticsMatch (startDate : Z) (busParam routeParam : option string)
    (p : Prediction) : bool :=
  (startDate <=? createdAt p)
  && bool_decide (is_Some (actualArrivalTime p))
  && idFilter busParam (busId p)
  && idFilter routeParam (routeId p).

(** The [analytics] of [GET /api/prediction/analytics] (lines 158-216) at
    the clock reading [now]. *)
Definition analytics (now : Z) (ps : gmap ObjectId Prediction)
    (period busParam routeParam : option string) : Analytics :=
  let startDate := now - periodLength period in
  let matched :=
    List.filter (analyticsMatch startDate busParam routeParam) (map_to_list ps).*2 in
  default noAnalytics (group matched).

End Analytics.

(** ** The fare of a route ([routeSchema.methods.calculateFare]) *)

(** Of a stop the fare reads its number and its time from the start of the
    route, in minutes. *)
Record Stop := { stopNumber : Q; estimatedTime : Q }.

(** Of a route the fare reads the stops, the average speed and the fare
    table. *)
Record Route := {
  stops : list Stop;
  averageSpeed : Q;
  fareBase : Q;
  farePerKm : Q
}.

(** [this.stops.find(stop => stop.stopNumber === n)] *)
Definition findStop (this : Route) (n : Q) : option Stop :=
  List.find (λ stop, Qeq_bool (stopNumber stop) n) (stops this).

(** [calculateFare(fromStopNumber, toStopNumber)] (lines 165-175 of
    [models/Route.js]); [None] is the thrown ['Invalid stop numbers']. *)
Definition calculateFare (this : Route) (fromStopNumber toStopNumber : Q) : option Q :=
  match findStop this fromStopNumber, findStop this toStopNumber with
  | Some fromStop, Some toStop =>
    let distance :=
      (Qabs (estimatedTime toStop - estimatedTime fromStop) * (averageSpeed this / 60))%Q in
    Some (fareBase this + (distance * farePerKm this))%Q
  | _, _ => None
  end.

(** ** Notions used to state further properties *)

(** The stored documents that satisfy [P], sorted by predicted arrival:
    the result of a find and a sort before the limit. *)
Definition foundBy (P : Prediction → Prop) `{!∀ p, Decision (P p)}
    (ps : gmap ObjectId Prediction) : list (ObjectId * Prediction) :=
  merge_sort byArrival (filter (λ d, P d.2) (map_to_list ps)).

(** The accuracy that a report of [actual] gives the prediction [p]. *)
Definition scoreOf (p : Prediction) (actual : Z) : option Z :=
  (calculateAccuracy (set_actualArrivalTime actual p)).2.

(** The requests that the routes serve: [generate] and [reportActual]
    ([updatePrediction] has no caller in the repository). *)
Inductive routeStep : Db → Db → Prop :=
  | routeStep_generate clk db req :
      routeStep db (generate clk db req).2
  | routeStep_reportActual now db id actualArrivalTime :
      routeStep db (reportActual now db id actualArrivalTime).2.

(** A prediction is pending with neither an actual arrival nor an accuracy,
    or has arrived with both. *)
Definition lifecycleConsistent (p : Prediction) : Prop :=
  (status p = pending ∧ actualArrivalTime p = None ∧ predictionAccuracy p = None)
  ∨ (status p = arrived
     ∧ ∃ actual n, actualArrivalTime p = Some actual
                   ∧ predictionAccuracy p = Some n ∧ 0 ≤ n ≤ 100).

(** The stored accuracy is the one computed from the stored times. *)
Definition accuracyCurrent (p : Prediction) : Prop :=
  ∀ actual, actualArrivalTime p = Some actual → predictionAccuracy p = scoreOf p actual.

(** * Properties *)

(** ** Facts about JavaScript numbers and dates *)

Section JsFacts.
Local Open Scope Q_scope.

Lemma truncate_floor (x : Q) : 0 <= x → Js.truncate x = Qfloor x.
Proof.
  destruct x as [n d]. unfold Qle, Js.truncate, Qfloor. simpl.
  intros Hn. apply Z.quot_div_nonneg; lia.
Qed.

Lemma truncate_ceiling (x : Q) : x <= 0 → Js.truncate x = Qceiling x.
Proof.
  destruct x as [n d]. unfold Qle, Js.truncate, Qceiling, Qfloor. simpl.
  intros Hn. rewrite <- (Z.opp_involutive n) at 1.
  rewrite Z.quot_opp_l by lia. f_equal.
  apply Z.quot_div_nonneg; lia.
Qed.

#[global] Instance truncate_proper : Proper (Qeq ==> eq) Js.truncate.
Proof.
  intros x y Hxy. destruct (Qlt_le_dec x 0) as [Hneg | Hpos].
  - rewrite !truncate_ceiling by (rewrite <- ?Hxy; lra).
    by apply Qceiling_comp.
  - rewrite !truncate_floor by (rewrite <- ?Hxy; lra).
    by apply Qfloor_comp.
Qed.

Lemma truncate_inject_Z (z : Z) : Js.truncate (inject_Z z) = z.
Proof. unfold Js.truncate. simpl. apply Z.quot_1_r. Qed.

(** Truncation moves a number by less than one. *)
Lemma truncate_lower (x : Q) : x - 1 < inject_Z (Js.truncate x).
Proof.
  destruct (Qlt_le_dec x 0) as [Hneg | Hpos].
  - rewrite truncate_ceiling by lra. pose proof (Qle_ceiling x). lra.
  - rewrite truncate_floor by lra. pose proof (Qlt_floor x) as H.
    rewrite inject_Z_plus in H. change (inject_Z 1) with 1 in H. lra.
Qed.

Lemma truncate_upper (x : Q) : inject_Z (Js.truncate x) < x + 1.
Proof.
  destruct (Qlt_le_dec x 0) as [Hneg | Hpos].
  - rewrite truncate_ceiling by lra. pose proof (Qceiling_lt x) as H.
    unfold Z.sub in H. rewrite inject_Z_plus, inject_Z_opp in H.
    change (inject_Z 1) with 1 in H. lra.
  - rewrite truncate_floor by lra. pose proof (Qfloor_le x). lra.
Qed.

#[global] Instance newDate_proper : Proper (Qeq ==> eq) Js.newDate.
Proof.
  intros x y Hxy. unfold Js.newDate.
  rewrite (truncate_proper x y Hxy).
  assert (Qle_bool (Qabs x) (inject_Z Js.maxTime)
          = Qle_bool (Qabs y) (inject_Z Js.maxTime)) as ->; [|done].
  apply eq_true_iff_eq. rewrite !Qle_bool_iff. by rewrite Hxy.
Qed.

Lemma newDate_Some (x : Q) (t : Z) :
  Js.newDate x = Some t → t = Js.truncate x ∧ Qabs x <= inject_Z Js.maxTime.
Proof.
  unfold Js.newDate. destruct (Qle_bool _ _) eqn:Hr; [|done].
  apply Qle_bool_iff in Hr. by intros [= <-].
Qed.

Lemma newDate_inject_Z (z : Z) :
  (- Js.maxTime ≤ z ≤ Js.maxTime)%Z → Js.newDate (inject_Z z) = Some z.
Proof.
  intros Hz. unfold Js.newDate. rewrite truncate_inject_Z.
  assert (Qle_bool (Qabs (inject_Z z)) (inject_Z Js.maxTime) = true) as ->; [|done].
  apply Qle_bool_iff. apply Qabs_Qle_condition.
  rewrite <- inject_Z_opp, <- !Zle_Qle. lia.
Qed.

#[global] Instance arrivalDate_proper now : Proper (Qeq ==> eq) (arrivalDate now).
Proof. intros x y Hxy. unfold arrivalDate. by rewrite Hxy. Qed.

(** A date [d] or more milliseconds after [now], for [d >= 1], is
    strictly after [now]. *)
Lemma arrivalDate_later (now t : Z) (baseTime : Q) :
  arrivalDate now baseTime = Some t → 1 <= baseTime * 60 * 1000 → (now < t)%Z.
Proof.
  unfold arrivalDate. intros [-> _]%newDate_Some Hd.
  pose proof (truncate_lower (inject_Z now + baseTime * 60 * 1000)) as H.
  rewrite Zlt_Qlt. lra.
Qed.

(** Two dates whose numbers are two or more milliseconds apart are in
    the same strict order. *)
Lemma arrivalDate_lt (now t1 t2 : Z) (b1 b2 : Q) :
  arrivalDate now b1 = Some t1 → arrivalDate now b2 = Some t2 →
  2 <= (b2 - b1) * 60 * 1000 → (t1 < t2)%Z.
Proof.
  unfold arrivalDate. intros [-> _]%newDate_Some [-> _]%newDate_Some Hd.
  pose proof (truncate_upper (inject_Z now + b1 * 60 * 1000)).
  pose proof (truncate_lower (inject_Z now + b2 * 60 * 1000)).
  rewrite Zlt_Qlt. lra.
Qed.

End JsFacts.

(** ** Facts about the adjustment steps *)

Section Adjustments.
Local Open Scope Q_scope.

(** The traffic step multiplies by 1.5, 0.8 or 1. *)
Lemma adjustTraffic_bounds tc b :
  0 <= b → b * 0.8 <= adjustTraffic tc b <= b * 1.5.
Proof.
  intros Hb. unfold adjustTraffic.
  destruct (Js.strictEq tc "high"); [lra|].
  destruct (Js.strictEq tc "low"); lra.
Qed.

(** The weather step multiplies by 1.3 or 1. *)
Lemma adjustWeather_bounds wc b :
  0 <= b → b <= adjustWeather wc b <= b * 1.3.
Proof.
  intros Hb. unfold adjustWeather.
  destruct (Js.strictEq wc "rainy" || Js.strictEq wc "snowy"); lra.
Qed.

(** The time-of-day step multiplies by 1.2 or 1. *)
Lemma adjustTimeOfDay_bounds tod b :
  0 <= b → b <= adjustTimeOfDay tod b <= b * 1.2.
Proof.
  intros Hb. unfold adjustTimeOfDay.
  destruct (Js.strictEq tod "morning" || Js.strictEq tod "evening"); lra.
Qed.

Lemma gt0_true (speed : option Q) :
  Js.gt0 speed = true ↔ ∃ s, speed = Some s ∧ 0 < s.
Proof.
  unfold Js.gt0. destruct speed as [s|].
  - destruct (Qlt_le_dec 0 s); split; try done; eauto.
    intros (s' & [= <-] & Hs). lra.
  - split; [done | by intros (? & ? & ?)].
Qed.

Lemma gt0_false (speed : option Q) :
  Js.gt0 speed = false ↔ ∀ s, speed = Some s → s <= 0.
Proof.
  unfold Js.gt0. destruct speed as [s|].
  - destruct (Qlt_le_dec 0 s); split; try done.
    + intros H. specialize (H s eq_refl). lra.
    + by intros _ ? [= <-].
  - split; done.
Qed.

(** The guard [speed > 0] keeps the divisor away from zero: the quotient
    is always finite. *)
Lemma div_positive (a s : Q) : 0 < s → Js.div a s = Some (a / s).
Proof.
  intros Hs. unfold Js.div. destruct (Qeq_bool s 0) eqn:Hz; [|done].
  apply Qeq_bool_iff in Hz. lra.
Qed.

Lemma adjustSpeed_positive (s b : Q) :
  0 < s → adjustSpeed (Some s) b = Some (b * (30 / s)).
Proof.
  intros Hs. unfold adjustSpeed.
  assert (Js.gt0 (Some s) = true) as -> by (apply gt0_true; eauto).
  simpl. by rewrite div_positive.
Qed.

Lemma adjustSpeed_skip (speed : option Q) (b : Q) :
  Js.gt0 speed = false → adjustSpeed speed b = Some b.
Proof. intros H. unfold adjustSpeed. by rewrite H. Qed.

(** The speed step never fails, and keeps a positive time positive. *)
Lemma adjustSpeed_total (speed : option Q) (b : Q) :
  ∃ t, adjustSpeed speed b = Some t ∧ (0 < b → 0 < t).
Proof.
  destruct (Js.gt0 speed) eqn:Hg.
  - apply gt0_true in Hg as (s & -> & Hs).
    exists (b * (30 / s)). split; [by apply adjustSpeed_positive|].
    intros Hb. apply Qmult_lt_0_compat; [done|].
    apply Qlt_shift_div_l; lra.
  - exists b. split; [by apply adjustSpeed_skip | done].
Qed.

(** Within the schema's range of speeds the speed step divides by four
    at most. *)
Lemma adjustSpeed_lower (speed : option Q) (b t : Q) :
  adjustSpeed speed b = Some t → 0 <= b →
  (∀ s, speed = Some s → s <= 120) → b * (1 # 4) <= t.
Proof.
  intros Ht Hb Hmax. destruct (Js.gt0 speed) eqn:Hg.
  - apply gt0_true in Hg as (s & -> & Hs).
    rewrite adjustSpeed_positive in Ht by done. injection Ht as <-.
    specialize (Hmax s eq_refl).
    assert (1 # 4 <= 30 / s) by (apply Qle_shift_div_l; lra).
    nra.
  - rewrite adjustSpeed_skip in Ht by done. injection Ht as <-. lra.
Qed.

End Adjustments.

(** ** The generate handler and the time of day *)

(** C1.  The generate handler has no time-of-day step.  For base time 30,
    high traffic, rain and 15 km/h, requested in the morning, it computes
    30 * 1.5 * 1.3 * (30/15) = 117 minutes and stores [now + 7020000] ms,
    not the 140.4 minutes ([now + 8424000] ms) of the five-step rule;
    [updatePrediction], run on the stored document at the same instant
    with no new factors, applies the step and stores [now + 8424000]. *)
Theorem generate_omits_time_of_day :
  (∃ t, generateTravelTime Scenario.input = Some t ∧ (t == 117)%Q ∧ ¬ (t == 140.4)%Q)
  ∧ generate Scenario.clock Scenario.db Scenario.request
    = (Created 0%N Scenario.stored,
       set_predictions {[ 0%N := Scenario.stored ]} Scenario.db)
  ∧ timeOfDay (factors Scenario.stored) = "morning"
  ∧ predictedArrivalTime Scenario.stored = clock_now Scenario.clock + 7020000
  ∧ (∃ t, updateTravelTime 0 (factors Scenario.stored) = Some t ∧ (t == 140.4)%Q)
  ∧ predictedArrivalTime
      <$> updatePrediction (clock_now Scenario.clock) Scenario.noFactors Scenario.stored
    = Some (clock_now Scenario.clock + 8424000).
Proof.
  split_and!.
  - eexists. split; [reflexivity|]. split; [reflexivity|]. by intros [=].
  - vm_compute. reflexivity.
  - reflexivity.
  - reflexivity.
  - eexists. split; reflexivity.
  - vm_compute. reflexivity.
Qed.

(** ** The accuracy of a prediction *)

Section Accuracy.
Local Open Scope Q_scope.

Lemma Math_max_Qmax (a b : Q) : Js.Math_max a b == Qmax a b.
Proof.
  unfold Js.Math_max. destruct (Qlt_le_dec a b).
  - symmetry. apply Q.max_r. lra.
  - symmetry. by apply Q.max_l.
Qed.

Lemma Math_round_rounds_to (x : Q) : rounds_to x (Js.Math_round x).
Proof.
  unfold rounds_to, Js.Math_round.
  pose proof (Qfloor_le (x + (1 # 2))) as Hlo.
  pose proof (Qlt_floor (x + (1 # 2))) as Hhi.
  rewrite inject_Z_plus in Hhi. change (inject_Z 1) with 1 in Hhi.
  split; lra.
Qed.

Lemma Qabs_inject_Z_minus (p a : Z) :
  Qabs (inject_Z p - inject_Z a) == inject_Z (Z.abs (p - a)).
Proof.
  unfold Qminus. rewrite <- inject_Z_opp, <- inject_Z_plus. reflexivity.
Qed.

(** The source's expression and the specification's denote the same
    number. *)
Lemma accuracy_expression (p a : Z) :
  Js.Math_max 0 (100 - (inject_Z (Z.abs (p - a)) / (1000 * 60)) * 2)
  == reconcile_score p a.
Proof.
  unfold reconcile_score. rewrite Math_max_Qmax, Qabs_inject_Z_minus.
  apply Q.max_compat; [reflexivity|]. field.
Qed.

(** The rounded accuracy in integer arithmetic, for a difference of [d]
    milliseconds. *)
Lemma Math_round_accuracy (d : Z) :
  Js.Math_round (Js.Math_max 0 (100 - (inject_Z d / (1000 * 60)) * 2))
  = Z.max 0 ((3015000 - d) / 30000).
Proof.
  unfold Js.Math_round, Js.Math_max.
  assert (inject_Z d / (1000 * 60) == inject_Z d * (1 # 60000)) as Hdiv by field.
  destruct (Qlt_le_dec 0 (100 - inject_Z d / (1000 * 60) * 2)) as [Hpos | Hneg].
  - assert (d < 3000000)%Z as Hd.
    { rewrite Zlt_Qlt. change (inject_Z 3000000) with 3000000.
      rewrite Hdiv in Hpos. lra. }
    rewrite Z.max_r by (apply Z.div_pos; lia).
    rewrite Zdiv_Qdiv. apply Qfloor_comp.
    unfold Z.sub. rewrite inject_Z_plus, inject_Z_opp.
    change (inject_Z 3015000) with 3015000.
    change (inject_Z 30000) with 30000. field.
  - assert (3000000 <= d)%Z as Hd.
    { rewrite Zle_Qle. change (inject_Z 3000000) with 3000000.
      rewrite Hdiv in Hneg. lra. }
    rewrite Z.max_l; [reflexivity|].
    apply Z.lt_succ_r. apply Z.div_lt_upper_bound; lia.
Qed.

End Accuracy.

(** What [calculateAccuracy] stores and returns once the actual arrival
    is known. *)
Lemma calculateAccuracy_known (p : Prediction) (actual : Z) :
  actualArrivalTime p = Some actual →
  ∃ n : Z,
    calculateAccuracy p = (set_predictionAccuracy n p, Some n)
    ∧ rounds_to (reconcile_score (predictedArrivalTime p) actual) n
    ∧ n = Z.max 0 ((3015000 - Z.abs (predictedArrivalTime p - actual)) / 30000).
Proof.
  intros Hactual. unfold calculateAccuracy. rewrite Hactual. cbv zeta.
  eexists. split; [reflexivity|]. split.
  - unfold rounds_to. rewrite <- accuracy_expression. apply Math_round_rounds_to.
  - apply Math_round_accuracy.
Qed.

(** C2.  For a prediction whose actual arrival is known,
    [calculateAccuracy] stores and returns the integer [n] that is
    [max(0, 100 - 2 * |predicted - actual| / 60000)] rounded to the nearest
    integer.  It lies in [0, 100]; it is 100 for equal timestamps, 50 for a
    difference of 25 minutes and 0 for every difference of 50 minutes or
    more. *)
Theorem calculateAccuracy_reconcile (p : Prediction) (actual : Z) :
  actualArrivalTime p = Some actual →
  ∃ n : Z,
    calculateAccuracy p = (set_predictionAccuracy n p, Some n)
    ∧ rounds_to (reconcile_score (predictedArrivalTime p) actual) n
    ∧ 0 ≤ n ≤ 100
    ∧ (predictedArrivalTime p = actual → n = 100)
    ∧ (Z.abs (predictedArrivalTime p - actual) = 25 * 60000 → n = 50)
    ∧ (50 * 60000 ≤ Z.abs (predictedArrivalTime p - actual) → n = 0).
Proof.
  intros Hactual.
  destruct (calculateAccuracy_known p actual Hactual) as (n & Hcalc & Hround & Hn).
  exists n. split; [exact Hcalc|]. split; [exact Hround|].
  clear Hcalc Hround.
  pose proof (Z.abs_nonneg (predictedArrivalTime p - actual)) as Hd.
  assert (predictedArrivalTime p = actual → Z.abs (predictedArrivalTime p - actual) = 0)
    as Hsame by lia.
  set (d := Z.abs (predictedArrivalTime p - actual)) in *.
  assert ((3015000 - d) / 30000 ≤ 100) as Hquot
    by (apply Z.lt_succ_r, Z.div_lt_upper_bound; lia).
  split_and!.
  - lia.
  - lia.
  - intros Heq. rewrite (Hsame Heq) in Hn. exact Hn.
  - intros Hd25. rewrite Hd25 in Hn. exact Hn.
  - intros Hd50. rewrite Hn. apply Z.max_l.
    apply Z.lt_succ_r, Z.div_lt_upper_bound; lia.
Qed.

Lemma calculateAccuracy_reconcile_witness :
  ∃ n : Z,
    calculateAccuracy (set_actualArrivalTime 1700008520000 Scenario.stored)
    = (set_predictionAccuracy n (set_actualArrivalTime 1700008520000 Scenario.stored), Some n)
    ∧ n = 50.
Proof.
  destruct (calculateAccuracy_reconcile
              (set_actualArrivalTime 1700008520000 Scenario.stored) 1700008520000 eq_refl)
    as (n & Hcalc & _ & _ & _ & H25 & _).
  exists n. split; [exact Hcalc | apply H25; reflexivity].
Defined.

(** ** What a created document says about its request *)

Lemma generate_Created clk db req id p db' :
  generate clk db req = (Created id p, db') →
  generateErrors req = []
  ∧ (∃ b, generateTravelTime (req_factors req) = Some b
          ∧ arrivalDate (clock_now clk) b = Some (predictedArrivalTime p))
  ∧ schemaValid p = true
  ∧ currentSpeed (factors p) = default 0%Q (in_currentSpeed (req_factors req))
  ∧ createdAt p = clock_now clk
  ∧ status p = pending
  ∧ predictions db !! id = None
  ∧ db' = set_predictions (<[id := p]> (predictions db)) db.
Proof.
  unfold generate. destruct (generateErrors req); [|done].
  destruct (req_busId req ≫= _) as [bus|]; [|done].
  destruct (req_routeId req ≫= _); [|done].
  unfold create, newDocument, generateArrivalTime.
  destruct (req_busId req) as [b|]; simpl; [|done].
  destruct (req_routeId req) as [r|]; simpl; [|done].
  destruct (currentDriver bus) as [drv|]; simpl; [|done].
  destruct (req_stopId req) as [stop|]; simpl; [|done].
  destruct (generateTravelTime (req_factors req)) as [t|]; simpl; [|done].
  destruct (arrivalDate (clock_now clk) t) as [date|] eqn:Hdate; simpl; [|done].
  destruct (in_distanceToStop (req_factors req)) as [dist|]; simpl; [|done].
  destruct (schemaValid _) eqn:Hvalid; simpl; [|done].
  intros [= <- <- <-]. split_and!; try done.
  - by exists t.
  - apply (not_elem_of_dom (D := gset ObjectId)). apply is_fresh.
Qed.

Lemma schemaValid_speed p :
  schemaValid p = true → (0 <= currentSpeed (factors p) <= 120)%Q.
Proof.
  unfold schemaValid, factorsValid, inRange.
  rewrite !andb_true_iff, !Qle_bool_iff. tauto.
Qed.

Lemma save_Some now stored p p' :
  save now stored p = Some p'
  ↔ schemaValid p = true
    ∧ p' = (if isModified stored p then set_updatedAt now p else p).
Proof.
  unfold save. destruct (schemaValid p); split; try done.
  - by intros [= <-].
  - by intros [_ ->].
  - by intros [? _].
Qed.

Lemma set_updatedAt_same p : set_updatedAt (updatedAt p) p = p.
Proof. by destruct p. Qed.

(** A document whose [updatedAt] the caller has set to the clock reading is
    saved as it is. *)
Lemma save_stamped now stored p p' :
  updatedAt p = now →
  save now stored p = Some p' ↔ schemaValid p = true ∧ p' = p.
Proof.
  intros <-. rewrite save_Some, set_updatedAt_same.
  by destruct (isModified stored p).
Qed.

(** What a successful [updatePrediction] stores. *)
Lemma updatePrediction_Some now newFactors p p' :
  updatePrediction now newFactors p = Some p' →
  (∃ b, updateTravelTime (averageTravelTime p) (mergeFactors (factors p) newFactors) = Some b
        ∧ arrivalDate now b = Some (predictedArrivalTime p'))
  ∧ factors p' = mergeFactors (factors p) newFactors
  ∧ schemaValid p' = true
  ∧ status p' = status p.
Proof.
  unfold updatePrediction, updateArrivalTime. simpl.
  destruct (updateTravelTime _ _) as [b|]; simpl; [|done].
  destruct (arrivalDate now b) as [t|] eqn:Hdate; simpl; [|done].
  intros [Hvalid ->]%save_stamped; [|done]. split_and!; try done.
  by exists b.
Qed.

(** ** The travel time is positive *)

Section TravelTime.
Local Open Scope Q_scope.

Lemma baseTimeOf_positive avg : 0 <= avg → 0 < baseTimeOf avg.
Proof.
  intros Havg. unfold baseTimeOf, defaultBaseTime.
  destruct (Qeq_bool avg 0) eqn:Hz; [lra|].
  apply Qeq_bool_neq in Hz. destruct (Qlt_le_dec 0 avg); [done|].
  exfalso. apply Hz. lra.
Qed.

Lemma generateTravelTime_total f : ∃ t, generateTravelTime f = Some t ∧ 0 < t.
Proof.
  unfold generateTravelTime, defaultBaseTime.
  pose proof (adjustTraffic_bounds (in_trafficConditions f) 30) as Ht.
  pose proof (adjustWeather_bounds (in_weatherConditions f)
                (adjustTraffic (in_trafficConditions f) 30)) as Hw.
  destruct (adjustSpeed_total (in_currentSpeed f)
              (adjustWeather (in_weatherConditions f)
                 (adjustTraffic (in_trafficConditions f) 30))) as (t & -> & Hpos).
  exists t. split; [done|]. apply Hpos. lra.
Qed.

Lemma updateTravelTime_total avg f :
  0 <= avg → ∃ t, updateTravelTime avg f = Some t ∧ 0 < t.
Proof.
  intros Havg%baseTimeOf_positive. unfold updateTravelTime.
  set (b := baseTimeOf avg) in *.
  pose proof (adjustTraffic_bounds (Some (trafficConditions f)) b) as Ht.
  pose proof (adjustWeather_bounds (Some (weatherConditions f))
                (adjustTraffic (Some (trafficConditions f)) b)) as Hw.
  pose proof (adjustTimeOfDay_bounds (Some (timeOfDay f))
                (adjustWeather (Some (weatherConditions f))
                   (adjustTraffic (Some (trafficConditions f)) b))) as Hd.
  destruct (adjustSpeed_total (Some (currentSpeed f))
              (adjustTimeOfDay (Some (timeOfDay f))
                 (adjustWeather (Some (weatherConditions f))
                    (adjustTraffic (Some (trafficConditions f)) b))))
    as (t & -> & Hpos).
  exists t. split; [done|]. apply Hpos. lra.
Qed.

(** With a speed within the schema's range the generate handler predicts
    six minutes at least. *)
Lemma generateTravelTime_lower f t :
  generateTravelTime f = Some t →
  (∀ s, in_currentSpeed f = Some s → s <= 120) → 6 <= t.
Proof.
  unfold generateTravelTime, defaultBaseTime. intros Ht Hmax.
  pose proof (adjustTraffic_bounds (in_trafficConditions f) 30) as Hb.
  pose proof (adjustWeather_bounds (in_weatherConditions f)
                (adjustTraffic (in_trafficConditions f) 30)) as Hw.
  apply adjustSpeed_lower in Ht; [lra | lra | done].
Qed.

(** With a speed within the schema's range [updatePrediction] predicts
    a fifth of the base time at least. *)
Lemma updateTravelTime_lower avg f t :
  updateTravelTime avg f = Some t → 0 <= baseTimeOf avg →
  currentSpeed f <= 120 → baseTimeOf avg * (1 # 5) <= t.
Proof.
  unfold updateTravelTime. intros Ht Hbase Hmax.
  set (b := baseTimeOf avg) in *.
  pose proof (adjustTraffic_bounds (Some (trafficConditions f)) b) as Hb.
  pose proof (adjustWeather_bounds (Some (weatherConditions f))
                (adjustTraffic (Some (trafficConditions f)) b)) as Hw.
  pose proof (adjustTimeOfDay_bounds (Some (timeOfDay f))
                (adjustWeather (Some (weatherConditions f))
                   (adjustTraffic (Some (trafficConditions f)) b))) as Hd.
  apply adjustSpeed_lower in Ht; [lra | lra | by intros s [= <-]].
Qed.

End TravelTime.

(** C4.  The travel time that either computation yields is strictly
    positive, for every factor input (the valid ones included) and every
    non-negative stored average; a document that the generate handler
    stores has a predicted arrival strictly after its creation time, the
    [now] of the computation; and so has a document that
    [updatePrediction] saves when the base time is a minute or more. *)
Theorem predicted_arrival_in_future :
  (∀ f, ∃ t, generateTravelTime f = Some t ∧ (0 < t)%Q)
  ∧ (∀ avg f, (0 <= avg)%Q → ∃ t, updateTravelTime avg f = Some t ∧ (0 < t)%Q)
  ∧ (∀ clk db req id p db',
       generate clk db req = (Created id p, db') →
       createdAt p = clock_now clk ∧ createdAt p < predictedArrivalTime p)
  ∧ (∀ now newFactors p p',
       updatePrediction now newFactors p = Some p' →
       (1 <= baseTimeOf (averageTravelTime p))%Q →
       now < predictedArrivalTime p').
Proof.
  split_and!.
  - apply generateTravelTime_total.
  - apply updateTravelTime_total.
  - intros clk db req id p db' Hgen.
    apply generate_Created in Hgen
      as (_ & (b & Htime & Hdate) & Hvalid%schemaValid_speed & Hspeed & Hcreated & _).
    split; [done|]. rewrite Hcreated.
    apply (arrivalDate_later _ _ b); [done|].
    apply generateTravelTime_lower in Htime.
    + lra.
    + intros s Hs. rewrite Hspeed, Hs in Hvalid. simpl in Hvalid. lra.
  - intros now newFactors p p' Hupd Hbase.
    apply updatePrediction_Some in Hupd
      as ((b & Htime & Hdate) & Hfactors & Hvalid%schemaValid_speed & _).
    apply (arrivalDate_later _ _ b); [done|].
    apply updateTravelTime_lower in Htime.
    + lra.
    + lra.
    + rewrite <- Hfactors. lra.
Qed.

Lemma predicted_arrival_in_future_witness :
  (∃ t, updateTravelTime 0 (factors Scenario.stored) = Some t ∧ (0 < t)%Q)
  ∧ createdAt Scenario.stored < predictedArrivalTime Scenario.stored
  ∧ ∃ p', updatePrediction 1700000000000 Scenario.noFactors Scenario.stored = Some p'
          ∧ 1700000000000 < predictedArrivalTime p'.
Proof.
  destruct predicted_arrival_in_future as (_ & Hupdate & Hgenerate & Hsaved).
  split_and!.
  - apply Hupdate. vm_compute. discriminate.
  - eapply (Hgenerate Scenario.clock Scenario.db Scenario.request).
    vm_compute. reflexivity.
  - eexists. split; [vm_compute; reflexivity|].
    eapply (Hsaved _ Scenario.noFactors Scenario.stored).
    + vm_compute. reflexivity.
    + vm_compute. discriminate.
Defined.

(** ** Neutral factors *)

Section Neutral.
Local Open Scope Q_scope.

Lemma adjustSpeed_baseline (s b : Q) :
  s == 30 → ∃ t, adjustSpeed (Some s) b = Some t ∧ t == b.
Proof.
  intros Hs. exists (b * (30 / s)). split.
  - apply adjustSpeed_positive. lra.
  - rewrite Hs. field.
Qed.

(** A whole number of milliseconds after [now] is reached exactly. *)
Lemma arrivalDate_exact (now k : Z) (b : Q) :
  b * 60 * 1000 == inject_Z k →
  (- Js.maxTime ≤ now + k ≤ Js.maxTime)%Z →
  arrivalDate now b = Some (now + k)%Z.
Proof.
  intros Hk Hrange. unfold arrivalDate.
  rewrite Hk, <- inject_Z_plus. by apply newDate_inject_Z.
Qed.

End Neutral.

(** C3.  With medium traffic, clear weather, the afternoon and 30 km/h no
    step changes the accumulator: every multiplier is 1.  The generate
    handler, whose base time is the constant 30, computes 30 minutes and
    the date [now + 30 min]; [updatePrediction] computes, for every base
    time [b], [b] minutes and the date [now + b min].  That date is
    [now + k] ms exactly when [b] minutes are [k] whole milliseconds. *)
Theorem neutral_factors_keep_base_time :
  (∀ b : Q,
     adjustTraffic (Some "medium") b = b
     ∧ adjustWeather (Some "clear") b = b
     ∧ adjustTimeOfDay (Some "afternoon") b = b
     ∧ ∀ s, (s == 30)%Q → ∃ t, adjustSpeed (Some s) b = Some t ∧ (t == b)%Q)
  ∧ (∀ now f s,
       in_trafficConditions f = Some "medium" →
       in_weatherConditions f = Some "clear" →
       in_currentSpeed f = Some s → (s == 30)%Q →
       (∃ t, generateTravelTime f = Some t ∧ (t == 30)%Q)
       ∧ generateArrivalTime now f = arrivalDate now 30)
  ∧ (∀ now avg f,
       trafficConditions f = "medium" →
       weatherConditions f = "clear" →
       timeOfDay f = "afternoon" →
       (currentSpeed f == 30)%Q →
       (∃ t, updateTravelTime avg f = Some t ∧ (t == baseTimeOf avg)%Q)
       ∧ updateArrivalTime now avg f = arrivalDate now (baseTimeOf avg))
  ∧ (∀ now k b,
       (0 < b)%Q → (b * 60 * 1000 == inject_Z k)%Q →
       - Js.maxTime ≤ now + k ≤ Js.maxTime →
       arrivalDate now b = Some (now + k)).
Proof.
  split_and!.
  - intros b. split_and!; try reflexivity. intros s Hs. by apply adjustSpeed_baseline.
  - intros now f s Htc Hwc Hspeed Hs.
    unfold generateArrivalTime, generateTravelTime. rewrite Htc, Hwc, Hspeed.
    change (adjustWeather _ _) with defaultBaseTime.
    destruct (adjustSpeed_baseline s defaultBaseTime Hs) as (t & -> & Ht).
    split; [by exists t|]. simpl. by rewrite Ht.
  - intros now avg f Htc Hwc Htod Hs.
    unfold updateArrivalTime, updateTravelTime. rewrite Htc, Hwc, Htod.
    change (adjustTimeOfDay _ _) with (baseTimeOf avg).
    destruct (adjustSpeed_baseline (currentSpeed f) (baseTimeOf avg) Hs) as (t & -> & Ht).
    split; [by exists t|]. simpl. by rewrite Ht.
  - intros now k b _. apply arrivalDate_exact.
Qed.

Lemma neutral_factors_keep_base_time_witness :
  generateArrivalTime 1700000000000
    (with_currentSpeed (Some 30%Q)
       (with_trafficConditions "medium"
          {| in_trafficConditions := None; in_weatherConditions := Some "clear";
             in_timeOfDay := None; in_dayOfWeek := None; in_currentSpeed := None;
             in_distanceToStop := Some 2%Q; in_numberOfStops := None;
             in_passengerLoad := None; in_fuelLevel := None;
             in_temperature := None |}))
  = Some (1700000000000 + 1800000)
  ∧ updateArrivalTime 1700000000000 45
      (set_trafficConditions "medium"
         {| trafficConditions := "high"; weatherConditions := "clear";
            timeOfDay := "afternoon"; dayOfWeek := "wednesday";
            currentSpeed := 30; distanceToStop := 2; numberOfStops := 0;
            passengerLoad := 0; fuelLevel := 100; temperature := 25 |})
    = Some (1700000000000 + 2700000).
Proof.
  destruct neutral_factors_keep_base_time as (_ & Hgenerate & Hupdate & Hexact).
  split.
  - etrans.
    + eapply Hgenerate; reflexivity.
    + apply Hexact; [reflexivity | reflexivity | vm_compute; split; discriminate].
  - etrans.
    + eapply Hupdate; reflexivity.
    + apply Hexact; [reflexivity | reflexivity | vm_compute; split; discriminate].
Defined.

(** ** Requests that the generate handler accepts *)

Lemma generateErrors_nil req :
  generateErrors req = [] →
  is_Some (req_busId req) ∧ is_Some (req_routeId req)
  ∧ (∃ stop, req_stopId req = Some stop ∧ 1 ≤ stop)
  ∧ (∃ c, req_coordinates req = Some c ∧ length c = 2%nat)
  ∧ isIn trafficEnum (in_trafficConditions (req_factors req)) = true
  ∧ isIn weatherEnum (in_weatherConditions (req_factors req)) = true
  ∧ (∃ d, in_distanceToStop (req_factors req) = Some d ∧ (0 <= d)%Q).
Proof.
  unfold generateErrors, check. intros H.
  repeat match type of H with
         | (if ?b then _ else _) ++ _ = [] => destruct b eqn:?; [simpl in H | done]
         | (if ?b then _ else _) = [] => destruct b eqn:?; [clear H | done]
         end.
  repeat match goal with
         | H : bool_decide _ = true |- _ => apply bool_decide_eq_true in H
         end.
  split_and!; try done.
  - destruct (req_stopId req) as [stop|]; [|done]. exists stop. split; [done|].
    by apply Z.leb_le.
  - destruct (req_coordinates req) as [c|]; [|done]. exists c. split; [done|].
    simpl in *. by eapply bool_decide_eq_true_1.
  - destruct (in_distanceToStop (req_factors req)) as [d|]; [|done].
    exists d. split; [done|]. by apply Qle_bool_iff.
Qed.

Lemma getTimeOfDay_enum clk : inEnum timeOfDayEnum (getTimeOfDay clk) = true.
Proof.
  unfold getTimeOfDay.
  repeat (destruct (_ && _); [reflexivity|]). reflexivity.
Qed.

Lemma getDayOfWeek_enum clk :
  inEnum dayOfWeekEnum (default "monday"%string (getDayOfWeek clk)) = true.
Proof.
  unfold getDayOfWeek.
  destruct (clock_day clk) as [|[|[|[|[|[|[|n]]]]]]]; reflexivity.
Qed.

(** A validated request for an existing bus with a driver and an existing
    route is stored, provided that the unvalidated numeric factors fit the
    schema and the predicted date is valid. *)
Lemma generate_succeeds clk db req b bus drv r :
  generateErrors req = [] →
  req_busId req = Some b → buses db !! b = Some bus → currentDriver bus = Some drv →
  req_routeId req = Some r → r ∈ routes db →
  optionalFactorsValid (req_factors req) = true →
  from_option (inRange 0 120) true (in_currentSpeed (req_factors req)) = true →
  is_Some (generateArrivalTime (clock_now clk) (req_factors req)) →
  ∃ id p, generate clk db req
          = (Created id p, set_predictions (<[id := p]> (predictions db)) db).
Proof.
  intros Hnil Hb Hbus Hdrv Hr Hroute Hopt Hspeed [t Ht].
  pose proof (generateErrors_nil req Hnil)
    as (_ & _ & (stop & Hstop & _) & _ & Htc & Hwc & (d & Hd & Hd0)).
  unfold generate. rewrite Hnil, Hb, Hr. simpl. rewrite Hbus.
  rewrite decide_True by done.
  unfold create, newDocument. simpl. rewrite Hdrv, Hstop, Ht, Hd. simpl.
  match goal with |- context [schemaValid ?p] =>
    assert (schemaValid p = true) as ->
  end; [|by eauto].
  unfold schemaValid, factorsValid, stampFactors.
  cbn [factors predictionAccuracy accuracyValid trafficConditions weatherConditions
       timeOfDay dayOfWeek currentSpeed distanceToStop numberOfStops passengerLoad
       fuelLevel in_trafficConditions in_weatherConditions in_timeOfDay
       in_dayOfWeek in_currentSpeed in_distanceToStop in_numberOfStops
       in_passengerLoad in_fuelLevel].
  change (default "morning"%string (Some (getTimeOfDay clk))) with (getTimeOfDay clk).
  rewrite getTimeOfDay_enum, getDayOfWeek_enum.
  unfold optionalFactorsValid in Hopt. rewrite !andb_true_iff in Hopt.
  destruct Hopt as [[Hstops Hload] Hfuel].
  rewrite !andb_true_iff. split_and!; try done.
  - by destruct (in_trafficConditions (req_factors req)).
  - by destruct (in_weatherConditions (req_factors req)).
  - by destruct (in_currentSpeed (req_factors req)).
  - by apply Qle_bool_iff.
  - by destruct (in_numberOfStops (req_factors req)).
  - by destruct (in_passengerLoad (req_factors req)).
  - by destruct (in_fuelLevel (req_factors req)).
Qed.

(** ** A speed of zero *)

Section ZeroSpeed.
Local Open Scope Q_scope.

Lemma gt0_zero (s : Q) : s == 0 → Js.gt0 (Some s) = false.
Proof. intros Hs. apply gt0_false. intros ? [= <-]. lra. Qed.

(** Without the speed step the generate handler predicts between 24 and
    58.5 minutes. *)
Lemma generate_base_range f :
  24 <= adjustWeather (in_weatherConditions f)
          (adjustTraffic (in_trafficConditions f) defaultBaseTime) <= 58.5.
Proof.
  unfold defaultBaseTime.
  pose proof (adjustTraffic_bounds (in_trafficConditions f) 30) as Ht.
  pose proof (adjustWeather_bounds (in_weatherConditions f)
                (adjustTraffic (in_trafficConditions f) 30)) as Hw.
  lra.
Qed.

Lemma arrivalDate_in_range (now : Z) (b : Q) :
  0 <= b → b * 60 * 1000 <= inject_Z 3510000 →
  (- Js.maxTime ≤ now ≤ Js.maxTime - 3510000)%Z →
  is_Some (arrivalDate now b).
Proof.
  intros Hb Hmax [Hlo Hhi]. unfold arrivalDate, Js.newDate.
  assert (Qle_bool (Qabs (inject_Z now + b * 60 * 1000)) (inject_Z Js.maxTime) = true)
    as ->; [|by eauto].
  apply Qle_bool_iff, Qabs_Qle_condition.
  rewrite Zle_Qle in Hlo, Hhi. unfold Z.sub in Hhi.
  rewrite inject_Z_plus in Hhi. rewrite !inject_Z_opp in *.
  split; lra.
Qed.

End ZeroSpeed.

(** C5.  A current speed of zero is not divided by: the speed step returns
    the accumulator unchanged (a multiplier of 1), although the quotient
    [30 / 0] itself would not be a finite number.  Both computations then
    give the result of the remaining steps alone, and the generate handler
    stores the prediction of a validated request for an existing bus with
    a driver and an existing route: a speed of zero is no error. *)
Theorem zero_speed_skips_adjustment :
  Js.div 30 0 = None
  ∧ (∀ s b, (s == 0)%Q → adjustSpeed (Some s) b = Some b)
  ∧ (∀ f s,
       in_currentSpeed f = Some s → (s == 0)%Q →
       generateTravelTime f
       = Some (adjustWeather (in_weatherConditions f)
                 (adjustTraffic (in_trafficConditions f) defaultBaseTime)))
  ∧ (∀ avg f,
       (currentSpeed f == 0)%Q →
       updateTravelTime avg f
       = Some (adjustTimeOfDay (Some (timeOfDay f))
                 (adjustWeather (Some (weatherConditions f))
                    (adjustTraffic (Some (trafficConditions f)) (baseTimeOf avg)))))
  ∧ (∀ clk db req b bus drv r s,
       in_currentSpeed (req_factors req) = Some s → (s == 0)%Q →
       generateErrors req = [] →
       req_busId req = Some b → buses db !! b = Some bus →
       currentDriver bus = Some drv →
       req_routeId req = Some r → r ∈ routes db →
       optionalFactorsValid (req_factors req) = true →
       - Js.maxTime ≤ clock_now clk ≤ Js.maxTime - 3510000 →
       ∃ id p, generate clk db req
               = (Created id p, set_predictions (<[id := p]> (predictions db)) db)).
Proof.
  split_and!.
  - reflexivity.
  - intros s b Hs. by apply adjustSpeed_skip, gt0_zero.
  - intros f s Hspeed Hs. unfold generateTravelTime. rewrite Hspeed.
    by apply adjustSpeed_skip, gt0_zero.
  - intros avg f Hs. unfold updateTravelTime.
    by apply adjustSpeed_skip, gt0_zero.
  - intros clk db req b bus drv r s Hspeed Hs Hnil Hb Hbus Hdrv Hr Hroute Hopt Hnow.
    eapply generate_succeeds; try done.
    + rewrite Hspeed. simpl. unfold inRange.
      rewrite andb_true_iff, !Qle_bool_iff. lra.
    + unfold generateArrivalTime, generateTravelTime. rewrite Hspeed.
      rewrite adjustSpeed_skip by by apply gt0_zero. simpl.
      pose proof (generate_base_range (req_factors req)) as Hrange.
      apply arrivalDate_in_range; [lra | | done].
      change (inject_Z 3510000) with 3510000%Q. lra.
Qed.

Lemma zero_speed_skips_adjustment_witness :
  generateTravelTime (with_currentSpeed (Some 0%Q) Scenario.input)
  = Some (adjustWeather (Some "rainy"%string)
            (adjustTraffic (Some "high"%string) defaultBaseTime))
  ∧ ∃ id p,
      generate Scenario.clock Scenario.db
        (with_factors (with_currentSpeed (Some 0%Q) Scenario.input) Scenario.request)
      = (Created id p, set_predictions (<[id := p]> ∅) Scenario.db).
Proof.
  destruct zero_speed_skips_adjustment as (_ & _ & Htime & _ & Hgenerate).
  split.
  - apply (Htime (with_currentSpeed (Some 0%Q) Scenario.input) 0%Q); reflexivity.
  - apply (Hgenerate Scenario.clock Scenario.db _ 1%N
             {| currentDriver := Some 7%N |} 7%N 2%N 0%Q); try reflexivity.
    vm_compute. split; discriminate.
Defined.

(** ** Traffic and the predicted time *)

Section Traffic.
Local Open Scope Q_scope.

(** The steps after the traffic step keep the order of two accumulators,
    and within the schema's range of speeds keep a quarter of their
    distance. *)
Lemma later_steps_monotone (wc tod : option string) (speed : option Q)
    (x y tx ty : Q) :
  0 <= x → x <= y →
  adjustSpeed speed (adjustTimeOfDay tod (adjustWeather wc x)) = Some tx →
  adjustSpeed speed (adjustTimeOfDay tod (adjustWeather wc y)) = Some ty →
  (x < y → tx < ty)
  ∧ ((∀ s, speed = Some s → s <= 120) → (y - x) * (1 # 4) <= ty - tx).
Proof.
  intros Hx Hxy Htx Hty.
  assert (∃ k, adjustTimeOfDay tod (adjustWeather wc x) == x * k
               ∧ adjustTimeOfDay tod (adjustWeather wc y) == y * k ∧ 1 <= k)
    as (k & Hkx & Hky & Hk).
  { unfold adjustTimeOfDay, adjustWeather.
    destruct (_ || _), (_ || _); cbv beta iota.
    - exists (1.3 * 1.2). split_and!; lra.
    - exists 1.2. split_and!; lra.
    - exists 1.3. split_and!; lra.
    - exists 1. split_and!; lra. }
  destruct (Js.gt0 speed) eqn:Hg.
  - apply gt0_true in Hg as (s & -> & Hs).
    rewrite adjustSpeed_positive in Htx, Hty by done.
    injection Htx as <-. injection Hty as <-.
    assert (0 < 30 / s) as Hf by (apply Qlt_shift_div_l; lra).
    assert (s <= 120 → 1 # 4 <= 30 / s) as Hquarter
      by (intros; apply Qle_shift_div_l; lra).
    rewrite Hkx, Hky. set (f := 30 / s) in *.
    assert (0 < k * f) as Hc by (apply Qmult_lt_0_compat; lra).
    assert (f <= k * f) as Hkf by nra.
    assert (x * k * f == x * (k * f)) as -> by ring.
    assert (y * k * f == y * (k * f)) as -> by ring.
    set (c := k * f) in *. split.
    + intros Hlt. by apply Qmult_lt_compat_r.
    + intros Hmax. specialize (Hquarter (Hmax s eq_refl)). nra.
  - rewrite adjustSpeed_skip in Htx, Hty by done.
    injection Htx as <-. injection Hty as <-.
    rewrite Hkx, Hky. split; intros; nra.
Qed.

End Traffic.

(** C6.  With the base time and every other factor fixed, high traffic
    gives a strictly longer travel time than low traffic in both
    computations, and a strictly later stored arrival time: for two
    documents that the generate handler stores, and for two documents that
    [updatePrediction] saves when the base time is a minute or more. *)
Theorem high_traffic_is_later :
  (∀ f, ∃ t_lo t_hi,
       generateTravelTime (with_trafficConditions "low" f) = Some t_lo
       ∧ generateTravelTime (with_trafficConditions "high" f) = Some t_hi
       ∧ (t_lo < t_hi)%Q)
  ∧ (∀ avg f, (0 <= avg)%Q →
       ∃ t_lo t_hi,
         updateTravelTime avg (set_trafficConditions "low" f) = Some t_lo
         ∧ updateTravelTime avg (set_trafficConditions "high" f) = Some t_hi
         ∧ (t_lo < t_hi)%Q)
  ∧ (∀ clk db req f id_lo p_lo db_lo id_hi p_hi db_hi,
       generate clk db (with_factors (with_trafficConditions "low" f) req)
       = (Created id_lo p_lo, db_lo) →
       generate clk db (with_factors (with_trafficConditions "high" f) req)
       = (Created id_hi p_hi, db_hi) →
       predictedArrivalTime p_lo < predictedArrivalTime p_hi)
  ∧ (∀ now newFactors p p_lo p_hi,
       updatePrediction now (with_trafficConditions "low" newFactors) p = Some p_lo →
       updatePrediction now (with_trafficConditions "high" newFactors) p = Some p_hi →
       (1 <= baseTimeOf (averageTravelTime p))%Q →
       predictedArrivalTime p_lo < predictedArrivalTime p_hi).
Proof.
  split_and!.
  - intros f.
    destruct (generateTravelTime_total (with_trafficConditions "low" f)) as (t_lo & Hlo & _).
    destruct (generateTravelTime_total (with_trafficConditions "high" f)) as (t_hi & Hhi & _).
    exists t_lo, t_hi. split_and!; [done | done |].
    unfold generateTravelTime, defaultBaseTime in Hlo, Hhi.
    eapply (later_steps_monotone _ None _ (30 * 0.8) (30 * 1.5)); [| | exact Hlo | exact Hhi |]; lra.
  - intros avg f Havg.
    destruct (updateTravelTime_total avg (set_trafficConditions "low" f) Havg)
      as (t_lo & Hlo & _).
    destruct (updateTravelTime_total avg (set_trafficConditions "high" f) Havg)
      as (t_hi & Hhi & _).
    exists t_lo, t_hi. split_and!; [done | done |].
    apply baseTimeOf_positive in Havg.
    unfold updateTravelTime in Hlo, Hhi.
    eapply (later_steps_monotone _ _ _ (baseTimeOf avg * 0.8) (baseTimeOf avg * 1.5));
      [| | exact Hlo | exact Hhi |]; lra.
  - intros clk db req f id_lo p_lo db_lo id_hi p_hi db_hi Hlo Hhi.
    apply generate_Created in Hlo
      as (_ & (b_lo & Htlo & Hdlo) & Hvalid%schemaValid_speed & Hspeed & _).
    apply generate_Created in Hhi as (_ & (b_hi & Hthi & Hdhi) & _).
    apply (arrivalDate_lt (clock_now clk) _ _ b_lo b_hi); [done | done |].
    unfold generateTravelTime, defaultBaseTime in Htlo, Hthi.
    destruct (later_steps_monotone _ None _ (30 * 0.8)%Q (30 * 1.5)%Q _ _
                ltac:(lra) ltac:(lra) Htlo Hthi) as [_ Hgap].
    assert (((30 * 1.5 - 30 * 0.8) * (1 # 4) <= b_hi - b_lo)%Q) as Hquarter.
    { apply Hgap. intros s Hs. simpl in Hspeed, Hs.
      rewrite Hspeed, Hs in Hvalid. simpl in Hvalid. lra. }
    lra.
  - intros now newFactors p p_lo p_hi Hlo Hhi Hbase.
    apply updatePrediction_Some in Hlo
      as ((b_lo & Htlo & Hdlo) & Hfactors & Hvalid%schemaValid_speed & _).
    apply updatePrediction_Some in Hhi as ((b_hi & Hthi & Hdhi) & _).
    apply (arrivalDate_lt now _ _ b_lo b_hi); [done | done |].
    unfold updateTravelTime in Htlo, Hthi.
    set (b := baseTimeOf (averageTravelTime p)) in *.
    destruct (later_steps_monotone _ _ _ (b * 0.8)%Q (b * 1.5)%Q _ _
                ltac:(lra) ltac:(lra) Htlo Hthi) as [_ Hgap].
    assert (((b * 1.5 - b * 0.8) * (1 # 4) <= b_hi - b_lo)%Q) as Hquarter.
    { apply Hgap. intros s [= <-]. rewrite Hfactors in Hvalid. apply Hvalid. }
    lra.
Qed.

Lemma high_traffic_is_later_witness :
  ∃ p_lo p_hi db_lo db_hi,
    generate Scenario.clock Scenario.db
      (with_factors (with_trafficConditions "low" Scenario.input) Scenario.request)
    = (Created 0%N p_lo, db_lo)
    ∧ generate Scenario.clock Scenario.db
        (with_factors (with_trafficConditions "high" Scenario.input) Scenario.request)
      = (Created 0%N p_hi, db_hi)
    ∧ predictedArrivalTime p_lo < predictedArrivalTime p_hi
    ∧ ∃ q_lo q_hi,
        updatePrediction 1700000000000
          (with_trafficConditions "low" Scenario.noFactors) Scenario.stored = Some q_lo
        ∧ updatePrediction 1700000000000
            (with_trafficConditions "high" Scenario.noFactors) Scenario.stored = Some q_hi
        ∧ predictedArrivalTime q_lo < predictedArrivalTime q_hi.
Proof.
  destruct high_traffic_is_later as (_ & _ & Hgenerate & Hupdate).
  do 4 eexists. split_and!.
  - vm_compute. reflexivity.
  - vm_compute. reflexivity.
  - eapply (Hgenerate Scenario.clock Scenario.db Scenario.request Scenario.input);
      vm_compute; reflexivity.
  - do 2 eexists. split_and!.
    + vm_compute. reflexivity.
    + vm_compute. reflexivity.
    + eapply (Hupdate 1700000000000 Scenario.noFactors Scenario.stored).
      * vm_compute. reflexivity.
      * vm_compute. reflexivity.
      * vm_compute. discriminate.
Defined.

(** ** The current speed of a request *)

(** C10.  No validator of the generate route looks at
    [factors.currentSpeed]: the validation result is the same whatever the
    speed, present or not.  A speed that is missing, zero or negative is
    not greater than zero, so the speed step is skipped and the travel
    time and the predicted date are those of a speed of zero.  (A negative
    speed is refused later, by the schema, when the document is created.) *)
Theorem currentSpeed_is_not_validated :
  (∀ req speed,
     generateErrors (with_factors (with_currentSpeed speed (req_factors req)) req)
     = generateErrors req)
  ∧ (∀ now f speed,
       (∀ s, speed = Some s → (s <= 0)%Q) →
       generateTravelTime (with_currentSpeed speed f)
       = generateTravelTime (with_currentSpeed (Some 0%Q) f)
       ∧ generateArrivalTime now (with_currentSpeed speed f)
         = generateArrivalTime now (with_currentSpeed (Some 0%Q) f))
  ∧ (∀ clk db req s id p db',
       in_currentSpeed (req_factors req) = Some s → (s < 0)%Q →
       generate clk db req ≠ (Created id p, db')).
Proof.
  split_and!.
  - reflexivity.
  - intros now f speed Hspeed.
    assert (generateTravelTime (with_currentSpeed speed f)
            = generateTravelTime (with_currentSpeed (Some 0%Q) f)) as Heq.
    { unfold generateTravelTime. simpl.
      rewrite !adjustSpeed_skip; [done | done | by apply gt0_false]. }
    split; [done|]. unfold generateArrivalTime. by rewrite Heq.
  - intros clk db req s id p db' Hspeed Hneg Hgen.
    apply generate_Created in Hgen as (_ & _ & Hvalid%schemaValid_speed & Hs & _).
    rewrite Hs, Hspeed in Hvalid. simpl in Hvalid. lra.
Qed.

Lemma currentSpeed_is_not_validated_witness :
  generateArrivalTime 1700000000000 (with_currentSpeed (Some (-5)%Q) Scenario.input)
  = generateArrivalTime 1700000000000 (with_currentSpeed (Some 0%Q) Scenario.input)
  ∧ generateArrivalTime 1700000000000 (with_currentSpeed None Scenario.input)
    = generateArrivalTime 1700000000000 (with_currentSpeed (Some 0%Q) Scenario.input)
  ∧ (generate Scenario.clock Scenario.db
       (with_factors (with_currentSpeed (Some (-5)%Q) Scenario.input) Scenario.request)).1
    = ServerError.
Proof.
  destruct currentSpeed_is_not_validated as (_ & Hskip & Hrefused).
  split_and!.
  - apply Hskip. intros s [= <-]. vm_compute. discriminate.
  - apply Hskip. intros s [=].
  - destruct (generate Scenario.clock Scenario.db _) as [response db'] eqn:Hgen.
    destruct response as [id p| | | |].
    + exfalso. eapply (Hrefused _ _ _ (-5)%Q); [| |exact Hgen]; [reflexivity|].
      vm_compute. reflexivity.
    + vm_compute in Hgen. discriminate.
    + vm_compute in Hgen. discriminate.
    + vm_compute in Hgen. discriminate.
    + reflexivity.
Defined.

(** ** Reporting the actual arrival *)

Lemma Math_round_accuracy_range (d : Z) :
  0 ≤ Js.Math_round (Js.Math_max 0 (100 - (inject_Z (Z.abs d) / (1000 * 60)) * 2)) ≤ 100.
Proof.
  rewrite Math_round_accuracy. pose proof (Z.abs_nonneg d). split; [lia|].
  apply Z.max_lub; [lia|]. apply Z.lt_succ_r, Z.div_lt_upper_bound; lia.
Qed.

(** What a report of [actual] computes and saves for the stored document
    [p]. *)
Lemma report_saved p actual :
  schemaValid p = true →
  ∃ n,
    calculateAccuracy (set_status arrived (set_actualArrivalTime actual p))
    = (set_predictionAccuracy n (set_status arrived (set_actualArrivalTime actual p)),
       Some n)
    ∧ rounds_to (reconcile_score (predictedArrivalTime p) actual) n
    ∧ n = Z.max 0 ((3015000 - Z.abs (predictedArrivalTime p - actual)) / 30000)
    ∧ schemaValid
        (set_predictionAccuracy n (set_status arrived (set_actualArrivalTime actual p)))
      = true.
Proof.
  intros Hvalid.
  destruct (calculateAccuracy_known
              (set_status arrived (set_actualArrivalTime actual p)) actual eq_refl)
    as (n & Hcalc & Hround & Hn).
  exists n. split_and!; [exact Hcalc | exact Hround | exact Hn |].
  assert (0 ≤ n ≤ 100) as Hrange.
  { rewrite Hn. simpl. pose proof (Z.abs_nonneg (predictedArrivalTime p - actual)).
    split; [lia|]. apply Z.max_lub; [lia|].
    apply Z.lt_succ_r, Z.div_lt_upper_bound; lia. }
  unfold schemaValid in *. apply andb_true_iff in Hvalid as [Hf _].
  apply andb_true_iff. split; [exact Hf|]. simpl.
  apply andb_true_iff. split; [apply Z.leb_le | apply Z.leb_le]; lia.
Qed.

(** The answer to a report of a time that parses, for a stored document
    [p]. *)
Lemma reportActual_found now db id p actual :
  predictions db !! id = Some p → schemaValid p = true →
  ∃ p' n,
    reportActual now db (WellFormed id) (ISO8601 (Some actual))
    = (Updated id p', set_predictions (<[id := p']> (predictions db)) db)
    ∧ save now p
        (set_predictionAccuracy n (set_status arrived (set_actualArrivalTime actual p)))
      = Some p'
    ∧ rounds_to (reconcile_score (predictedArrivalTime p) actual) n
    ∧ n = Z.max 0 ((3015000 - Z.abs (predictedArrivalTime p - actual)) / 30000)
    ∧ schemaValid p' = true.
Proof.
  intros Hp Hvalid.
  destruct (report_saved p actual Hvalid) as (n & Hcalc & Hround & Hn & Hq).
  unfold reportActual, findById. rewrite Hp. cbn [fmap option_fmap option_map].
  rewrite Hcalc. cbn [fst].
  destruct (save now p _) as [p'|] eqn:Hsave.
  - exists p', n. split_and!; try done.
    apply save_Some in Hsave as [_ ->]. by destruct (isModified _ _).
  - unfold save in Hsave. by rewrite Hq in Hsave.
Qed.

(** The fields that a save leaves alone. *)
Lemma save_fields now stored q p' :
  save now stored q = Some p' →
  busId p' = busId q ∧ routeId p' = routeId q ∧ driverId p' = driverId q
  ∧ stopId p' = stopId q ∧ coordinates p' = coordinates q
  ∧ predictedArrivalTime p' = predictedArrivalTime q
  ∧ actualArrivalTime p' = actualArrivalTime q
  ∧ predictionAccuracy p' = predictionAccuracy q
  ∧ factors p' = factors q ∧ averageTravelTime p' = averageTravelTime q
  ∧ status p' = status q ∧ createdAt p' = createdAt q.
Proof.
  intros [_ ->]%save_Some. by destruct (isModified _ _).
Qed.

(** A save that changes a path sets [updatedAt]. *)
Lemma save_modified now stored q p' :
  save now stored q = Some p' → q ≠ stored → p' = set_updatedAt now q.
Proof.
  intros [_ ->]%save_Some Hne. unfold isModified.
  by rewrite bool_decide_eq_false_2.
Qed.

(** A report either leaves the database as it is, or it saves the document
    of a stored prediction under its id. *)
Lemma reportActual_cases now db id body :
  (reportActual now db id body).2 = db
  ∨ ∃ i p actual saved,
      id = WellFormed i ∧ body = ISO8601 (Some actual)
      ∧ predictions db !! i = Some p
      ∧ save now p (calculateAccuracy (set_status arrived (set_actualArrivalTime actual p))).1
        = Some saved
      ∧ reportActual now db id body
        = (Updated i saved, set_predictions (<[i := saved]> (predictions db)) db).
Proof.
  unfold reportActual, findById.
  destruct body as [|[actual|]], id as [i|]; try (by left).
  - destruct (predictions db !! i) as [p|] eqn:Hp; [|by left].
    cbn [fmap option_fmap option_map].
    destruct (save _ _ _) as [saved|] eqn:Hsave; [|by left].
    right. by exists i, p, actual, saved.
  - destruct (predictions db !! i) as [p|] eqn:Hp; by left.
Qed.

(** The request and the stored document behind an answer [Updated]. *)
Lemma reportActual_Updated now db id body i p' db' :
  reportActual now db id body = (Updated i p', db') →
  ∃ p actual,
    id = WellFormed i ∧ body = ISO8601 (Some actual)
    ∧ predictions db !! i = Some p
    ∧ save now p (calculateAccuracy (set_status arrived (set_actualArrivalTime actual p))).1
      = Some p'
    ∧ db' = set_predictions (<[i := p']> (predictions db)) db.
Proof.
  unfold reportActual, findById.
  destruct body as [|[actual|]], id as [j|]; try done.
  - destruct (predictions db !! j) as [p|] eqn:Hp; [|done].
    cbn [fmap option_fmap option_map].
    destruct (save _ _ _) as [saved|] eqn:Hsave; [|done].
    intros [= <- <- <-]. by exists p, actual.
  - by destruct (predictions db !! j).
Qed.

Lemma allValid_insert db i q :
  allValid db → schemaValid q = true →
  allValid (set_predictions (<[i := q]> (predictions db)) db).
Proof.
  intros Hdb Hq id p. simpl. destruct (decide (i = id)) as [-> | Hne].
  - rewrite lookup_insert_eq. by intros [= <-].
  - rewrite lookup_insert_ne by done. apply Hdb.
Qed.

(** The operations store valid documents only. *)
Lemma step_allValid db db' : step db db' → allValid db → allValid db'.
Proof.
  intros Hstep Hdb. destruct Hstep as [clk db req | now db i body | now db i newFactors].
  - destruct (generate clk db req) as [response db'] eqn:Hgen. simpl.
    destruct response as [id p| | | |].
    2-5: (unfold generate in Hgen; repeat case_match; by simplify_eq).
    apply generate_Created in Hgen as (_ & _ & Hvalid & _ & _ & _ & _ & ->).
    by apply allValid_insert.
  - destruct (reportActual_cases now db i body)
      as [-> | (id & p & actual & saved & _ & _ & _ & Hsave & ->)]; [done|].
    apply allValid_insert; [done|].
    apply save_Some in Hsave as [Hvalid ->]. by destruct (isModified _ _).
  - unfold updatePredictionOf.
    destruct (predictions db !! i) as [p|] eqn:Hp; simpl; [|done].
    destruct (updatePrediction now newFactors p) as [saved|] eqn:Hupd; [|done].
    apply updatePrediction_Some in Hupd as (_ & _ & Hvalid & _).
    by apply allValid_insert.
Qed.

Lemma reachable_allValid db db' :
  predictions db = ∅ → rtc step db db' → allValid db'.
Proof.
  intros Hempty Hsteps.
  assert (allValid db) as Hinit.
  { intros id p Hp. by rewrite Hempty, lookup_empty in Hp. }
  clear Hempty. induction Hsteps as [db | db db1 db2 Hstep _ IH]; [done|].
  apply IH. by apply (step_allValid db).
Qed.

(** C7.  [reportActual] answers NotFound and leaves the database as it is
    when the id is a well-formed ObjectId of no stored prediction.  An id
    that is no ObjectId is answered 500 instead, and so is, for a stored
    prediction, a time that the validator accepts and [Date] cannot parse;
    neither changes a record.  For a stored prediction that passes the
    schema's validators, as every prediction stored by the component's
    operations does, and a time that parses, it sets the actual arrival
    time, sets the status to [arrived], stores the accuracy that
    [calculateAccuracy] computes, and saves.  Nothing guards a second
    report: one with a different time is answered like a first one, and the
    document it saves carries the second actual time and its accuracy; it
    is the document that a first report of that time saves, with
    [updatedAt] at the second report. *)
Theorem reportActual_not_idempotent :
  (∀ now db id date,
     predictions db !! id = None →
     reportActual now db (WellFormed id) (ISO8601 date)
     = (NotFound "Prediction not found", db))
  ∧ (∀ now db date,
       reportActual now db Malformed (ISO8601 date) = (ServerError, db))
  ∧ (∀ now db id p,
       predictions db !! id = Some p →
       reportActual now db (WellFormed id) (ISO8601 None) = (ServerError, db))
  ∧ (∀ now db id body,
       (∀ i, id = WellFormed i → predictions db !! i = None) →
       (reportActual now db id body).2 = db)
  ∧ (∀ now db id p actual,
       predictions db !! id = Some p → schemaValid p = true →
       ∃ p' n,
         reportActual now db (WellFormed id) (ISO8601 (Some actual))
         = (Updated id p', set_predictions (<[id := p']> (predictions db)) db)
         ∧ actualArrivalTime p' = Some actual
         ∧ status p' = arrived
         ∧ predictionAccuracy p' = Some n
         ∧ rounds_to (reconcile_score (predictedArrivalTime p) actual) n)
  ∧ (∀ now1 now2 db id p actual1 actual2,
       predictions db !! id = Some p → schemaValid p = true →
       actual1 ≠ actual2 →
       ∃ p1 db1 p2 n2,
         reportActual now1 db (WellFormed id) (ISO8601 (Some actual1))
         = (Updated id p1, db1)
         ∧ actualArrivalTime p1 = Some actual1
         ∧ reportActual now2 db1 (WellFormed id) (ISO8601 (Some actual2))
           = (Updated id p2, set_predictions (<[id := p2]> (predictions db)) db)
         ∧ actualArrivalTime p2 = Some actual2
         ∧ predictionAccuracy p2 = Some n2
         ∧ rounds_to (reconcile_score (predictedArrivalTime p) actual2) n2
         ∧ updatedAt p2 = now2
         ∧ ∃ p2' db2',
             reportActual now2 db (WellFormed id) (ISO8601 (Some actual2))
             = (Updated id p2', db2')
             ∧ p2 = set_updatedAt now2 p2')
  ∧ (∀ db db' id p,
       predictions db = ∅ → rtc step db db' →
       predictions db' !! id = Some p → schemaValid p = true).
Proof.
  split_and!;
    [| | | | | |by intros db db' id p Hempty Hsteps; apply (reachable_allValid db)].
  - intros now db id date Hnone. unfold reportActual, findById. by rewrite Hnone.
  - done.
  - intros now db id p Hp. unfold reportActual, findById. by rewrite Hp.
  - intros now db [i|] [|date] Hnone; unfold reportActual, findById; try done.
    by rewrite (Hnone i eq_refl).
  - intros now db id p actual Hp Hvalid.
    destruct (reportActual_found now db id p actual Hp Hvalid)
      as (p' & n & Hreport & Hsave & Hround & _).
    apply save_fields in Hsave as (_ & _ & _ & _ & _ & _ & Hactual & Hacc & _ & _ & Hst & _).
    exists p', n. by split_and!.
  - intros now1 now2 db id p actual1 actual2 Hp Hvalid Hne.
    destruct (reportActual_found now1 db id p actual1 Hp Hvalid)
      as (p1 & n1 & Hreport1 & Hsave1 & _ & _ & Hvalid1).
    destruct (reportActual_found now2 db id p actual2 Hp Hvalid)
      as (p2' & n2 & Hreport2' & Hsave2' & Hround2 & Hn2 & _).
    destruct (reportActual_found now2
                (set_predictions (<[id := p1]> (predictions db)) db) id p1 actual2)
      as (p2 & m & Hreport2 & Hsave2 & _ & Hm & _); [apply lookup_insert_eq | done |].
    pose proof (save_fields _ _ _ _ Hsave1)
      as (_ & _ & _ & _ & _ & Hpred1 & Hactual1 & _).
    assert (m = n2) as -> by (rewrite Hm, Hn2, Hpred1; reflexivity).
    apply save_modified in Hsave2.
    2: { intros Heq. apply (f_equal actualArrivalTime) in Heq.
         rewrite Hactual1 in Heq. simpl in Heq. congruence. }
    apply save_Some in Hsave1 as [_ Hp1]. apply save_Some in Hsave2' as [_ Hp2'].
    assert (p2 = set_updatedAt now2 p2') as Hp2.
    { rewrite Hsave2, Hp2', Hp1. destruct p. by repeat case_match. }
    exists p1, (set_predictions (<[id := p1]> (predictions db)) db), p2, n2.
    split_and!; try done.
    + rewrite Hreport2. cbn [predictions set_predictions buses routes].
      by rewrite insert_insert_eq.
    + by rewrite Hsave2.
    + by rewrite Hsave2.
    + by rewrite Hsave2.
    + eauto.
Qed.

Lemma reportActual_not_idempotent_witness :
  reportActual 1700009000000 (set_predictions {[ 0%N := Scenario.stored ]} Scenario.db)
    (WellFormed 5%N) (ISO8601 (Some 1700008520000))
  = (NotFound "Prediction not found",
     set_predictions {[ 0%N := Scenario.stored ]} Scenario.db)
  ∧ ∃ p1 db1 p2 db2,
      reportActual 1700009000000
        (set_predictions {[ 0%N := Scenario.stored ]} Scenario.db)
        (WellFormed 0%N) (ISO8601 (Some 1700008520000))
      = (Updated 0%N p1, db1)
      ∧ actualArrivalTime p1 = Some 1700008520000
      ∧ reportActual 1700009500000 db1 (WellFormed 0%N) (ISO8601 (Some 1700007020000))
        = (Updated 0%N p2, db2)
      ∧ actualArrivalTime p2 = Some 1700007020000
      ∧ updatedAt p2 = 1700009500000.
Proof.
  destruct reportActual_not_idempotent as (Hmissing & _ & _ & _ & _ & Hagain & _).
  split.
  - apply Hmissing. vm_compute. reflexivity.
  - destruct (Hagain 1700009000000 1700009500000
                (set_predictions {[ 0%N := Scenario.stored ]} Scenario.db)
                0%N Scenario.stored 1700008520000 1700007020000)
      as (p1 & db1 & p2 & n2 & Hfirst & Hactual1 & Hsecond & Hactual2 & _ & _ & Hupd & _);
      [vm_compute; reflexivity | vm_compute; reflexivity | lia |].
    exists p1, db1, p2. eexists. split_and!; [exact Hfirst | exact Hactual1
      | exact Hsecond | exact Hactual2 | exact Hupd].
Defined.

(** C7, where the claim as worded fails.  The path segment ['abc'] is the
    id of no prediction, and the answer is 500, not NotFound; and for the
    stored prediction [0] a time that passes [isISO8601()] and does not
    parse is answered 500, and the record keeps its status and has no
    actual arrival time. *)
Lemma reportActual_server_error :
  findById {[ 0%N := Scenario.stored ]} Malformed = None
  ∧ (reportActual 1700009000000
       (set_predictions {[ 0%N := Scenario.stored ]} Scenario.db)
       Malformed (ISO8601 (Some 1700008520000))).1 = ServerError
  ∧ (reportActual 1700009000000
       (set_predictions {[ 0%N := Scenario.stored ]} Scenario.db)
       Malformed (ISO8601 (Some 1700008520000))).1 ≠ NotFound "Prediction not found"
  ∧ findById {[ 0%N := Scenario.stored ]} (WellFormed 0%N) = Some (Some (0%N, Scenario.stored))
  ∧ reportActual 1700009000000
      (set_predictions {[ 0%N := Scenario.stored ]} Scenario.db)
      (WellFormed 0%N) (ISO8601 None)
    = (ServerError, set_predictions {[ 0%N := Scenario.stored ]} Scenario.db)
  ∧ actualArrivalTime Scenario.stored = None
  ∧ status Scenario.stored = pending.
Proof. split_and!; try done; vm_compute; reflexivity. Qed.

(** ** The status of a prediction *)

Lemma statusAfter_same db id p : predictions db !! id = Some p → statusAfter db db id p.
Proof. intros Hp. right. eauto. Qed.

Lemma statusAfter_insert db i q id p' :
  (predictions db !! i = None ∧ status q = pending
   ∨ ∃ p, predictions db !! i = Some p ∧ (status q = status p ∨ status q = arrived)) →
  <[i := q]> (predictions db) !! id = Some p' →
  statusAfter db (set_predictions (<[i := q]> (predictions db)) db) id p'.
Proof.
  intros Hq Hp'. destruct (decide (i = id)) as [-> | Hne].
  - rewrite lookup_insert_eq in Hp'. injection Hp' as <-. exact Hq.
  - rewrite lookup_insert_ne in Hp' by done. right. eauto.
Qed.

Lemma generate_status clk db req id p' :
  predictions (generate clk db req).2 !! id = Some p' →
  statusAfter db (generate clk db req).2 id p'.
Proof.
  destruct (generate clk db req) as [response db'] eqn:Hgen. simpl.
  destruct response as [i p| | | |].
  2-5: (unfold generate in Hgen; repeat case_match; simplify_eq;
        apply statusAfter_same).
  apply generate_Created in Hgen as (_ & _ & _ & _ & _ & Hstatus & Hfresh & ->).
  apply statusAfter_insert. by left.
Qed.

Lemma reportActual_status now db i body id p' :
  predictions (reportActual now db i body).2 !! id = Some p' →
  statusAfter db (reportActual now db i body).2 id p'.
Proof.
  destruct (reportActual_cases now db i body)
    as [-> | (j & p & actual & saved & _ & _ & Hp & Hsave & ->)];
    [apply statusAfter_same|].
  apply save_fields in Hsave as (_ & _ & _ & _ & _ & _ & _ & _ & _ & _ & Hst & _).
  apply statusAfter_insert. right. exists p. split; [done|]. right.
  rewrite Hst. by destruct (actualArrivalTime p).
Qed.

Lemma updatePredictionOf_status now db i newFactors id p' :
  predictions (updatePredictionOf now db i newFactors) !! id = Some p' →
  statusAfter db (updatePredictionOf now db i newFactors) id p'.
Proof.
  unfold updatePredictionOf.
  destruct (predictions db !! i) as [p|] eqn:Hp; simpl; [|apply statusAfter_same].
  destruct (updatePrediction now newFactors p) as [saved|] eqn:Hupd;
    [|apply statusAfter_same].
  apply updatePrediction_Some in Hupd as (_ & _ & _ & Hstatus).
  apply statusAfter_insert. right. exists p. split; [done|]. by left.
Qed.

Lemma step_status db db' id p' :
  step db db' → predictions db' !! id = Some p' → statusAfter db db' id p'.
Proof.
  intros Hstep. destruct Hstep.
  - apply generate_status.
  - apply reportActual_status.
  - apply updatePredictionOf_status.
Qed.

Lemma step_pendingOrArrived db db' :
  step db db' → pendingOrArrived db → pendingOrArrived db'.
Proof.
  intros Hstep Hinv id p' Hp'.
  destruct (step_status db db' id p' Hstep Hp')
    as [[_ ->] | (p & Hp & [-> | ->])]; eauto.
Qed.

(** C8.  No operation of the prediction component makes a prediction
    [cancelled].  The generate handler stores a prediction as [pending];
    an operation leaves the status of a stored prediction alone or sets it
    to [arrived]; so in every database reached by these operations from
    one whose predictions are pending or arrived (the empty one, for
    instance), every prediction is pending or arrived, and none is
    cancelled. *)
Theorem cancelled_is_unreachable :
  (∀ clk db req id p db',
     generate clk db req = (Created id p, db') → status p = pending)
  ∧ (∀ db db' id p',
       step db db' → predictions db' !! id = Some p' → statusAfter db db' id p')
  ∧ (∀ db db',
       pendingOrArrived db → rtc step db db' → pendingOrArrived db')
  ∧ (∀ db db' id p,
       predictions db = ∅ → rtc step db db' →
       predictions db' !! id = Some p →
       (status p = pending ∨ status p = arrived) ∧ status p ≠ cancelled).
Proof.
  assert (∀ db db', pendingOrArrived db → rtc step db db' → pendingOrArrived db')
    as Hreach.
  { intros db db' Hinv Hsteps. induction Hsteps as [db | db db1 db2 Hstep _ IH].
    - exact Hinv.
    - apply IH. by apply (step_pendingOrArrived db). }
  split_and!.
  - intros clk db req id p db' Hgen.
    by apply generate_Created in Hgen as (_ & _ & _ & _ & _ & Hstatus & _).
  - apply step_status.
  - exact Hreach.
  - intros db db' id p Hempty Hsteps Hp.
    assert (pendingOrArrived db) as Hinit.
    { intros i q Hq. rewrite Hempty, lookup_empty in Hq. done. }
    destruct (Hreach db db' Hinit Hsteps id p Hp) as [Hs | Hs];
      rewrite Hs; split; eauto; discriminate.
Qed.

Lemma cancelled_is_unreachable_witness :
  ∃ p,
    predictions
      (reportActual 1700009000000
         (generate Scenario.clock Scenario.db Scenario.request).2
         (WellFormed 0%N) (ISO8601 (Some 1700008520000))).2 !! 0%N = Some p
    ∧ (status p = pending ∨ status p = arrived)
    ∧ status p ≠ cancelled.
Proof.
  destruct cancelled_is_unreachable as (_ & _ & _ & Hreach).
  eexists. split; [vm_compute; reflexivity|].
  eapply (Hreach Scenario.db _ 0%N).
  - reflexivity.
  - eapply rtc_l; [apply (step_generate Scenario.clock _ Scenario.request)|].
    eapply rtc_l; [apply (step_reportActual 1700009000000 _ (WellFormed 0%N) (ISO8601 (Some 1700008520000)))|].
    apply rtc_refl.
  - vm_compute. reflexivity.
Defined.

(** ** The next arrivals at a stop *)

#[global] Instance byArrival_total : Total byArrival.
Proof. intros a b. unfold byArrival. lia. Qed.

#[global] Instance byArrival_transitive : Transitive byArrival.
Proof. intros a b c. unfold byArrival. lia. Qed.

Lemma StronglySorted_take {A} (R : relation A) (l : list A) (n : nat) :
  StronglySorted R l → StronglySorted R (take n l).
Proof.
  intros Hl. rewrite <- (take_drop n l) in Hl.
  by apply StronglySorted_app_1_l in Hl.
Qed.

(** In a strongly sorted list an earlier element precedes a later one. *)
Lemma StronglySorted_lookup_lt {A} (R : relation A) (l : list A) (i j : nat) (a b : A) :
  StronglySorted R l → l !! i = Some a → l !! j = Some b → (i < j)%nat → R a b.
Proof.
  intros Hl Ha Hb Hij. rewrite <- (take_drop j l) in Hl.
  apply (StronglySorted_app_1_elem_of R _ _ a b Hl).
  - apply list_elem_of_lookup. exists i. by rewrite lookup_take_lt.
  - apply list_elem_of_lookup. exists 0%nat. rewrite lookup_drop.
    by rewrite Nat.add_0_r.
Qed.

Lemma elem_of_stopMatches now ps stop route id p :
  (id, p) ∈ stopMatches now ps stop route ↔ ps !! id = Some p ∧ stopQuery now stop route p.
Proof.
  unfold stopMatches. rewrite merge_sort_Permutation, list_elem_of_filter.
  rewrite elem_of_map_to_list. simpl. tauto.
Qed.

(** C9.  [getPredictionsForStop] returns at most ten documents, in
    ascending order of predicted arrival; each is a stored prediction for
    the stop and the route whose status is pending or in transit and whose
    predicted arrival is not before the time of the query.  They are the
    first ten of all such documents in that order: when no more than ten
    match, every match is returned. *)
Theorem getPredictionsForStop_next_arrivals now ps stop route :
  (∀ id p,
     (id, p) ∈ getPredictionsForStop now ps stop route →
     ps !! id = Some p
     ∧ stopId p = stop ∧ routeId p = route
     ∧ (status p = pending ∨ status p = in_transit)
     ∧ now ≤ predictedArrivalTime p)
  ∧ StronglySorted byArrival (getPredictionsForStop now ps stop route)
  ∧ (length (getPredictionsForStop now ps stop route) ≤ 10)%nat
  ∧ (∀ i j a b,
       getPredictionsForStop now ps stop route !! i = Some a →
       getPredictionsForStop now ps stop route !! j = Some b →
       (i < j)%nat → predictedArrivalTime a.2 ≤ predictedArrivalTime b.2)
  ∧ (∀ id p,
       (length (stopMatches now ps stop route) ≤ 10)%nat →
       ps !! id = Some p → stopQuery now stop route p →
       (id, p) ∈ getPredictionsForStop now ps stop route).
Proof.
  assert (StronglySorted byArrival (getPredictionsForStop now ps stop route)) as Hsorted.
  { apply StronglySorted_take, StronglySorted_merge_sort; apply _. }
  split_and!.
  - intros id p Hin.
    assert ((id, p) ∈ stopMatches now ps stop route) as Hmatch.
    { unfold getPredictionsForStop in Hin. fold (stopMatches now ps stop route) in Hin.
      apply elem_of_take in Hin as (i & Hi & _). apply list_elem_of_lookup. eauto. }
    apply elem_of_stopMatches in Hmatch as [Hp (Hstop & Hroute & Hstatus & Hnow)].
    split_and!; try done.
    apply elem_of_cons in Hstatus as [-> | Hstatus]; [by left|].
    apply list_elem_of_singleton in Hstatus as ->. by right.
  - exact Hsorted.
  - unfold getPredictionsForStop. rewrite length_take. lia.
  - intros i j a b Ha Hb Hij.
    by apply (StronglySorted_lookup_lt byArrival _ i j a b Hsorted).
  - intros id p Hlen Hp Hquery.
    unfold getPredictionsForStop. fold (stopMatches now ps stop route).
    rewrite take_ge by done. by apply elem_of_stopMatches.
Qed.

Lemma getPredictionsForStop_next_arrivals_witness :
  (0%N, Scenario.stored)
    ∈ getPredictionsForStop 1700000000000 {[ 0%N := Scenario.stored ]} 4 2%N
  ∧ status Scenario.stored = pending.
Proof.
  destruct (getPredictionsForStop_next_arrivals
              1700000000000 {[ 0%N := Scenario.stored ]} 4 2%N)
    as (_ & _ & _ & _ & Hall).
  split; [|reflexivity].
  apply Hall.
  - vm_compute. lia.
  - vm_compute. reflexivity.
  - unfold stopQuery. split_and!; [reflexivity | reflexivity | | vm_compute; discriminate].
    apply list_elem_of_here.
Defined.

(** * Further properties of the code *)

(** ** The accuracy score *)

(** The score of a report, by the number of milliseconds between the
    predicted and the actual arrival. *)
Lemma scoreOf_closed_form (p : Prediction) (actual : Z) :
  scoreOf p actual
  = Some (Z.max 0 ((3015000 - Z.abs (predictedArrivalTime p - actual)) / 30000)).
Proof.
  unfold scoreOf.
  destruct (calculateAccuracy_known (set_actualArrivalTime actual p) actual eq_refl)
    as (n & -> & _ & ->).
  reflexivity.
Qed.

(** Goals about the quotient by 30000: name quotient and remainder. *)
Ltac quotient_lia :=
  repeat match goal with
  | H : context [?a / 30000] |- _ =>
    let q := fresh "q" in let r := fresh "r" in
    pose proof (Z.div_mod a 30000 ltac:(lia));
    pose proof (Z.mod_pos_bound a 30000 ltac:(lia));
    set (q := a / 30000) in *; set (r := a mod 30000) in *; clearbody q r
  | |- context [?a / 30000] =>
    let q := fresh "q" in let r := fresh "r" in
    pose proof (Z.div_mod a 30000 ltac:(lia));
    pose proof (Z.mod_pos_bound a 30000 ltac:(lia));
    set (q := a / 30000) in *; set (r := a mod 30000) in *; clearbody q r
  end; lia.

(** X1.  The score depends only on how far apart the predicted and the
    actual arrival are: an arrival [d] ms early scores like one [d] ms
    late, two predictions with the same difference score alike whatever
    their other fields, and an arrival that is further off never scores
    higher. *)
Theorem score_symmetric_and_antitone :
  (∀ p d,
     scoreOf p (predictedArrivalTime p + d) = scoreOf p (predictedArrivalTime p - d))
  ∧ (∀ p q a b,
       Z.abs (predictedArrivalTime p - a) = Z.abs (predictedArrivalTime q - b) →
       scoreOf p a = scoreOf q b)
  ∧ (∀ p a1 a2 n1 n2,
       Z.abs (predictedArrivalTime p - a1) ≤ Z.abs (predictedArrivalTime p - a2) →
       scoreOf p a1 = Some n1 → scoreOf p a2 = Some n2 → n2 ≤ n1).
Proof.
  split_and!.
  - intros p d. rewrite !scoreOf_closed_form. do 3 f_equal. lia.
  - intros p q a b Hd. rewrite !scoreOf_closed_form. by rewrite Hd.
  - intros p a1 a2 n1 n2 Hd. rewrite !scoreOf_closed_form.
    intros [= <-] [= <-].
    apply Z.max_le_compat_l, Z.div_le_mono; lia.
Qed.

Lemma score_symmetric_and_antitone_witness :
  scoreOf Scenario.stored (1700007020000 + 90000) = Some 97
  ∧ scoreOf Scenario.stored (1700007020000 - 90000) = Some 97
  ∧ 90 ≤ 97.
Proof.
  destruct score_symmetric_and_antitone as (Hsym & _ & Hanti).
  assert (scoreOf Scenario.stored (1700007020000 - 90000) = Some 97) as Hearly
    by (vm_compute; reflexivity).
  split_and!.
  - etrans; [apply (Hsym Scenario.stored 90000) | exact Hearly].
  - exact Hearly.
  - apply (Hanti Scenario.stored (1700007020000 - 90000) (1700007020000 + 300000));
      vm_compute; (reflexivity || discriminate).
Defined.

(** X2.  The thresholds of the score in milliseconds: it is 100 exactly up
    to 15 seconds off, 0 exactly beyond 49 minutes 45 seconds, and at
    least 80, the bar of the analytics for an accurate prediction, exactly
    up to 10 minutes 15 seconds. *)
Theorem score_thresholds (p : Prediction) (actual n : Z) :
  scoreOf p actual = Some n →
  (n = 100 ↔ Z.abs (predictedArrivalTime p - actual) ≤ 15000)
  ∧ (n = 0 ↔ 2985000 < Z.abs (predictedArrivalTime p - actual))
  ∧ (80 ≤ n ↔ Z.abs (predictedArrivalTime p - actual) ≤ 615000).
Proof.
  rewrite scoreOf_closed_form. intros [= <-].
  pose proof (Z.abs_nonneg (predictedArrivalTime p - actual)) as Hd.
  set (d := Z.abs (predictedArrivalTime p - actual)) in *. clearbody d.
  split_and!; split; intros H; quotient_lia.
Qed.

Lemma score_thresholds_witness :
  (100 = 100 ↔ Z.abs (predictedArrivalTime Scenario.stored - 1700007035000) ≤ 15000)
  ∧ (100 = 0 ↔ 2985000 < Z.abs (predictedArrivalTime Scenario.stored - 1700007035000))
  ∧ (80 ≤ 100 ↔ Z.abs (predictedArrivalTime Scenario.stored - 1700007035000) ≤ 615000).
Proof.
  apply (score_thresholds Scenario.stored 1700007035000 100).
  vm_compute. reflexivity.
Defined.

(** X3.  Each further half minute between prediction and arrival costs one
    point, until the score is 0. *)
Theorem score_point_per_half_minute (p : Prediction) (a1 a2 n : Z) :
  scoreOf p a1 = Some n → 1 ≤ n →
  Z.abs (predictedArrivalTime p - a2) = Z.abs (predictedArrivalTime p - a1) + 30000 →
  scoreOf p a2 = Some (n - 1).
Proof.
  rewrite !scoreOf_closed_form. intros [= <-] Hn ->. f_equal.
  pose proof (Z.abs_nonneg (predictedArrivalTime p - a1)) as Hd.
  set (d := Z.abs (predictedArrivalTime p - a1)) in *. clearbody d.
  replace (3015000 - (d + 30000)) with ((3015000 - d) + (-1) * 30000) by lia.
  rewrite Z.div_add by lia. lia.
Qed.

Lemma score_point_per_half_minute_witness :
  scoreOf Scenario.stored (1700007020000 + 120000) = Some (97 - 1).
Proof.
  apply (score_point_per_half_minute Scenario.stored (1700007020000 + 90000) _ 97).
  - vm_compute. reflexivity.
  - lia.
  - vm_compute. reflexivity.
Defined.

(** ** The adjustment steps *)

Section Steps.
Local Open Scope Q_scope.

#[global] Instance adjustTimeOfDay_proper tod : Proper (Qeq ==> Qeq) (adjustTimeOfDay tod).
Proof. intros x y Hxy. unfold adjustTimeOfDay. destruct (_ || _); by rewrite Hxy. Qed.

(** The time-of-day step multiplies by a constant. *)
Lemma adjustTimeOfDay_scale tod b c :
  adjustTimeOfDay tod (b * c) == adjustTimeOfDay tod b * c.
Proof. unfold adjustTimeOfDay. destruct (_ || _); ring. Qed.

(** The speed step multiplies by a factor that the speed alone decides. *)
Lemma adjustSpeed_factor (speed : option Q) :
  ∃ k, 0 < k ∧ ∀ b, ∃ t, adjustSpeed speed b = Some t ∧ t == b * k.
Proof.
  destruct (Js.gt0 speed) eqn:Hg.
  - apply gt0_true in Hg as (s & -> & Hs). exists (30 / s). split.
    + apply Qlt_shift_div_l; lra.
    + intros b. exists (b * (30 / s)). split; [by apply adjustSpeed_positive | reflexivity].
  - exists 1. split; [lra|]. intros b. exists b.
    split; [by apply adjustSpeed_skip | ring].
Qed.

End Steps.

(** ** The speed *)

(** The travel time of the generate handler before the speed step. *)
Lemma generateTravelTime_speed f (s : Q) :
  (0 < s)%Q →
  generateTravelTime (with_currentSpeed (Some s) f)
  = Some (adjustWeather (in_weatherConditions f)
            (adjustTraffic (in_trafficConditions f) defaultBaseTime) * (30 / s))%Q.
Proof. intros Hs. unfold generateTravelTime. simpl. by apply adjustSpeed_positive. Qed.

(** X5.  Among positive speeds a faster bus is never predicted later, and
    a bus at least twice as fast is predicted in half the time at most.
    30 km/h gives the time of a request without speed, a slower bus no
    shorter and a faster bus no longer one.  The time grows without bound
    as the speed falls: at 1 km/h or less it is twelve hours or more,
    although at speed 0 it is under an hour. *)
Theorem faster_is_no_later :
  (∀ f s1 s2, (0 < s1)%Q → (s1 <= s2)%Q →
     ∃ t1 t2,
       generateTravelTime (with_currentSpeed (Some s1) f) = Some t1
       ∧ generateTravelTime (with_currentSpeed (Some s2) f) = Some t2
       ∧ (t2 <= t1)%Q)
  ∧ (∀ f s1 s2, (0 < s1)%Q → (2 * s1 <= s2)%Q →
       ∃ t1 t2,
         generateTravelTime (with_currentSpeed (Some s1) f) = Some t1
         ∧ generateTravelTime (with_currentSpeed (Some s2) f) = Some t2
         ∧ (t2 * 2 <= t1)%Q ∧ (t2 < t1)%Q)
  ∧ (∀ f s, (0 < s)%Q →
       ∃ t t0,
         generateTravelTime (with_currentSpeed (Some s) f) = Some t
         ∧ generateTravelTime (with_currentSpeed None f) = Some t0
         ∧ ((s <= 30 → t0 <= t) ∧ (s == 30 → t == t0) ∧ (30 <= s → t <= t0))%Q)
  ∧ (∀ f s, (0 < s)%Q → (s <= 1)%Q →
       ∃ t t0,
         generateTravelTime (with_currentSpeed (Some s) f) = Some t
         ∧ generateTravelTime (with_currentSpeed (Some 0%Q) f) = Some t0
         ∧ (720 <= t)%Q ∧ (t0 < 60)%Q).
Proof.
  split_and!.
  - intros f s1 s2 Hs1 Hs12. eexists _, _.
    rewrite !generateTravelTime_speed by lra. split_and!; [done | done |].
    pose proof (generate_base_range f) as Hbase.
    set (b := adjustWeather _ _) in *.
    assert (30 / s2 <= 30 / s1)%Q.
    { apply Qle_shift_div_l; [lra|].
      assert (30 / s2 * s1 == 30 * (s1 / s2))%Q as -> by (field; lra).
      assert (s1 / s2 <= 1)%Q by (apply Qle_shift_div_r; lra). lra. }
    nra.
  - intros f s1 s2 Hs1 Hs12. eexists _, _.
    rewrite !generateTravelTime_speed by lra. split; [done|]. split; [done|].
    pose proof (generate_base_range f) as Hbase.
    set (b := adjustWeather _ _) in *.
    assert (30 / s2 * 2 <= 30 / s1)%Q as Hhalf.
    { apply Qle_shift_div_l; [lra|].
      assert (30 / s2 * 2 * s1 == 30 * (2 * s1 / s2))%Q as -> by (field; lra).
      assert (2 * s1 / s2 <= 1)%Q by (apply Qle_shift_div_r; lra). lra. }
    assert (0 < 30 / s2)%Q as Hpos by (apply Qlt_shift_div_l; lra).
    set (k1 := (30 / s1)%Q) in *. set (k2 := (30 / s2)%Q) in *. clearbody k1 k2 b.
    assert (b * (k2 * 2) <= b * k1)%Q by (apply Qmult_le_l; lra).
    assert (0 < b * k2)%Q by (apply Qmult_lt_0_compat; lra).
    split; lra.
  - intros f s Hs. eexists _, _.
    rewrite generateTravelTime_speed by lra.
    split; [done|]. split; [reflexivity|].
    pose proof (generate_base_range f) as Hbase.
    change (in_weatherConditions (with_currentSpeed None f)) with (in_weatherConditions f).
    change (in_trafficConditions (with_currentSpeed None f)) with (in_trafficConditions f).
    set (b := adjustWeather _ _) in *. split_and!.
    + intros Hslow. assert (1 <= 30 / s)%Q by (apply Qle_shift_div_l; lra). nra.
    + intros Heq. rewrite Heq. field.
    + intros Hfast. assert (30 / s <= 1)%Q by (apply Qle_shift_div_r; lra). nra.
  - intros f s Hs Hcrawl. eexists _, _.
    rewrite generateTravelTime_speed by lra.
    split; [done|]. split; [reflexivity|]. split.
    + pose proof (generate_base_range f) as Hbase.
      set (b := adjustWeather _ _) in *.
      assert (30 <= 30 / s)%Q by (apply Qle_shift_div_l; lra). nra.
    + pose proof (generate_base_range f) as Hbase.
      change (in_weatherConditions (with_currentSpeed (Some 0%Q) f))
        with (in_weatherConditions f).
      change (in_trafficConditions (with_currentSpeed (Some 0%Q) f))
        with (in_trafficConditions f).
      lra.
Qed.

Lemma faster_is_no_later_witness :
  ∃ t1 t2,
    generateTravelTime (with_currentSpeed (Some 15%Q) Scenario.input) = Some t1
    ∧ generateTravelTime (with_currentSpeed (Some 60%Q) Scenario.input) = Some t2
    ∧ (t2 * 2 <= t1)%Q ∧ (t2 < t1)%Q.
Proof.
  destruct faster_is_no_later as (_ & Hdouble & _).
  apply (Hdouble Scenario.input 15%Q 60%Q); [reflexivity | lra].
Defined.

(** ** The document that the generate handler stores *)

(** The literal that the handler hands to [Prediction.create]. *)
Lemma generate_Created_document clk db req id p db' :
  generate clk db req = (Created id p, db') →
  ∃ bus,
    req_busId req ≫= (buses db !!.) = Some bus
    ∧ is_Some (req_routeId req ≫= λ r, if decide (r ∈ routes db) then Some r else None)
    ∧ newDocument (clock_now clk)
        {| new_busId := req_busId req;
           new_routeId := req_routeId req;
           new_driverId := currentDriver bus;
           new_stopId := req_stopId req;
           new_coordinates := req_coordinates req;
           new_predictedArrivalTime :=
             generateArrivalTime (clock_now clk) (req_factors req);
           new_factors := stampFactors clk (req_factors req) |}
      = Some p.
Proof.
  unfold generate. destruct (generateErrors req); [|done].
  destruct (req_busId req ≫= _) as [bus|]; [|done].
  destruct (req_routeId req ≫= _) as [r|]; [|done].
  unfold create. destruct (newDocument _ _) as [q|] eqn:Hdoc; simpl; [|done].
  destruct (schemaValid q); [|done].
  intros [= <- <- <-]. exists bus. split_and!; [done | by eexists | exact Hdoc].
Qed.

Lemma adjustSpeed_default (speed : option Q) (b : Q) :
  adjustSpeed (Some (default 0%Q speed)) b = adjustSpeed speed b.
Proof. by destruct speed. Qed.

(** The travel time that [updatePrediction] computes from a document just
    stored by the generate handler. *)
Lemma updateTravelTime_stored clk db req id p db' :
  generate clk db req = (Created id p, db') →
  updateTravelTime (averageTravelTime p) (factors p)
  = adjustSpeed (in_currentSpeed (req_factors req))
      (adjustTimeOfDay (Some (getTimeOfDay clk))
         (adjustWeather (in_weatherConditions (req_factors req))
            (adjustTraffic (in_trafficConditions (req_factors req)) defaultBaseTime))).
Proof.
  intros Hgen.
  pose proof (generate_Created _ _ _ _ _ _ Hgen) as (Hnil & _).
  apply generateErrors_nil in Hnil as (_ & _ & _ & _ & Htc & Hwc & _).
  apply generate_Created_document in Hgen as (bus & _ & _ & Hdoc).
  unfold newDocument in Hdoc. simpl in Hdoc.
  destruct (req_busId req); simpl in Hdoc; [|done].
  destruct (req_routeId req); simpl in Hdoc; [|done].
  destruct (currentDriver bus); simpl in Hdoc; [|done].
  destruct (req_stopId req); simpl in Hdoc; [|done].
  destruct (generateArrivalTime _ _); simpl in Hdoc; [|done].
  destruct (in_distanceToStop (req_factors req)); simpl in Hdoc; [|done].
  injection Hdoc as <-. unfold updateTravelTime.
  cbn [averageTravelTime factors trafficConditions weatherConditions timeOfDay currentSpeed].
  rewrite adjustSpeed_default.
  destruct (in_trafficConditions (req_factors req)); [|done].
  destruct (in_weatherConditions (req_factors req)); [|done].
  reflexivity.
Qed.

(** X6.  [updatePrediction] and the generate handler differ by the
    time-of-day step alone.  For a document that the handler has just
    stored, the travel time of [updatePrediction] is never shorter than
    the handler's.  In the morning and the evening it is longer, by a
    fifth to within one part in a hundred; in the afternoon and at night
    it is the same, and recomputing at the same instant reproduces the
    stored arrival time. *)
Theorem update_adds_time_of_day clk db req id p db' :
  generate clk db req = (Created id p, db') →
  ∃ tg tu,
    generateTravelTime (req_factors req) = Some tg
    ∧ updateTravelTime (averageTravelTime p) (factors p) = Some tu
    ∧ (tg <= tu)%Q
    ∧ (getTimeOfDay clk = "morning" ∨ getTimeOfDay clk = "evening" →
       (tg < tu ∧ tg * 1.19 <= tu ∧ tu <= tg * 1.21)%Q)
    ∧ (getTimeOfDay clk = "afternoon" ∨ getTimeOfDay clk = "night" →
       (tu == tg)%Q
       ∧ updateArrivalTime (clock_now clk) (averageTravelTime p) (factors p)
         = Some (predictedArrivalTime p)).
Proof.
  intros Hgen.
  pose proof (updateTravelTime_stored _ _ _ _ _ _ Hgen) as Hupd.
  apply generate_Created in Hgen as (_ & (tg & Htg & Hdate) & _).
  destruct (generateTravelTime_total (req_factors req)) as (tg0 & Htg0 & Hpos).
  assert (tg0 = tg) as -> by congruence. clear Htg0.
  set (base := adjustWeather _ _) in Hupd.
  destruct (adjustSpeed_factor (in_currentSpeed (req_factors req))) as (k & _ & Hk).
  destruct (Hk (adjustTimeOfDay (Some (getTimeOfDay clk)) base)) as (tu & Htu & Htuk).
  destruct (Hk base) as (tg' & Htg' & Htgk).
  assert (tg' = tg) as ->.
  { unfold generateTravelTime in Htg. cbv zeta in Htg. fold base in Htg. congruence. }
  assert ((tu == adjustTimeOfDay (Some (getTimeOfDay clk)) tg)%Q) as Hrel.
  { by rewrite Htuk, Htgk, adjustTimeOfDay_scale. }
  exists tg, tu. split_and!; [done | by rewrite Hupd | | |].
  - pose proof (adjustTimeOfDay_bounds (Some (getTimeOfDay clk)) tg) as Hb.
    rewrite Hrel. apply Hb. lra.
  - intros [Htod | Htod]; rewrite Htod in Hrel;
      change (tu == tg * 1.2)%Q in Hrel; rewrite Hrel; split_and!; lra.
  - intros Htod.
    assert (adjustTimeOfDay (Some (getTimeOfDay clk)) base = base) as Hsame
      by (destruct Htod as [-> | ->]; reflexivity).
    split.
    + rewrite Hrel. by destruct Htod as [-> | ->].
    + unfold updateArrivalTime. rewrite Hupd, Hsame.
      unfold generateTravelTime in Htg. fold base in Htg. rewrite Htg. exact Hdate.
Qed.

Lemma update_adds_time_of_day_witness :
  ∃ tg tu,
    generateTravelTime Scenario.input = Some tg
    ∧ updateTravelTime 0 (factors Scenario.stored) = Some tu
    ∧ (tg < tu)%Q.
Proof.
  destruct (update_adds_time_of_day Scenario.clock Scenario.db Scenario.request
              0%N Scenario.stored
              (set_predictions {[ 0%N := Scenario.stored ]} Scenario.db))
    as (tg & tu & Htg & Htu & _ & Hpeak & _).
  - vm_compute. reflexivity.
  - exists tg, tu. split_and!; [exact Htg | exact Htu |].
    apply Hpeak. left. reflexivity.
Defined.

(** A literal is accepted as a document exactly when its required paths
    are present. *)
Lemma newDocument_Some now d p :
  newDocument now d = Some p →
  new_busId d = Some (busId p)
  ∧ new_routeId d = Some (routeId p)
  ∧ new_driverId d = Some (driverId p)
  ∧ new_stopId d = Some (stopId p)
  ∧ new_predictedArrivalTime d = Some (predictedArrivalTime p)
  ∧ in_distanceToStop (new_factors d) = Some (distanceToStop (factors p))
  ∧ coordinates p = default [] (new_coordinates d)
  ∧ trafficConditions (factors p)
    = default "medium"%string (in_trafficConditions (new_factors d))
  ∧ weatherConditions (factors p)
    = default "clear"%string (in_weatherConditions (new_factors d))
  ∧ timeOfDay (factors p) = default "morning"%string (in_timeOfDay (new_factors d))
  ∧ dayOfWeek (factors p) = default "monday"%string (in_dayOfWeek (new_factors d))
  ∧ currentSpeed (factors p) = default 0%Q (in_currentSpeed (new_factors d))
  ∧ numberOfStops (factors p) = default 0%Q (in_numberOfStops (new_factors d))
  ∧ passengerLoad (factors p) = default 0%Q (in_passengerLoad (new_factors d))
  ∧ fuelLevel (factors p) = default 100%Q (in_fuelLevel (new_factors d))
  ∧ actualArrivalTime p = None ∧ predictionAccuracy p = None
  ∧ status p = pending ∧ createdAt p = now ∧ updatedAt p = now.
Proof.
  unfold newDocument.
  destruct (new_busId d); simpl; [|done].
  destruct (new_routeId d); simpl; [|done].
  destruct (new_driverId d); simpl; [|done].
  destruct (new_stopId d); simpl; [|done].
  destruct (new_predictedArrivalTime d); simpl; [|done].
  destruct (in_distanceToStop (new_factors d)); simpl; [|done].
  intros [= <-]. simpl. split_and!; reflexivity.
Qed.

(** X7.  What the generate handler stores echoes the request and the
    database: the document carries the bus, route, stop, coordinates,
    traffic, weather and distance of the request, the bus and the route
    exist, the driver is the bus's current driver, the time of day is the
    clock's, whatever the request says, and the document starts pending,
    without actual arrival or accuracy. *)
Theorem generate_stored_fields clk db req id p db' :
  generate clk db req = (Created id p, db') →
  req_busId req = Some (busId p)
  ∧ req_routeId req = Some (routeId p)
  ∧ req_stopId req = Some (stopId p)
  ∧ req_coordinates req = Some (coordinates p)
  ∧ (∃ bus, buses db !! busId p = Some bus ∧ currentDriver bus = Some (driverId p))
  ∧ routeId p ∈ routes db
  ∧ in_trafficConditions (req_factors req) = Some (trafficConditions (factors p))
  ∧ in_weatherConditions (req_factors req) = Some (weatherConditions (factors p))
  ∧ in_distanceToStop (req_factors req) = Some (distanceToStop (factors p))
  ∧ timeOfDay (factors p) = getTimeOfDay clk
  ∧ status p = pending
  ∧ actualArrivalTime p = None ∧ predictionAccuracy p = None.
Proof.
  intros Hgen.
  pose proof (generate_Created _ _ _ _ _ _ Hgen) as (Hnil & _).
  apply generateErrors_nil in Hnil as (_ & _ & _ & (c & Hc & _) & Htc & Hwc & _).
  apply generate_Created_document in Hgen as (bus & Hbus & [r Hroute] & Hdoc).
  apply newDocument_Some in Hdoc
    as (Hb & Hr & Hdrv & Hstop & _ & Hdist & Hcoord & Htraffic & Hweather & Htod
        & _ & _ & _ & _ & _ & Hactual & Haccuracy & Hstatus & _).
  simpl in *. rewrite Hb in Hbus. rewrite Hr in Hroute. simpl in *.
  split_and!; try done.
  - by rewrite Hcoord, Hc.
  - by exists bus.
  - by destruct (decide (routeId p ∈ routes db)).
  - rewrite Htraffic. by destruct (in_trafficConditions (req_factors req)).
  - rewrite Hweather. by destruct (in_weatherConditions (req_factors req)).
Qed.

Lemma generate_stored_fields_witness :
  (∃ bus, buses Scenario.db !! busId Scenario.stored = Some bus
          ∧ currentDriver bus = Some (driverId Scenario.stored))
  ∧ timeOfDay (factors Scenario.stored) = getTimeOfDay Scenario.clock.
Proof.
  destruct (generate_stored_fields Scenario.clock Scenario.db Scenario.request 0%N
              Scenario.stored (set_predictions {[ 0%N := Scenario.stored ]} Scenario.db))
    as (_ & _ & _ & _ & Hbus & _ & _ & _ & _ & Htod & _).
  - vm_compute. reflexivity.
  - split; [exact Hbus | exact Htod].
Defined.

(** X8.  A stored prediction never replaces another one: the id of the
    new document was free, looking it up gives the document back, every
    other prediction and the buses and routes are as before, and the
    collection has grown by one. *)
Theorem generate_inserts_fresh clk db req id p db' :
  generate clk db req = (Created id p, db') →
  predictions db !! id = None
  ∧ predictions db' !! id = Some p
  ∧ (∀ i, i ≠ id → predictions db' !! i = predictions db !! i)
  ∧ buses db' = buses db ∧ routes db' = routes db
  ∧ size (predictions db') = S (size (predictions db)).
Proof.
  intros Hgen.
  apply generate_Created in Hgen as (_ & _ & _ & _ & _ & _ & Hfresh & ->).
  simpl. split_and!; try done.
  - apply lookup_insert_eq.
  - intros i Hi. by apply lookup_insert_ne.
  - by apply map_size_insert_None.
Qed.

Lemma generate_inserts_fresh_witness :
  predictions (generate Scenario.clock Scenario.db Scenario.request).2 !! 0%N
  = Some Scenario.stored
  ∧ size (predictions (generate Scenario.clock Scenario.db Scenario.request).2) = 1%nat.
Proof.
  destruct (generate_inserts_fresh Scenario.clock Scenario.db Scenario.request 0%N
              Scenario.stored (set_predictions {[ 0%N := Scenario.stored ]} Scenario.db))
    as (_ & Hlookup & _ & _ & _ & Hsize).
  - vm_compute. reflexivity.
  - assert (generate Scenario.clock Scenario.db Scenario.request
            = (Created 0%N Scenario.stored,
               set_predictions {[ 0%N := Scenario.stored ]} Scenario.db)) as ->
      by (vm_compute; reflexivity).
    split; [exact Hlookup | exact Hsize].
Defined.

(** ** The answers of the generate handler *)

(** The answer to a validated request for an existing bus and route is
    Created or a server error. *)
Lemma generate_found clk db req b bus r :
  generateErrors req = [] →
  req_busId req = Some b → buses db !! b = Some bus →
  req_routeId req = Some r → r ∈ routes db →
  (∃ id p db', generate clk db req = (Created id p, db'))
  ∨ generate clk db req = (ServerError, db).
Proof.
  intros Hnil Hb Hbus Hr Hroute. unfold generate.
  rewrite Hnil, Hb, Hr. simpl. rewrite Hbus, decide_True by done.
  destruct (create _ _ _) as [[[id p] ps]|]; [left; eauto | by right].
Qed.

(** X10.  The errors of the generate handler.  It answers 400 with the
    messages of the failed validators before it looks anything up, and 404
    when the bus or the route of a validated request does not exist.  A
    validated request for an existing bus and route is answered with a
    500 server error when the bus has no current driver, or when the
    current speed, which no validator checks, is negative or above 120.
    Whenever the answer is not Created the database is unchanged. *)
Theorem generate_errors clk db req :
  (generateErrors req ≠ [] →
   generate clk db req = (BadRequest (generateErrors req), db))
  ∧ (generateErrors req = [] →
     req_busId req ≫= (buses db !!.) = None
     ∨ (∀ r, req_routeId req = Some r → r ∉ routes db) →
     generate clk db req = (NotFound "Bus or route not found", db))
  ∧ (∀ b bus r,
       generateErrors req = [] →
       req_busId req = Some b → buses db !! b = Some bus →
       req_routeId req = Some r → r ∈ routes db →
       currentDriver bus = None
       ∨ (∃ s, in_currentSpeed (req_factors req) = Some s ∧ (s < 0 ∨ 120 < s)%Q) →
       generate clk db req = (ServerError, db))
  ∧ (∀ response db',
       generate clk db req = (response, db') →
       (∀ id p, response ≠ Created id p) → db' = db).
Proof.
  split_and!.
  - intros Herr. unfold generate.
    destruct (generateErrors req) as [|e errors]; [by destruct Herr | reflexivity].
  - intros Hnil Hmissing. unfold generate. rewrite Hnil. cbv zeta.
    destruct Hmissing as [Hbus | Hroute]; [by rewrite Hbus|].
    destruct (req_busId req ≫= _); [|done].
    destruct (req_routeId req) as [r|]; simpl; [|done].
    rewrite decide_False; [done | by apply Hroute].
  - intros b bus r Hnil Hb Hbus Hr Hroute Hbad.
    destruct (generate_found clk db req b bus r) as [(id & p & db' & Hgen) | Hgen];
      try done.
    exfalso. destruct Hbad as [Hdrv | (s & Hs & Hrange)].
    + apply generate_Created_document in Hgen as (bus' & Hbus' & _ & Hdoc).
      rewrite Hb in Hbus'. simpl in Hbus'. rewrite Hbus in Hbus'.
      injection Hbus' as <-.
      apply newDocument_Some in Hdoc as (_ & _ & Hdriver & _). simpl in Hdriver.
      by rewrite Hdrv in Hdriver.
    + apply generate_Created in Hgen as (_ & _ & Hvalid%schemaValid_speed & Hspeed & _).
      rewrite Hspeed, Hs in Hvalid. simpl in Hvalid. lra.
  - intros response db' Hgen Hnot. unfold generate in Hgen.
    repeat case_match; simplify_eq; try done.
    by exfalso; eapply Hnot.
Qed.

Lemma generate_errors_witness :
  generate Scenario.clock Scenario.db
    (with_factors (with_currentSpeed (Some 150%Q) Scenario.input) Scenario.request)
  = (ServerError, Scenario.db)
  ∧ generate Scenario.clock Scenario.db
      (with_factors (with_trafficConditions "jam" Scenario.input) Scenario.request)
    = (BadRequest ["Valid traffic condition required"], Scenario.db).
Proof.
  split.
  - destruct (generate_errors Scenario.clock Scenario.db
                (with_factors (with_currentSpeed (Some 150%Q) Scenario.input)
                   Scenario.request)) as (_ & _ & Hserver & _).
    apply (Hserver 1%N {| currentDriver := Some 7%N |} 2%N); try reflexivity.
    right. exists 150%Q. split; [reflexivity|]. right. reflexivity.
  - destruct (generate_errors Scenario.clock Scenario.db
                (with_factors (with_trafficConditions "jam" Scenario.input)
                   Scenario.request)) as (Hbad & _).
    apply Hbad. vm_compute. discriminate.
Defined.

(** ** Reports of the actual arrival *)

(** X11.  A report touches one document and three of its fields.  The
    buses, the routes and every other prediction are as before, no
    prediction is added or removed, and the reported document keeps its
    bus, route, driver, stop, coordinates, predicted arrival, factors and
    creation time.  This holds of every request, whatever the id in the
    path and the body are. *)
Theorem reportActual_frame now db id body :
  buses (reportActual now db id body).2 = buses db
  ∧ routes (reportActual now db id body).2 = routes db
  ∧ (∀ i, WellFormed i ≠ id →
       predictions (reportActual now db id body).2 !! i = predictions db !! i)
  ∧ (∀ i, is_Some (predictions (reportActual now db id body).2 !! i)
          ↔ is_Some (predictions db !! i))
  ∧ (∀ i p', predictions (reportActual now db id body).2 !! i = Some p' →
       ∃ p, predictions db !! i = Some p
            ∧ busId p' = busId p ∧ routeId p' = routeId p
            ∧ driverId p' = driverId p ∧ stopId p' = stopId p
            ∧ coordinates p' = coordinates p
            ∧ predictedArrivalTime p' = predictedArrivalTime p
            ∧ factors p' = factors p
            ∧ createdAt p' = createdAt p).
Proof.
  destruct (reportActual_cases now db id body)
    as [-> | (j & p & actual & saved & -> & -> & Hp & Hsave & ->)];
    [by split_and!; eauto 10|].
  apply save_fields in Hsave
    as (Hbus & Hroute & Hdriver & Hstop & Hcoord & Hpred & _ & _ & Hfactors & _ & _ & Hcreated).
  assert (factors (calculateAccuracy (set_status arrived (set_actualArrivalTime actual p))).1
          = factors p
          ∧ predictedArrivalTime
              (calculateAccuracy (set_status arrived (set_actualArrivalTime actual p))).1
            = predictedArrivalTime p) as [Hf Ht] by done.
  cbn [snd predictions set_predictions buses routes]. split_and!; try done.
  - intros i Hi. apply lookup_insert_ne. congruence.
  - intros i. destruct (decide (j = i)) as [<- | Hne].
    + rewrite lookup_insert_eq, Hp. split; eauto.
    + by rewrite lookup_insert_ne.
  - intros i p'. destruct (decide (j = i)) as [<- | Hne].
    + rewrite lookup_insert_eq. intros [= <-]. exists p.
      rewrite Hbus, Hroute, Hdriver, Hstop, Hcoord, Hpred, Hfactors, Hcreated.
      by split_and!.
    + rewrite lookup_insert_ne by done. intros Hp'. exists p'. by split_and!.
Qed.

Lemma reportActual_frame_witness :
  ∃ p', predictions
          (reportActual 1700009000000
             (set_predictions {[ 0%N := Scenario.stored ]} Scenario.db)
             (WellFormed 0%N) (ISO8601 (Some 1700008520000))).2 !! 0%N = Some p'
        ∧ predictedArrivalTime p' = predictedArrivalTime Scenario.stored
        ∧ factors p' = factors Scenario.stored.
Proof.
  destruct (reportActual_frame 1700009000000
              (set_predictions {[ 0%N := Scenario.stored ]} Scenario.db)
              (WellFormed 0%N) (ISO8601 (Some 1700008520000))) as (_ & _ & _ & _ & Hkept).
  eexists. split; [vm_compute; reflexivity|].
  edestruct (Hkept 0%N) as (p & Hp & _ & _ & _ & _ & _ & Hpredicted & Hfactors & _).
  - vm_compute. reflexivity.
  - vm_compute in Hp. injection Hp as <-. split; [exact Hpredicted | exact Hfactors].
Defined.

(** An answer of the update route against the requests that get it. *)
Ltac answer_iff :=
  split;
  [ intros Heq; first [ discriminate Heq | eauto 10 ]
  | intros Hex; decompose [ex and or] Hex; simplify_eq;
    repeat match goal with H : is_Some _ |- _ => destruct H end;
    first [ done | congruence ] ].

(** X12.  On a database that the operations of the component have
    produced from an empty prediction collection, the request alone
    decides the answer to a report.  It is 400 exactly when the validator
    rejects the body, 404 exactly when the body is accepted and the id is
    an ObjectId of no prediction, and 500 exactly when the body is
    accepted and the id is no ObjectId, or is the id of a prediction and
    the time does not parse.  A time that parses, for a stored prediction,
    is always saved: no stored document makes a report fail. *)
Theorem reportActual_responses db0 db now id body :
  predictions db0 = ∅ → rtc step db0 db →
  ((reportActual now db id body).1 = BadRequest ["Valid arrival time required"]
   ↔ body = NotISO8601)
  ∧ ((reportActual now db id body).1 = NotFound "Prediction not found"
     ↔ ∃ date i, body = ISO8601 date ∧ id = WellFormed i ∧ predictions db !! i = None)
  ∧ ((reportActual now db id body).1 = ServerError
     ↔ ∃ date, body = ISO8601 date
         ∧ (id = Malformed
            ∨ date = None ∧ ∃ i, id = WellFormed i ∧ is_Some (predictions db !! i)))
  ∧ (∀ i actual,
       id = WellFormed i → body = ISO8601 (Some actual) →
       is_Some (predictions db !! i) →
       ∃ p', (reportActual now db id body).1 = Updated i p'
             ∧ predictions (reportActual now db id body).2 !! i = Some p').
Proof.
  intros Hempty Hsteps.
  pose proof (reachable_allValid db0 db Hempty Hsteps) as Hvalid.
  destruct body as [|date]; [by split_and!; [answer_iff..|]|].
  destruct id as [i|]; [|by split_and!; [answer_iff..|]].
  destruct (predictions db !! i) as [p|] eqn:Hp.
  - assert (is_Some (predictions db !! i)) as Hsome by (rewrite Hp; eauto).
    destruct date as [actual|].
    + destruct (reportActual_found now db i p actual Hp (Hvalid i p Hp))
        as (p' & n & -> & _). cbn [fst snd predictions set_predictions].
      split_and!; [answer_iff..|].
      intros j actual' [= <-] [= <-] _. exists p'. split; [done|].
      apply lookup_insert_eq.
    + unfold reportActual, findById. rewrite Hp. cbn.
      split_and!; [answer_iff..|done].
  - unfold reportActual, findById. rewrite Hp. cbn.
    split_and!; [answer_iff..|]. intros j actual [= <-] _ [? ?]. congruence.
Qed.

Lemma reportActual_responses_witness :
  ∃ p', (reportActual 1700009000000
           (generate Scenario.clock Scenario.db Scenario.request).2
           (WellFormed 0%N) (ISO8601 (Some 1700008520000))).1 = Updated 0%N p'.
Proof.
  destruct (reportActual_responses Scenario.db
              (generate Scenario.clock Scenario.db Scenario.request).2
              1700009000000 (WellFormed 0%N) (ISO8601 (Some 1700008520000)))
    as (_ & _ & _ & Hsaved).
  - reflexivity.
  - eapply rtc_l; [apply (step_generate Scenario.clock _ Scenario.request)|].
    apply rtc_refl.
  - destruct (Hsaved 0%N 1700008520000) as (p' & Hanswer & _);
      [reflexivity | reflexivity | vm_compute; eauto |].
    by exists p'.
Defined.

(** X28.  A report is idempotent for one and the same time.  Repeating
    the report of a stored prediction with the time it already carries is
    answered with the stored document and changes nothing, [updatedAt]
    included: no path is modified, so the save writes nothing. *)
Theorem reportActual_same_time_unchanged now1 now2 db id p actual :
  predictions db !! id = Some p → schemaValid p = true →
  ∃ p1 db1,
    reportActual now1 db (WellFormed id) (ISO8601 (Some actual)) = (Updated id p1, db1)
    ∧ reportActual now2 db1 (WellFormed id) (ISO8601 (Some actual)) = (Updated id p1, db1).
Proof.
  intros Hp Hvalid.
  destruct (reportActual_found now1 db id p actual Hp Hvalid)
    as (p1 & n1 & Hreport1 & Hsave1 & _ & Hn1 & Hvalid1).
  exists p1, (set_predictions (<[id := p1]> (predictions db)) db). split; [done|].
  destruct (reportActual_found now2
              (set_predictions (<[id := p1]> (predictions db)) db) id p1 actual)
    as (p2 & n2 & Hreport2 & Hsave2 & _ & Hn2 & _); [apply lookup_insert_eq | done |].
  rewrite Hreport2. cbn [predictions set_predictions buses routes].
  rewrite insert_insert_eq.
  pose proof (save_fields _ _ _ _ Hsave1)
    as (_ & _ & _ & _ & _ & Hpred1 & Hactual1 & Hacc1 & _ & _ & Hstatus1 & _).
  assert (n2 = n1) as -> by (rewrite Hn2, Hn1, Hpred1; reflexivity).
  assert (set_predictionAccuracy n1 (set_status arrived (set_actualArrivalTime actual p1))
          = p1) as Hsame.
  { destruct p1. simpl in *. by simplify_eq. }
  apply save_Some in Hsave2 as [_ ->]. rewrite Hsame.
  unfold isModified. by rewrite bool_decide_eq_true_2.
Qed.

Lemma reportActual_same_time_unchanged_witness :
  ∃ p1 db1,
    reportActual 1700009000000
      (generate Scenario.clock Scenario.db Scenario.request).2
      (WellFormed 0%N) (ISO8601 (Some 1700008520000)) = (Updated 0%N p1, db1)
    ∧ reportActual 1700009500000 db1 (WellFormed 0%N) (ISO8601 (Some 1700008520000))
      = (Updated 0%N p1, db1)
    ∧ updatedAt p1 = 1700009000000.
Proof.
  destruct (reportActual_same_time_unchanged 1700009000000 1700009500000
              (generate Scenario.clock Scenario.db Scenario.request).2
              0%N Scenario.stored 1700008520000)
    as (p1 & db1 & Hfirst & Hsecond); [vm_compute; reflexivity..|].
  exists p1, db1. split_and!; [exact Hfirst | exact Hsecond |].
  vm_compute in Hfirst. by injection Hfirst as <- _.
Defined.

(** ** Updates of a prediction *)

Lemma default_default {A} (a : A) (o : option A) :
  default (default a o) o = default a o.
Proof. by destruct o. Qed.

Lemma mergeFactors_idempotent f n :
  mergeFactors (mergeFactors f n) n = mergeFactors f n.
Proof. unfold mergeFactors. simpl. f_equal; apply default_default. Qed.

(** X13.  [updatePrediction] replaces the factors that the argument names,
    keeps the others, stamps the update and recomputes the predicted
    arrival; it never touches the status, the actual arrival, the accuracy,
    the references, the stored average or the creation time.  So the
    accuracy of a prediction that has arrived is kept even though the
    predicted arrival it was computed from is replaced. *)
Theorem updatePrediction_preserves now newFactors p p' :
  updatePrediction now newFactors p = Some p' →
  status p' = status p
  ∧ actualArrivalTime p' = actualArrivalTime p
  ∧ predictionAccuracy p' = predictionAccuracy p
  ∧ busId p' = busId p ∧ routeId p' = routeId p ∧ driverId p' = driverId p
  ∧ stopId p' = stopId p ∧ coordinates p' = coordinates p
  ∧ averageTravelTime p' = averageTravelTime p
  ∧ createdAt p' = createdAt p
  ∧ updatedAt p' = now
  ∧ factors p' = mergeFactors (factors p) newFactors
  ∧ currentSpeed (factors p')
    = default (currentSpeed (factors p)) (in_currentSpeed newFactors)
  ∧ trafficConditions (factors p')
    = default (trafficConditions (factors p)) (in_trafficConditions newFactors)
  ∧ updateArrivalTime now (averageTravelTime p) (factors p')
    = Some (predictedArrivalTime p').
Proof.
  unfold updatePrediction. simpl.
  destruct (updateArrivalTime _ _ _) as [t|] eqn:Hdate; simpl; [|done].
  intros [_ ->]%save_stamped; [|done]. simpl. split_and!; done.
Qed.

Lemma updatePrediction_preserves_witness :
  ∃ p', updatePrediction 1700009000000
          (with_currentSpeed (Some 60%Q) Scenario.noFactors)
          (set_predictionAccuracy 50 (set_status arrived
             (set_actualArrivalTime 1700008520000 Scenario.stored))) = Some p'
        ∧ predictionAccuracy p' = Some 50
        ∧ status p' = arrived
        ∧ currentSpeed (factors p') = 60%Q.
Proof.
  eexists. split; [vm_compute; reflexivity|].
  edestruct (updatePrediction_preserves 1700009000000
               (with_currentSpeed (Some 60%Q) Scenario.noFactors)
               (set_predictionAccuracy 50 (set_status arrived
                  (set_actualArrivalTime 1700008520000 Scenario.stored))))
    as (Hstatus & _ & Haccuracy & _ & _ & _ & _ & _ & _ & _ & _ & _ & Hspeed & _).
  - vm_compute. reflexivity.
  - split_and!; [exact Haccuracy | exact Hstatus | exact Hspeed].
Defined.

(** X14.  Repeating an update with the same factors at the same instant
    changes nothing: the second call saves the document that the first one
    saved. *)
Theorem updatePrediction_idempotent now newFactors p p' :
  updatePrediction now newFactors p = Some p' →
  updatePrediction now newFactors p' = Some p'.
Proof.
  unfold updatePrediction. simpl.
  destruct (updateArrivalTime _ _ _) as [t|] eqn:Hdate; simpl; [|done].
  intros [Hvalid ->]%save_stamped; [|done]. simpl.
  rewrite mergeFactors_idempotent, Hdate. simpl.
  apply save_stamped; [done|]. split; [|done].
  unfold schemaValid in Hvalid |- *. simpl in Hvalid |- *. exact Hvalid.
Qed.

Lemma updatePrediction_idempotent_witness :
  ∃ p', updatePrediction 1700009000000
          (with_currentSpeed (Some 60%Q) Scenario.noFactors) Scenario.stored = Some p'
        ∧ updatePrediction 1700009000000
            (with_currentSpeed (Some 60%Q) Scenario.noFactors) p' = Some p'.
Proof.
  eexists. split; [vm_compute; reflexivity|].
  apply (updatePrediction_idempotent _ _ Scenario.stored). vm_compute. reflexivity.
Defined.

(** X15.  An update that the schema refuses changes nothing: for an
    unknown id, and for a stored prediction whose merged factors leave the
    schema's enums or ranges (a speed above 120, say), the database after
    [updatePrediction] is the database before. *)
Theorem updatePrediction_rejected now db id newFactors :
  (predictions db !! id = None → updatePredictionOf now db id newFactors = db)
  ∧ (∀ p, predictions db !! id = Some p →
       factorsValid (mergeFactors (factors p) newFactors) = false →
       updatePredictionOf now db id newFactors = db)
  ∧ (∀ p s, predictions db !! id = Some p →
       in_currentSpeed newFactors = Some s → (120 < s)%Q →
       updatePredictionOf now db id newFactors = db).
Proof.
  assert (∀ p, predictions db !! id = Some p →
            factorsValid (mergeFactors (factors p) newFactors) = false →
            updatePredictionOf now db id newFactors = db) as Hinvalid.
  { intros p Hp Hbad. unfold updatePredictionOf. rewrite Hp. simpl.
    destruct (updatePrediction now newFactors p) as [p'|] eqn:Hupd; [|done].
    apply updatePrediction_Some in Hupd as (_ & Hfactors & Hvalid & _).
    unfold schemaValid in Hvalid. rewrite Hfactors, Hbad in Hvalid. done. }
  split_and!.
  - intros Hnone. unfold updatePredictionOf. by rewrite Hnone.
  - exact Hinvalid.
  - intros p s Hp Hs Hfast. apply (Hinvalid p Hp).
    unfold factorsValid, mergeFactors. simpl. rewrite Hs. simpl.
    assert (inRange 0 120 s = false) as ->.
    { unfold inRange. apply andb_false_iff. right.
      apply not_true_iff_false. rewrite Qle_bool_iff. lra. }
    by rewrite !andb_false_r.
Qed.

Lemma updatePrediction_rejected_witness :
  updatePredictionOf 1700009000000
    (set_predictions {[ 0%N := Scenario.stored ]} Scenario.db) 0%N
    (with_currentSpeed (Some 200%Q) Scenario.noFactors)
  = set_predictions {[ 0%N := Scenario.stored ]} Scenario.db.
Proof.
  destruct (updatePrediction_rejected 1700009000000
              (set_predictions {[ 0%N := Scenario.stored ]} Scenario.db) 0%N
              (with_currentSpeed (Some 200%Q) Scenario.noFactors)) as (_ & _ & Hfast).
  apply (Hfast Scenario.stored 200%Q); reflexivity.
Defined.

(** ** Invariants of the stored predictions *)

(** The generate handler stores one new document or changes nothing. *)
Lemma generate_db clk db req :
  (generate clk db req).2 = db
  ∨ ∃ id p, generate clk db req
            = (Created id p, set_predictions (<[id := p]> (predictions db)) db).
Proof.
  destruct (generate clk db req) as [response db'] eqn:Hgen.
  destruct response as [id p| | | |].
  2-5: (left; unfold generate in Hgen; repeat case_match; by simplify_eq).
  right. exists id, p.
  by apply generate_Created in Hgen as (_ & _ & _ & _ & _ & _ & _ & ->).
Qed.

(** The document that [updatePrediction] saves. *)
Lemma updatePrediction_shape now newFactors p p' :
  updatePrediction now newFactors p = Some p' →
  ∃ t, p' = set_updatedAt now
              (set_predictedArrivalTime t
                 (set_updatedAt now
                    (set_factors (mergeFactors (factors p) newFactors) p))).
Proof.
  unfold updatePrediction. simpl.
  destruct (updateArrivalTime _ _ _) as [t|]; simpl; [|done].
  intros [_ ->]%save_stamped; [|done]. by exists t.
Qed.

(** A property of documents that every operation establishes for the
    document it stores holds in every reachable database. *)
Lemma step_preserves (P : Prediction → Prop) db db' :
  (∀ clk db req id p db', generate clk db req = (Created id p, db') → P p) →
  (∀ now actual p saved,
     P p →
     save now p (calculateAccuracy (set_status arrived (set_actualArrivalTime actual p))).1
     = Some saved → P saved) →
  (∀ now newFactors p p', P p → updatePrediction now newFactors p = Some p' → P p') →
  step db db' →
  (∀ id p, predictions db !! id = Some p → P p) →
  ∀ id p, predictions db' !! id = Some p → P p.
Proof.
  intros Hgenerate Hreport Hupdate Hstep Hdb.
  assert (∀ i q, P q → ∀ id p,
            predictions (set_predictions (<[i := q]> (predictions db)) db) !! id = Some p →
            P p) as Hinsert.
  { intros i q Hq id p. simpl. destruct (decide (i = id)) as [-> | Hne].
    - rewrite lookup_insert_eq. by intros [= <-].
    - rewrite lookup_insert_ne by done. apply Hdb. }
  destruct Hstep as [clk db req | now db i body | now db i newFactors].
  - destruct (generate_db clk db req) as [-> | (i & q & Hgen)]; [done|].
    rewrite Hgen. simpl. apply Hinsert. by eapply Hgenerate.
  - destruct (reportActual_cases now db i body)
      as [-> | (j & q & actual & saved & _ & _ & Hq & Hsave & ->)]; [done|].
    apply Hinsert. eapply Hreport; [|exact Hsave]. by eapply Hdb.
  - unfold updatePredictionOf.
    destruct (predictions db !! i) as [q|] eqn:Hq; simpl; [|done].
    destruct (updatePrediction now newFactors q) as [saved|] eqn:Hupd; [|done].
    apply Hinsert. eapply Hupdate; [|exact Hupd]. by eapply Hdb.
Qed.

(** Such a property holds in every database reached from an empty
    prediction collection. *)
Lemma reachable_preserves (P : Prediction → Prop) db0 db :
  (∀ clk db req id p db', generate clk db req = (Created id p, db') → P p) →
  (∀ now actual p saved,
     P p →
     save now p (calculateAccuracy (set_status arrived (set_actualArrivalTime actual p))).1
     = Some saved → P saved) →
  (∀ now newFactors p p', P p → updatePrediction now newFactors p = Some p' → P p') →
  predictions db0 = ∅ → rtc step db0 db →
  ∀ id p, predictions db !! id = Some p → P p.
Proof.
  intros Hgenerate Hreport Hupdate Hempty Hsteps.
  assert (∀ id p, predictions db0 !! id = Some p → P p) as Hinit.
  { intros id p Hp. by rewrite Hempty, lookup_empty in Hp. }
  clear Hempty. induction Hsteps as [db | db db1 db2 Hstep _ IH]; [done|].
  apply IH. by apply (step_preserves P db db1).
Qed.

Lemma reachable_lifecycle db0 db id p :
  predictions db0 = ∅ → rtc step db0 db →
  predictions db !! id = Some p → lifecycleConsistent p.
Proof.
  intros Hempty Hsteps Hp.
  apply (reachable_preserves lifecycleConsistent db0 db) with (id := id);
    [| | |done..].
  - intros clk d req i q d' Hgen.
    apply generate_Created_document in Hgen as (bus & _ & _ & Hdoc).
    pose proof (newDocument_Some _ _ _ Hdoc) as Hfields. left. tauto.
  - intros now actual q saved _
      (_ & _ & _ & _ & _ & _ & Hactual & Hacc & _ & _ & Hst & _)%save_fields.
    right. split; [exact Hst|].
    unfold calculateAccuracy in Hactual, Hacc. simpl in Hactual, Hacc.
    eexists actual, _. split; [exact Hactual|]. split; [exact Hacc|].
    apply Math_round_accuracy_range.
  - intros now newFactors q q' Hq Hupd.
    apply updatePrediction_shape in Hupd as (t & ->). exact Hq.
Qed.

(** X16.  The life cycle of a stored prediction.  In every database that
    the operations produce from an empty prediction collection, a
    prediction is either pending, with no actual arrival and no accuracy,
    or arrived, with an actual arrival and an accuracy between 0 and 100:
    the accuracy is set exactly when the actual arrival is. *)
Theorem lifecycle_invariant db0 db id p :
  predictions db0 = ∅ → rtc step db0 db →
  predictions db !! id = Some p →
  lifecycleConsistent p
  ∧ (is_Some (predictionAccuracy p) ↔ is_Some (actualArrivalTime p))
  ∧ (is_Some (actualArrivalTime p) ↔ status p = arrived).
Proof.
  intros Hempty Hsteps Hp.
  pose proof (reachable_lifecycle db0 db id p Hempty Hsteps Hp) as Hlife.
  split; [exact Hlife|].
  destruct Hlife as [(Hs & Ha & Hn) | (Hs & a & n & Ha & Hn & _)];
    rewrite Hs, Ha, Hn; split; split; try done; intros [? ?]; done.
Qed.

Lemma lifecycle_invariant_witness :
  ∃ p,
    predictions
      (reportActual 1700009000000
         (generate Scenario.clock Scenario.db Scenario.request).2
         (WellFormed 0%N) (ISO8601 (Some 1700008520000))).2 !! 0%N = Some p
    ∧ lifecycleConsistent p.
Proof.
  eexists. split; [vm_compute; reflexivity|].
  eapply (lifecycle_invariant Scenario.db _ 0%N).
  - reflexivity.
  - eapply rtc_l; [apply (step_generate Scenario.clock _ Scenario.request)|].
    eapply rtc_l; [apply (step_reportActual 1700009000000 _ (WellFormed 0%N) (ISO8601 (Some 1700008520000)))|].
    apply rtc_refl.
  - vm_compute. reflexivity.
Defined.

(** A document that the generate handler stores predicts an arrival after
    its creation. *)
Lemma generate_Created_future clk db req id p db' :
  generate clk db req = (Created id p, db') → createdAt p < predictedArrivalTime p.
Proof.
  intros Hgen.
  apply generate_Created in Hgen
    as (_ & (b & Htime & Hdate) & Hvalid%schemaValid_speed & Hspeed & -> & _).
  apply (arrivalDate_later _ _ b); [done|].
  apply generateTravelTime_lower in Htime; [lra|].
  intros s Hs. rewrite Hspeed, Hs in Hvalid. simpl in Hvalid. lra.
Qed.

(** A property that [generate] establishes and [reportActual] keeps holds
    in every database that the routes produce from an empty prediction
    collection. *)
Lemma route_reachable_preserves (P : Prediction → Prop) db0 db :
  (∀ clk db req id p db', generate clk db req = (Created id p, db') → P p) →
  (∀ now actual p saved,
     P p →
     save now p (calculateAccuracy (set_status arrived (set_actualArrivalTime actual p))).1
     = Some saved → P saved) →
  predictions db0 = ∅ → rtc routeStep db0 db →
  ∀ id p, predictions db !! id = Some p → P p.
Proof.
  intros Hgenerate Hreport Hempty Hsteps.
  assert (∀ id p, predictions db0 !! id = Some p → P p) as Hinit.
  { intros id p Hp. by rewrite Hempty, lookup_empty in Hp. }
  clear Hempty. induction Hsteps as [db | db db1 db2 Hstep _ IH]; [done|].
  apply IH. clear IH. intros id p.
  assert (∀ i q, P q →
            predictions (set_predictions (<[i := q]> (predictions db)) db) !! id = Some p →
            P p) as Hinsert.
  { intros i q Hq. simpl. destruct (decide (i = id)) as [-> | Hne].
    - rewrite lookup_insert_eq. by intros [= <-].
    - rewrite lookup_insert_ne by done. apply Hinit. }
  destruct Hstep as [clk db req | now db i body].
  - destruct (generate_db clk db req) as [-> | (i & q & Hgen)]; [apply Hinit|].
    rewrite Hgen. simpl. apply Hinsert. by eapply Hgenerate.
  - destruct (reportActual_cases now db i body)
      as [-> | (j & q & actual & saved & _ & _ & Hq & Hsave & ->)]; [apply Hinit|].
    apply Hinsert. eapply Hreport; [|exact Hsave]. by eapply Hinit.
Qed.

(** X17.  In every database that the routes (generate and the report of
    an actual arrival) produce from an empty prediction collection, the
    accuracy of a prediction is the score of its stored predicted and
    actual arrival, and its predicted arrival is after its creation time.
    [updatePrediction], which no route calls, does not keep the first: it
    replaces the predicted arrival and leaves the accuracy. *)
Theorem stored_accuracy_is_current :
  (∀ db0 db id p,
     predictions db0 = ∅ → rtc routeStep db0 db →
     predictions db !! id = Some p →
     accuracyCurrent p ∧ createdAt p < predictedArrivalTime p)
  ∧ ∃ now newFactors p p',
      accuracyCurrent p
      ∧ updatePrediction now newFactors p = Some p'
      ∧ ¬ accuracyCurrent p'.
Proof.
  split.
  - intros db0 db id p Hempty Hsteps Hp.
    apply (route_reachable_preserves
             (λ p, accuracyCurrent p ∧ createdAt p < predictedArrivalTime p) db0 db)
      with (id := id); [| |done..].
    + intros clk d req i q d' Hgen. split; [|by eapply generate_Created_future].
      apply generate_Created_document in Hgen as (bus & _ & _ & Hdoc).
      pose proof (newDocument_Some _ _ _ Hdoc) as Hfields.
      intros actual Hactual.
      assert (actualArrivalTime q = None) as Hnone by tauto.
      by rewrite Hnone in Hactual.
    + intros now actual q saved [_ Hfuture] Hsave.
      assert (∃ b : bool, saved = if b then set_updatedAt now
                                      (calculateAccuracy
                                         (set_status arrived (set_actualArrivalTime actual q))).1
                           else (calculateAccuracy
                                   (set_status arrived (set_actualArrivalTime actual q))).1)
        as [b ->] by (apply save_Some in Hsave as [_ ->]; eauto).
      split; [|by destruct b].
      intros actual'. destruct b; intros [= <-]; reflexivity.
  - exists 1700009000000, Scenario.noFactors,
      (set_predictionAccuracy 50 (set_status arrived
         (set_actualArrivalTime 1700008520000 Scenario.stored))).
    eexists. split_and!.
    + intros actual [= <-]. vm_compute. reflexivity.
    + vm_compute. reflexivity.
    + intros Hcurrent. specialize (Hcurrent 1700008520000 eq_refl).
      vm_compute in Hcurrent. discriminate.
Qed.

Lemma stored_accuracy_is_current_witness :
  ∃ p,
    predictions
      (reportActual 1700009000000
         (generate Scenario.clock Scenario.db Scenario.request).2
         (WellFormed 0%N) (ISO8601 (Some 1700008520000))).2 !! 0%N = Some p
    ∧ accuracyCurrent p.
Proof.
  destruct stored_accuracy_is_current as (Hcurrent & _).
  eexists. split; [vm_compute; reflexivity|].
  eapply (Hcurrent Scenario.db _ 0%N).
  - reflexivity.
  - eapply rtc_l; [apply (routeStep_generate Scenario.clock _ Scenario.request)|].
    eapply rtc_l;
      [apply (routeStep_reportActual 1700009000000 _ (WellFormed 0%N) (ISO8601 (Some 1700008520000)))|].
    apply rtc_refl.
  - vm_compute. reflexivity.
Defined.

(** ** Find, sort, limit *)

Section Page.
Context (P : Prediction → Prop) `{!∀ p, Decision (P p)}.
Context (ps : gmap ObjectId Prediction) (limit : nat).

Lemma elem_of_found id p : (id, p) ∈ (foundBy P ps) ↔ ps !! id = Some p ∧ P p.
Proof.
  unfold foundBy. rewrite merge_sort_Permutation, list_elem_of_filter.
  rewrite elem_of_map_to_list. simpl. tauto.
Qed.

Lemma found_sorted : StronglySorted byArrival (foundBy P ps).
Proof. apply StronglySorted_merge_sort; apply _. Qed.

Lemma found_NoDup : NoDup (foundBy P ps).*1.
Proof.
  unfold foundBy. rewrite merge_sort_Permutation.
  eapply sublist_NoDup; [apply (NoDup_fst_map_to_list ps)|].
  apply fmap_sublist, sublist_filter.
Qed.

(** The first [limit] of them are sorted, without repetition, and not
    later than any of the others. *)
Lemma page_spec :
  StronglySorted byArrival (take limit (foundBy P ps))
  ∧ NoDup (take limit (foundBy P ps)).*1
  ∧ length (take limit (foundBy P ps)) = (limit `min` length (foundBy P ps))%nat
  ∧ (∀ x y, x ∈ take limit (foundBy P ps) → y ∈ (foundBy P ps) → y ∉ take limit (foundBy P ps) → byArrival x y).
Proof.
  split_and!.
  - apply StronglySorted_take, found_sorted.
  - eapply sublist_NoDup; [apply found_NoDup|].
    apply fmap_sublist, sublist_take.
  - apply length_take.
  - intros x y Hx Hy Hnot.
    pose proof found_sorted as Hsorted.
    rewrite <- (take_drop limit (foundBy P ps)) in Hsorted, Hy.
    apply elem_of_app in Hy as [Hy | Hy]; [done|].
    by apply (StronglySorted_app_1_elem_of byArrival _ _ x y Hsorted).
Qed.

End Page.

(** X18.  The next arrivals at a stop are the earliest ones.  The result
    of [getPredictionsForStop] lists no prediction twice, has ten entries
    when more than ten predictions match and all of them otherwise, and
    every matching prediction that is left out is predicted no earlier
    than each one that is listed. *)
Theorem getPredictionsForStop_earliest now ps stop route :
  NoDup (getPredictionsForStop now ps stop route).*1
  ∧ length (getPredictionsForStop now ps stop route)
    = (10 `min` length (stopMatches now ps stop route))%nat
  ∧ (∀ id p, (id, p) ∈ stopMatches now ps stop route
             ↔ ps !! id = Some p ∧ stopQuery now stop route p)
  ∧ (∀ id p id' p',
       (id, p) ∈ getPredictionsForStop now ps stop route →
       ps !! id' = Some p' → stopQuery now stop route p' →
       (id', p') ∉ getPredictionsForStop now ps stop route →
       predictedArrivalTime p ≤ predictedArrivalTime p').
Proof.
  destruct (page_spec (stopQuery now stop route) ps 10)
    as (_ & Hnodup & Hlength & Hearliest).
  split_and!; [exact Hnodup | exact Hlength | apply elem_of_stopMatches |].
  intros id p id' p' Hin Hp' Hquery Hout.
  apply (Hearliest (id, p) (id', p')); [done | | done].
  by apply (elem_of_found (stopQuery now stop route)).
Qed.

Lemma getPredictionsForStop_earliest_witness :
  (0%N, Scenario.stored) ∈ stopMatches 1700000000000 {[ 0%N := Scenario.stored ]} 4 2%N.
Proof.
  destruct (getPredictionsForStop_earliest
              1700000000000 {[ 0%N := Scenario.stored ]} 4 2%N) as (_ & _ & Hmatch & _).
  apply Hmatch. split; [vm_compute; reflexivity|].
  unfold stopQuery. split_and!; [reflexivity | reflexivity | | vm_compute; discriminate].
  apply list_elem_of_here.
Defined.

(** X19.  The stop listing follows the life cycle.  A prediction that the
    generate handler has just stored is listed for its stop and route at
    every query time up to its predicted arrival, provided that no more
    than ten predictions match; once its actual arrival is reported it is
    listed for no stop, route or time. *)
Theorem stop_listing_follows_lifecycle :
  (∀ clk db req id p db' now,
     generate clk db req = (Created id p, db') →
     now ≤ predictedArrivalTime p →
     (length (stopMatches now (predictions db') (stopId p) (routeId p)) ≤ 10)%nat →
     (id, p) ∈ getPredictionsForStop now (predictions db') (stopId p) (routeId p))
  ∧ (∀ now db id actual p' db' now' stop route q,
       reportActual now db (WellFormed id) (ISO8601 (Some actual)) = (Updated id p', db') →
       (id, q) ∉ getPredictionsForStop now' (predictions db') stop route).
Proof.
  split.
  - intros clk db req id p db' now Hgen Hnow Hlen.
    unfold getPredictionsForStop. fold (stopMatches now (predictions db') (stopId p) (routeId p)).
    rewrite take_ge by done. apply elem_of_stopMatches.
    pose proof (generate_Created_document _ _ _ _ _ _ Hgen) as (bus & _ & _ & Hdoc).
    apply newDocument_Some in Hdoc
      as (_ & _ & _ & _ & _ & _ & _ & _ & _ & _ & _ & _ & _ & _ & _ & _ & _ & Hstatus & _).
    apply generate_Created in Hgen as (_ & _ & _ & _ & _ & _ & _ & ->).
    simpl. split; [apply lookup_insert_eq|].
    unfold stopQuery. rewrite Hstatus. split_and!; try done. apply list_elem_of_here.
  - intros now db id actual p' db' now' stop route q Hreport Hin.
    assert ((id, q) ∈ stopMatches now' (predictions db') stop route) as Hmatch.
    { unfold getPredictionsForStop in Hin.
      apply elem_of_take in Hin as (i & Hi & _). apply list_elem_of_lookup. eauto. }
    apply elem_of_stopMatches in Hmatch as [Hq (_ & _ & Hstatus & _)].
    apply reportActual_Updated in Hreport as (p & a & _ & _ & _ & Hsave & ->).
    simpl in Hq. rewrite lookup_insert_eq in Hq. injection Hq as <-.
    apply save_fields in Hsave as (_ & _ & _ & _ & _ & _ & _ & _ & _ & _ & Hst & _).
    rewrite Hst in Hstatus. simpl in Hstatus.
    apply elem_of_cons in Hstatus as [? | Hstatus]; [done|].
    by apply list_elem_of_singleton in Hstatus.
Qed.

Lemma stop_listing_follows_lifecycle_witness :
  (0%N, Scenario.stored)
    ∈ getPredictionsForStop 1700000000000
        (predictions (set_predictions {[ 0%N := Scenario.stored ]} Scenario.db)) 4 2%N
  ∧ (0%N, Scenario.stored)
      ∉ getPredictionsForStop 1700000000000
          (predictions
             (reportActual 1700009000000
                (set_predictions {[ 0%N := Scenario.stored ]} Scenario.db)
                (WellFormed 0%N) (ISO8601 (Some 1700008520000))).2) 4 2%N.
Proof.
  destruct stop_listing_follows_lifecycle as (Hlisted & Hdelisted).
  split.
  - apply (Hlisted Scenario.clock Scenario.db Scenario.request 0%N Scenario.stored
             (set_predictions {[ 0%N := Scenario.stored ]} Scenario.db) 1700000000000).
    + vm_compute. reflexivity.
    + vm_compute. discriminate.
    + vm_compute. lia.
  - eapply (Hdelisted 1700009000000
              (set_predictions {[ 0%N := Scenario.stored ]} Scenario.db)
              0%N 1700008520000).
    vm_compute. reflexivity.
Defined.

(** ** The predictions of a bus *)

Lemma elem_of_busMatches ps bus statusParam id p :
  (id, p) ∈ busMatches ps bus statusParam ↔ ps !! id = Some p ∧ busQuery bus statusParam p.
Proof. apply (elem_of_found (busQuery bus statusParam)). Qed.

(** X20.  The listing of a bus returns stored predictions of that bus
    only, with the status of the query string when it gives one, in
    ascending order of predicted arrival and none twice; it returns twenty
    of them when more than twenty match and all of them otherwise, and the
    ones left out are predicted no earlier than the ones listed. *)
Theorem busPredictions_listing ps bus statusParam :
  (∀ id p, (id, p) ∈ busPredictions ps bus statusParam →
     ps !! id = Some p ∧ busId p = bus
     ∧ ∀ s, givenParam statusParam = Some s → statusName (status p) = s)
  ∧ StronglySorted byArrival (busPredictions ps bus statusParam)
  ∧ NoDup (busPredictions ps bus statusParam).*1
  ∧ length (busPredictions ps bus statusParam)
    = (20 `min` length (busMatches ps bus statusParam))%nat
  ∧ (∀ id p,
       (length (busMatches ps bus statusParam) ≤ 20)%nat →
       ps !! id = Some p → busQuery bus statusParam p →
       (id, p) ∈ busPredictions ps bus statusParam)
  ∧ (∀ id p id' p',
       (id, p) ∈ busPredictions ps bus statusParam →
       ps !! id' = Some p' → busQuery bus statusParam p' →
       (id', p') ∉ busPredictions ps bus statusParam →
       predictedArrivalTime p ≤ predictedArrivalTime p').
Proof.
  destruct (page_spec (busQuery bus statusParam) ps 20)
    as (Hsorted & Hnodup & Hlength & Hearliest).
  split_and!; [| exact Hsorted | exact Hnodup | exact Hlength | |].
  - intros id p Hin.
    assert ((id, p) ∈ busMatches ps bus statusParam) as Hmatch.
    { unfold busPredictions in Hin.
      apply elem_of_take in Hin as (i & Hi & _). apply list_elem_of_lookup. eauto. }
    apply elem_of_busMatches in Hmatch as [Hp [Hbus Hstatus]].
    split_and!; [done | done |]. intros s Hs. by rewrite Hs in Hstatus.
  - intros id p Hlen Hp Hquery. unfold busPredictions.
    rewrite take_ge by done. by apply elem_of_busMatches.
  - intros id p id' p' Hin Hp' Hquery Hout.
    apply (Hearliest (id, p) (id', p')); [done | | done].
    by apply elem_of_busMatches.
Qed.

Lemma busPredictions_listing_witness :
  (0%N, Scenario.stored) ∈ busPredictions {[ 0%N := Scenario.stored ]} 1%N (Some "pending").
Proof.
  destruct (busPredictions_listing {[ 0%N := Scenario.stored ]} 1%N (Some "pending"))
    as (_ & _ & _ & _ & Hall & _).
  apply Hall.
  - vm_compute. lia.
  - vm_compute. reflexivity.
  - split; reflexivity.
Defined.

Lemma statusName_enum s :
  statusName s ∈ ["pending"; "in_transit"; "arrived"; "cancelled"].
Proof. destruct s; simpl; set_solver. Qed.

(** X21.  The status of the query string is compared as a name: an empty
    one filters nothing, and one that is no status of the schema yields an
    empty listing.  Unlike the stop listing, the listing of a bus keeps a
    prediction whose arrival has been reported: without a status filter,
    and with no more than twenty predictions of the bus, the updated
    document is listed. *)
Theorem busPredictions_status_filter :
  (∀ ps bus, busPredictions ps bus (Some "") = busPredictions ps bus None)
  ∧ (∀ ps bus s,
       s ≠ ""%string → s ∉ ["pending"; "in_transit"; "arrived"; "cancelled"] →
       busPredictions ps bus (Some s) = [])
  ∧ (∀ now db id actual p' db',
       reportActual now db (WellFormed id) (ISO8601 (Some actual)) = (Updated id p', db') →
       (length (busMatches (predictions db') (busId p') None) ≤ 20)%nat →
       (id, p') ∈ busPredictions (predictions db') (busId p') None
       ∧ (id, p') ∈ busPredictions (predictions db') (busId p') (Some "arrived")).
Proof.
  split_and!.
  - reflexivity.
  - intros ps bus s Hne Hunknown.
    destruct (busPredictions ps bus (Some s)) as [|[id p] l] eqn:Hlist; [done|].
    exfalso.
    assert ((id, p) ∈ busMatches ps bus (Some s)) as Hmatch.
    { apply list_elem_of_lookup. exists 0%nat.
      assert (busPredictions ps bus (Some s) !! 0%nat = Some (id, p)) as Hhead
        by by rewrite Hlist.
      unfold busPredictions in Hhead. by apply lookup_take_Some in Hhead as [? _]. }
    apply elem_of_busMatches in Hmatch as [_ [_ Hstatus]].
    unfold givenParam in Hstatus.
    destruct (String.eqb s "") eqn:Hs; [by apply String.eqb_eq in Hs|].
    simpl in Hstatus. apply Hunknown. rewrite <- Hstatus. apply statusName_enum.
  - intros now db id actual p' db' Hreport Hlen.
    assert (predictions db' !! id = Some p' ∧ status p' = arrived) as [Hp' Hstatus].
    { apply reportActual_Updated in Hreport as (p & a & _ & _ & _ & Hsave & ->).
      simpl. split; [apply lookup_insert_eq|].
      by apply save_fields in Hsave as (_ & _ & _ & _ & _ & _ & _ & _ & _ & _ & -> & _). }
    split.
    + unfold busPredictions. rewrite take_ge by done.
      by apply elem_of_busMatches.
    + unfold busPredictions.
      assert ((id, p') ∈ busMatches (predictions db') (busId p') (Some "arrived"))
        as Hmatch.
      { apply elem_of_busMatches. split; [done|]. split; [done|].
        simpl. by rewrite Hstatus. }
      rewrite take_ge; [done|].
      etrans; [|exact Hlen].
      unfold busMatches. rewrite !merge_sort_Permutation.
      clear. induction (map_to_list (predictions db')) as [|[i q] l IH]; [done|].
      rewrite !filter_cons.
      destruct (decide (busQuery (busId p') (Some "arrived") (i, q).2)) as [[Hb _] | _].
      * rewrite decide_True by by split. simpl. lia.
      * destruct (decide (busQuery (busId p') None (i, q).2)); simpl; lia.
Qed.

Lemma busPredictions_status_filter_witness :
  busPredictions {[ 0%N := Scenario.stored ]} 1%N (Some "done") = [].
Proof.
  destruct busPredictions_status_filter as (_ & Hunknown & _).
  apply Hunknown; [discriminate|].
  intros Hin. repeat (apply elem_of_cons in Hin as [? | Hin]; [discriminate|]).
  by apply elem_of_nil in Hin.
Defined.

(** ** The analytics *)

Section AnalyticsFacts.
Variable sameId : string → ObjectId → bool.

Lemma sum_bounds (lo hi : Z) (values : list Z) :
  Forall (λ x, lo ≤ x ≤ hi) values →
  lo * Z.of_nat (length values) ≤ foldr Z.add 0 values ≤ hi * Z.of_nat (length values).
Proof.
  induction 1 as [|x l Hx _ IH]; simpl; [lia|].
  rewrite Nat2Z.inj_succ. lia.
Qed.

(** The mean of numbers within bounds is within the bounds. *)
Lemma average_bounds (lo hi : Z) (values : list Z) :
  values ≠ [] → Forall (λ x, lo ≤ x ≤ hi) values →
  ∃ q, average values = Some q ∧ (inject_Z lo <= q <= inject_Z hi)%Q.
Proof.
  intros Hne Hall. pose proof (sum_bounds lo hi values Hall) as [Hlo Hhi].
  destruct values as [|x l]; [done|]. eexists. split; [reflexivity|].
  set (total := foldr Z.add 0 (x :: l)) in *.
  set (count := Z.of_nat (length (x :: l))) in *.
  assert (0 < count) as Hcount by (unfold count; simpl; lia).
  assert ((0 < inject_Z count)%Q) as Hcount'
    by (change 0%Q with (inject_Z 0); by rewrite <- Zlt_Qlt).
  split.
  - apply Qle_shift_div_l; [done|]. rewrite <- inject_Z_mult, <- Zle_Qle. lia.
  - apply Qle_shift_div_r; [done|]. rewrite <- inject_Z_mult, <- Zle_Qle. lia.
Qed.

(** The number of counted predictions, with or without a group. *)
Lemma totalPredictions_length now ps period busParam routeParam :
  totalPredictions (analytics sameId now ps period busParam routeParam)
  = length (List.filter (analyticsMatch sameId (now - periodLength period)
                           busParam routeParam) (map_to_list ps).*2).
Proof. unfold analytics, group. cbv zeta. by destruct (List.filter _ _). Qed.

Lemma group_cons p l :
  group (p :: l)
  = Some {| averageAccuracy := average (omap predictionAccuracy (p :: l));
            totalPredictions := length (p :: l);
            accuratePredictions := length (List.filter isAccurate (p :: l));
            averageDelay := average (omap delayOf (p :: l)) |}.
Proof. reflexivity. Qed.

Lemma length_filter_impl {A} (f g : A → bool) (l : list A) :
  (∀ x, f x = true → g x = true) →
  (length (List.filter f l) ≤ length (List.filter g l))%nat.
Proof.
  intros Himpl. induction l as [|x l IH]; simpl; [done|].
  destruct (f x) eqn:Hf.
  - rewrite (Himpl x Hf). simpl. lia.
  - destruct (g x); simpl; lia.
Qed.

End AnalyticsFacts.

(** X22.  The analytics of a database that the operations have produced
    from an empty prediction collection.  The accurate predictions are
    never more than the counted ones; without a counted prediction the
    answer is the all-zero object; the average accuracy is never null and
    lies between 0 and 100; and the average delay is never null or
    negative. *)
Theorem analytics_bounds sameId db0 db now period busParam routeParam :
  predictions db0 = ∅ → rtc step db0 db →
  let a := analytics sameId now (predictions db) period busParam routeParam in
  (accuratePredictions a ≤ totalPredictions a)%nat
  ∧ (totalPredictions a = 0%nat → a = noAnalytics)
  ∧ (∃ q, averageAccuracy a = Some q ∧ (0 <= q <= 100)%Q)
  ∧ (∃ d, averageDelay a = Some d ∧ (0 <= d)%Q).
Proof.
  intros Hempty Hsteps a. subst a. unfold analytics. cbv zeta.
  set (matched := List.filter _ _).
  assert (Forall (λ p, ∃ actual n, actualArrivalTime p = Some actual
                                   ∧ predictionAccuracy p = Some n ∧ 0 ≤ n ≤ 100)
            matched) as Hmatched.
  { apply Forall_forall. intros p [Hin Hmatch]%list_elem_of_In%filter_In.
    apply list_elem_of_In, list_elem_of_fmap in Hin as ([id p'] & -> & Hin).
    apply elem_of_map_to_list in Hin. simpl in *.
    unfold analyticsMatch in Hmatch. rewrite !andb_true_iff in Hmatch.
    destruct Hmatch as [[[_ [actual Hactual]%bool_decide_eq_true] _] _].
    destruct (reachable_lifecycle db0 db id p' Hempty Hsteps Hin)
      as [(_ & Hnone & _) | (_ & a & n & Ha & Hn & Hrange)].
    - by rewrite Hnone in Hactual.
    - by exists a, n. }
  clearbody matched. destruct matched as [|p l].
  { simpl. split_and!; [done | done | |]; exists 0%Q; (split; [done | lra]). }
  rewrite group_cons. remember (p :: l) as m eqn:Hm.
  cbn [default from_option id averageAccuracy totalPredictions accuratePredictions
       averageDelay].
  split_and!.
  - clear. induction m as [|x m IH]; simpl; [done|].
    destruct (isAccurate x); simpl; lia.
  - by rewrite Hm.
  - destruct (average_bounds 0 100 (omap predictionAccuracy m)) as (q & Hq & Hrange).
    + rewrite Hm in Hmatched |- *.
      inversion Hmatched as [|? ? (a & n & _ & Hn & _) _]; subst.
      simpl. by rewrite Hn.
    + clear -Hmatched. induction Hmatched as [|x m (a & n & _ & Hn & Hr) _ IH];
        simpl; [constructor|]. rewrite Hn. by constructor.
    + exists q. split; [done|]. exact Hrange.
  - destruct (omap delayOf m) as [|d ds] eqn:Hdelays.
    + exfalso. rewrite Hm in Hmatched, Hdelays.
      inversion Hmatched as [|? ? (a & n & Ha & _) _]; subst.
      simpl in Hdelays. unfold delayOf in Hdelays at 1. rewrite Ha in Hdelays.
      simpl in Hdelays. done.
    + assert (Forall (λ x, 0 ≤ x) (d :: ds)) as Hpos.
      { rewrite <- Hdelays. clear. induction m as [|x m IH]; simpl; [constructor|].
        unfold delayOf at 1. destruct (actualArrivalTime x); simpl; [|done].
        constructor; [lia | done]. }
      eexists. split; [reflexivity|].
      set (total := foldr Z.add 0 (d :: ds)).
      assert (0 ≤ total).
      { unfold total. clear -Hpos. induction Hpos; simpl; lia. }
      apply Qle_shift_div_l.
      * change 0%Q with (inject_Z 0). rewrite <- Zlt_Qlt. simpl. lia.
      * rewrite Qmult_0_l. change 0%Q with (inject_Z 0). by rewrite <- Zle_Qle.
Qed.

Lemma analytics_bounds_witness :
  ∃ q,
    averageAccuracy
      (analytics (λ _ _, true) 1700009500000
         (predictions
            (reportActual 1700009000000
               (generate Scenario.clock Scenario.db Scenario.request).2
               (WellFormed 0%N) (ISO8601 (Some 1700008520000))).2)
         (Some "24h") None None) = Some q
    ∧ (0 <= q <= 100)%Q.
Proof.
  eapply (analytics_bounds (λ _ _, true) Scenario.db).
  - reflexivity.
  - eapply rtc_l; [apply (step_generate Scenario.clock _ Scenario.request)|].
    eapply rtc_l; [apply (step_reportActual 1700009000000 _ (WellFormed 0%N) (ISO8601 (Some 1700008520000)))|].
    apply rtc_refl.
Defined.

(** X23.  The windows of the analytics nest: at one instant and with the
    same filters, the last 24 hours count no more predictions than the
    last 7 days, and those no more than the last 30 days.  A period that
    is none of ['24h'], ['7d'] and ['30d'] is answered like ['7d'], which
    is also the default. *)
Theorem analytics_periods sameId now ps busParam routeParam :
  (totalPredictions (analytics sameId now ps (Some "24h") busParam routeParam)
   ≤ totalPredictions (analytics sameId now ps (Some "7d") busParam routeParam))%nat
  ∧ (totalPredictions (analytics sameId now ps (Some "7d") busParam routeParam)
     ≤ totalPredictions (analytics sameId now ps (Some "30d") busParam routeParam))%nat
  ∧ analytics sameId now ps None busParam routeParam
    = analytics sameId now ps (Some "7d") busParam routeParam
  ∧ (∀ s, s ≠ "24h"%string → s ≠ "30d"%string →
       analytics sameId now ps (Some s) busParam routeParam
       = analytics sameId now ps (Some "7d") busParam routeParam).
Proof.
  assert (∀ start1 start2, start2 ≤ start1 →
            ∀ p, analyticsMatch sameId start1 busParam routeParam p = true →
                 analyticsMatch sameId start2 busParam routeParam p = true) as Hwiden.
  { intros start1 start2 Hle p. unfold analyticsMatch. rewrite !andb_true_iff.
    intros [[[Hstart ?] ?] ?]. split_and!; try done.
    apply Z.leb_le. apply Z.leb_le in Hstart. lia. }
  assert (periodLength (Some "24h"%string) = 86400000) as H24 by reflexivity.
  assert (periodLength (Some "7d"%string) = 604800000) as H7 by reflexivity.
  assert (periodLength (Some "30d"%string) = 2592000000) as H30 by reflexivity.
  split_and!.
  - rewrite !totalPredictions_length. apply length_filter_impl, Hwiden. lia.
  - rewrite !totalPredictions_length. apply length_filter_impl, Hwiden. lia.
  - reflexivity.
  - intros s Hs24 Hs30. unfold analytics.
    assert (periodLength (Some s) = periodLength (Some "7d"%string)) as ->; [|done].
    unfold periodLength. simpl default.
    destruct (String.eqb s "24h") eqn:E1; [by apply String.eqb_eq in E1|].
    destruct (String.eqb s "7d") eqn:E2; [reflexivity|].
    destruct (String.eqb s "30d") eqn:E3; [by apply String.eqb_eq in E3|].
    reflexivity.
Qed.

Lemma analytics_periods_witness :
  analytics (λ _ _, true) 1700009500000 {[ 0%N := Scenario.stored ]} (Some "1y") None None
  = analytics (λ _ _, true) 1700009500000 {[ 0%N := Scenario.stored ]} (Some "7d") None None.
Proof.
  destruct (analytics_periods (λ _ _, true) 1700009500000
              {[ 0%N := Scenario.stored ]} None None) as (_ & _ & _ & Hother).
  apply Hother; discriminate.
Defined.

(** ** The clock helpers *)



(** X25.  [getDayOfWeek] names the seven days of [getDay()], beginning
    with Sunday, by names of the schema's enum, which begins with Monday:
    day [d] is the entry [(d + 6) mod 7] of the enum.  Different days get
    different names, and an index beyond 6 gets none. *)
Theorem getDayOfWeek_names clk :
  ((clock_day clk < 7)%nat →
   ∃ name, getDayOfWeek clk = Some name
           ∧ dayOfWeekEnum !! ((clock_day clk + 6) mod 7)%nat = Some name
           ∧ inEnum dayOfWeekEnum name = true)
  ∧ ((7 ≤ clock_day clk)%nat → getDayOfWeek clk = None)
  ∧ (∀ clk', (clock_day clk < 7)%nat →
       getDayOfWeek clk = getDayOfWeek clk' → clock_day clk = clock_day clk').
Proof.
  unfold getDayOfWeek. cbv zeta. split_and!.
  - intros Hday.
    destruct (clock_day clk) as [|[|[|[|[|[|[|n]]]]]]]; try lia;
      eexists; split_and!; reflexivity.
  - intros Hday.
    destruct (clock_day clk) as [|[|[|[|[|[|[|n]]]]]]]; try lia. reflexivity.
  - intros clk' Hday.
    destruct (clock_day clk) as [|[|[|[|[|[|[|n]]]]]]]; try lia;
      destruct (clock_day clk') as [|[|[|[|[|[|[|m]]]]]]]; simpl; done.
Qed.

Lemma getDayOfWeek_names_witness :
  ∃ name, getDayOfWeek Scenario.clock = Some name
          ∧ dayOfWeekEnum !! 2%nat = Some name.
Proof.
  destruct (getDayOfWeek_names Scenario.clock) as (Hname & _).
  destruct Hname as (name & Hday & Henum & _); [vm_compute; lia|].
  exists name. split; [exact Hday | exact Henum].
Defined.

(** ** The fare between two stops *)

Section Fare.
Local Open Scope Q_scope.

Lemma findStop_Some (r : Route) (n : Q) (stop : Stop) :
  findStop r n = Some stop → In stop (stops r) ∧ stopNumber stop == n.
Proof.
  unfold findStop. intros [Hin Heq]%find_some. split; [done|].
  by apply Qeq_bool_iff.
Qed.

Lemma findStop_own (r : Route) (stop : Stop) :
  In stop (stops r) → is_Some (findStop r (stopNumber stop)).
Proof.
  intros Hin. unfold findStop.
  destruct (List.find _ _) as [found|] eqn:Hfind; [by eexists|].
  exfalso. pose proof (find_none _ _ Hfind stop Hin) as Hno. simpl in Hno.
  apply not_true_iff_false in Hno. apply Hno. by apply Qeq_bool_iff.
Qed.

End Fare.

(** X26.  [calculateFare] throws exactly when one of the two stop numbers
    is the number of no stop of the route; for the numbers of two stops
    taken from the route itself, as the bus search passes them, it returns
    a fare. *)
Theorem calculateFare_defined (r : Route) :
  (∀ a b, calculateFare r a b = None ↔ findStop r a = None ∨ findStop r b = None)
  ∧ (∀ a b, (∀ stop, In stop (stops r) → ¬ (stopNumber stop == a)%Q) →
            calculateFare r a b = None)
  ∧ (∀ s t, In s (stops r) → In t (stops r) →
            is_Some (calculateFare r (stopNumber s) (stopNumber t))).
Proof.
  split_and!.
  - intros a b. unfold calculateFare.
    destruct (findStop r a), (findStop r b); split; intros Hnone;
      first [done | by left | by right | by destruct Hnone].
  - intros a b Hnone. unfold calculateFare.
    destruct (findStop r a) as [stop|] eqn:Hfind; [|done].
    apply findStop_Some in Hfind as [Hin Heq]. by destruct (Hnone stop Hin).
  - intros s t Hs Ht. unfold calculateFare.
    destruct (findStop_own r s Hs) as [s' ->].
    destruct (findStop_own r t Ht) as [t' ->]. by eexists.
Qed.

Lemma calculateFare_defined_witness :
  is_Some (calculateFare
             {| stops := [ {| stopNumber := 1; estimatedTime := 0 |};
                           {| stopNumber := 2; estimatedTime := 12 |} ];
                averageSpeed := 30; fareBase := 10; farePerKm := 2 |} 1 2).
Proof.
  destruct (calculateFare_defined
              {| stops := [ {| stopNumber := 1; estimatedTime := 0 |};
                            {| stopNumber := 2; estimatedTime := 12 |} ];
                 averageSpeed := 30; fareBase := 10; farePerKm := 2 |})
    as (_ & _ & Hown).
  apply (Hown {| stopNumber := 1; estimatedTime := 0 |}
              {| stopNumber := 2; estimatedTime := 12 |}); simpl; tauto.
Defined.

(** X27.  The fare is the base fare plus a charge for the stretch of the
    schedule between the two stops.  It is the same in both directions and
    the base fare from a stop to itself.  With an average speed and a rate
    per kilometre that are not negative, as the schema requires, it is
    never below the base fare, and of two rides the one over the shorter
    stretch never costs more. *)
Theorem calculateFare_order (r : Route) :
  (∀ a b, match calculateFare r a b, calculateFare r b a with
          | Some f, Some g => (f == g)%Q
          | None, None => True
          | _, _ => False
          end)
  ∧ (∀ a f, calculateFare r a a = Some f → (f == fareBase r)%Q)
  ∧ ((0 <= averageSpeed r)%Q → (0 <= farePerKm r)%Q →
     (∀ a b f, calculateFare r a b = Some f → (fareBase r <= f)%Q)
     ∧ (∀ a b c d sa sb sc sd fab fcd,
          findStop r a = Some sa → findStop r b = Some sb →
          findStop r c = Some sc → findStop r d = Some sd →
          (Qabs (estimatedTime sb - estimatedTime sa)
           <= Qabs (estimatedTime sd - estimatedTime sc))%Q →
          calculateFare r a b = Some fab → calculateFare r c d = Some fcd →
          (fab <= fcd)%Q)).
Proof.
  split_and!.
  - intros a b. unfold calculateFare. cbv zeta.
    destruct (findStop r a) as [sa|], (findStop r b) as [sb|]; try done.
    assert (Qabs (estimatedTime sa - estimatedTime sb)
            == Qabs (estimatedTime sb - estimatedTime sa))%Q as Hsym.
    { rewrite <- Qabs_opp. apply Qabs_wd. ring. }
    by rewrite Hsym.
  - intros a f. unfold calculateFare. cbv zeta.
    destruct (findStop r a) as [sa|]; [|done].
    intros Hf. apply (inj Some) in Hf. subst f.
    assert (Qabs (estimatedTime sa - estimatedTime sa) == 0)%Q as ->.
    { rewrite (Qabs_wd _ 0); [reflexivity | ring]. }
    ring.
  - intros Hspeed Hrate.
    assert (0 <= averageSpeed r / 60 * farePerKm r)%Q as Hk.
    { apply Qmult_le_0_compat; [|done]. apply Qle_shift_div_l; lra. }
    split.
    + intros a b f. unfold calculateFare. cbv zeta.
      destruct (findStop r a) as [sa|], (findStop r b) as [sb|]; try done.
      intros Hf. apply (inj Some) in Hf. subst f.
      pose proof (Qabs_nonneg (estimatedTime sb - estimatedTime sa)) as Habs.
      set (d := Qabs _) in *. set (k := (averageSpeed r / 60)%Q) in *.
      set (m := farePerKm r) in *. clearbody d k m.
      assert (0 <= d * (k * m))%Q by by apply Qmult_le_0_compat.
      nra.
    + intros a b c d sa sb sc sd fab fcd Ha Hb Hc Hd Hle. unfold calculateFare.
      rewrite Ha, Hb, Hc, Hd. cbv zeta.
      intros Hab Hcd. apply (inj Some) in Hab, Hcd. subst fab fcd.
      set (dab := Qabs (estimatedTime sb - estimatedTime sa)) in *.
      set (dcd := Qabs (estimatedTime sd - estimatedTime sc)) in *.
      set (k := (averageSpeed r / 60)%Q) in *. set (m := farePerKm r) in *.
      clearbody dab dcd k m.
      assert (0 <= (dcd - dab) * (k * m))%Q
        by (apply Qmult_le_0_compat; [lra | done]).
      nra.
Qed.

Lemma calculateFare_order_witness :
  ∃ f, calculateFare
         {| stops := [ {| stopNumber := 1; estimatedTime := 0 |};
                       {| stopNumber := 2; estimatedTime := 12 |} ];
            averageSpeed := 30; fareBase := 10; farePerKm := 2 |} 1 2 = Some f
       ∧ (10 <= f)%Q.
Proof.
  destruct (calculateFare_order
              {| stops := [ {| stopNumber := 1; estimatedTime := 0 |};
                            {| stopNumber := 2; estimatedTime := 12 |} ];
                 averageSpeed := 30; fareBase := 10; farePerKm := 2 |})
    as (_ & _ & Hbounds).
  destruct Hbounds as [Hbase _]; [vm_compute; discriminate..|].
  eexists. split; [vm_compute; reflexivity|].
  apply (Hbase 1%Q 2%Q). vm_compute. reflexivity.
Defined.
